(** * scrape_openai_news.py: fetch, classify, translate, merge

    A shallow embedding of [scripts/scrape_openai_news.py] and the
    properties of its three commands ([fetch], [phase n], [merge]).

    Conventions of the embedding:
    - a Python [str] is the list of its code points ([list N]);
    - a Python [dict] with text values is a [gmap string str];
    - the Unicode tables of the interpreter ([str.lower], the classes
      behind [\d], [\s] and [\b]) are concrete on ASCII and taken from a
      [Unicode] instance above it, so every statement holds whatever the
      interpreter's tables are outside ASCII;
    - commands run in a small state-and-exception monad over a world made
      of the file system, the environment, the answers of the remote
      servers, and the console; [time.sleep] changes nothing in that world
      and is left out;
    - two settings of the interpreter are part of the model: [__debug__],
      which [python -O] turns off and with it every [assert], and the
      limit of 4300 digits on the conversion between integers and decimal
      strings, beyond which [int] and the formatting of an integer raise
      [ValueError]. *)

From Stdlib Require Import ZArith NArith Ascii String.
From stdpp Require Import gmap strings list fin_maps sorting.

Local Open Scope N_scope.

(** ** Text *)

Abbreviation str := (list N).

(** [py "abc"]: the Python literal ["abc"] (ASCII literals only; code points
    above ASCII are written out where the source has them). *)
Definition py (s : string) : str :=
  (fun a => N_of_ascii a) <$> list_ascii_of_string s.

(** [p] is a prefix of [s] ([s.startswith(p)]). *)
Fixpoint startswith (p s : str) : bool :=
  match p, s with
  | [], _ => true
  | _ :: _, [] => false
  | a :: p', b :: s' => (a =? b) && startswith p' s'
  end.

(** [kw in text] on two Python strings: [kw] occurs in [text]. *)
Fixpoint contains (kw text : str) : bool :=
  startswith kw text ||
  match text with
  | [] => false
  | _ :: rest => contains kw rest
  end.

(** ** The interpreter's Unicode tables *)

(** What CPython's Unicode database says above ASCII. [uni_lower s i] is the
    lower-case expansion of the code point at index [i] of [s] (the full case
    mapping may give several code points, and depends on the neighbours for
    the final sigma); [uni_decimal] is [Py_UNICODE_TODECIMAL]; [uni_space]
    is [Py_UNICODE_ISSPACE]; [uni_alnum] is [Py_UNICODE_ISALNUM]. No decimal
    digit is white space. *)
Class Unicode := {
  uni_lower   : str -> nat -> str;
  uni_decimal : N -> option N;
  uni_space   : N -> bool;
  uni_alnum   : N -> bool;
  uni_decimal_not_space :
    forall c, is_Some (uni_decimal c) -> uni_space c = false
}.

(** The tables of an interpreter that knows nothing above ASCII. *)
Definition ascii_only : Unicode := {|
  uni_lower   := fun s i => match s !! i with Some c => [c] | None => [] end;
  uni_decimal := fun _ => None;
  uni_space   := fun _ => false;
  uni_alnum   := fun _ => false;
  uni_decimal_not_space := fun _ _ => eq_refl
|}.

Definition is_ascii (c : N) : bool := c <? 128.

Definition ascii_upper_letter (c : N) : bool := (65 <=? c) && (c <=? 90).
Definition ascii_lower_letter (c : N) : bool := (97 <=? c) && (c <=? 122).
Definition ascii_letter (c : N) : bool :=
  ascii_upper_letter c || ascii_lower_letter c.
Definition ascii_digit (c : N) : bool := (48 <=? c) && (c <=? 57).

Definition ascii_lower (c : N) : N :=
  if ascii_upper_letter c then c + 32 else c.

(** [Py_UNICODE_ISSPACE] below 128: TAB, LF, VT, FF, CR, FS, GS, RS, US, SPACE. *)
Definition ascii_space (c : N) : bool :=
  ((9 <=? c) && (c <=? 13)) || ((28 <=? c) && (c <=? 32)).

Section Text.
Context {U : Unicode}.

Definition lower_at (s : str) (i : nat) (c : N) : str :=
  if is_ascii c then [ascii_lower c] else uni_lower s i.

(** [s.lower()] *)
Definition lower (s : str) : str := mjoin (imap (lower_at s) s).

(** Decimal value of a code point, [None] when it is no decimal digit. *)
Definition decimal (c : N) : option N :=
  if is_ascii c then (if ascii_digit c then Some (c - 48) else None)
  else uni_decimal c.

(** The class [\d] of a [str] pattern. *)
Definition is_digit (c : N) : bool :=
  match decimal c with Some _ => true | None => false end.

(** The class [\s] of a [str] pattern. *)
Definition is_space (c : N) : bool :=
  if is_ascii c then ascii_space c else uni_space c.

(** The class [\w] of a [str] pattern: alphanumeric or underscore. *)
Definition is_word (c : N) : bool :=
  if is_ascii c then ascii_letter c || ascii_digit c || (c =? 95)
  else uni_alnum c.
End Text.

(** ** Classification rules (checked in order; first match wins) *)

Definition cat_funding     : str := [34701; 36164].  (* U+878D U+8D44 *)
Definition cat_partnership : str := [21512; 20316].  (* U+5408 U+4F5C *)
Definition cat_research    : str := [30740; 31350].  (* U+7814 U+7A76 *)
Definition cat_policy      : str := [25919; 31574].  (* U+653F U+7B56 *)
Definition cat_product     : str := [20135; 21697].  (* U+4EA7 U+54C1 *)

Definition CATEGORY_RULES : list (str * list str) := [
  (cat_funding, py <$> [
     "funding"; "investment"; "invest"; "raises"; "valuation";
     "billion"; "million"; "capital"; "financing"; "secured";
     "series "; "round "
   ]%string);
  (cat_partnership, py <$> [
     "partnership"; "partner with"; "agreement with"; "collaboration with";
     "teams with"; "works with"; "integrat";
     "microsoft"; "apple"; "softbank"; "oracle"; "salesforce";
     "nvidia"; "amazon"; "google"; "lg "; "arm "
   ]%string);
  (cat_research, py <$> [
     "research"; "technical report"; "arxiv"; "we trained";
     "breakthrough"; "scaling"; "alignment"; "superalignment";
     "interpretability"; "emergent"; "multimodal"; "reinforcement learning";
     "preparedness"
   ]%string);
  (cat_policy, py <$> [
     "safety"; "governance"; "policy"; "regulation"; "congressional";
     "government"; "legislation"; "senate"; "congress";
     "democratic inputs"; "executive order"; "ai act"; "board of"
   ]%string);
  (cat_product,
     (py <$> [
        "introducing"; "launch"; "new model"; "available"; "releasing";
        "release"; "chatgpt"; "gpt-"; "dall-e"
      ]%string) ++
     [py "dall" ++ [183] ++ py "e"] ++
     (py <$> [
        "whisper"; "sora"; "codex"; "operator"; "o1 "; "o3 "; "o4 ";
        "jukebox"; "point-e"; "universe"; "gym"; "plugin"; "store";
        "assistants api"; "voice mode"; "canvas"; "deep research";
        "tasks"; "projects"; "memory"; "custom instructions";
        "api "; "access to"
      ]%string) ++
     [py "we" ++ [8217] ++ py "re releasing"; py "we are releasing"])
].

Section Classify.
Context {U : Unicode}.

(** The inner loop of [classify_article]: some keyword of the rule occurs
    in the text. *)
Definition rule_matches (keywords : list str) (text : str) : bool :=
  existsb (fun kw => contains kw text) keywords.

(** The outer loop of [classify_article] over a list of rules. *)
Fixpoint classify_text (rules : list (str * list str)) (text : str)
  : option str :=
  match rules with
  | [] => None
  | (category, keywords) :: rest =>
      if rule_matches keywords text then Some category
      else classify_text rest text
  end.

(** The text under test: [(title + " " + url).lower()]. *)
Definition article_text (title url : str) : str :=
  lower (title ++ py " " ++ url).

Definition classify_article (title url : str) : option str :=
  classify_text CATEGORY_RULES (article_text title url).
End Classify.

(** ** Regular expressions, as the [re] module matches them

    A backtracking matcher in continuation-passing style: alternatives are
    tried left to right, repetitions are greedy and give back one item at a
    time, and the first way to reach the end of the pattern is the match.
    Repetition is over one-code-point items, which is all the patterns of
    the script use. *)

Inductive regex :=
| REps
| RChar (c : N)
| RSet (p : N -> bool)
| RRep (p : N -> bool) (lo : nat) (hi : option nat)
| RSeq (r1 r2 : regex)
| RAlt (r1 r2 : regex)
| RGroup (n : nat) (r : regex)
| RBoundary.

(** A position in the subject: the code points already passed (nearest
    first) and those ahead. *)
Record cursor := Cursor { passed : str; ahead : str }.

(** The captured groups of a match, latest first. *)
Abbreviation groups := (list (nat * str)).

Definition group (m : groups) (n : nat) : str :=
  match find (fun e => Nat.eqb (fst e) n) m with
  | Some e => snd e
  | None => []
  end.

(** The text between two cursors of one subject. *)
Definition between (from to : cursor) : str :=
  reverse (take (length (passed to) - length (passed from)) (passed to)).

Fixpoint lit (s : str) : regex :=
  match s with
  | [] => REps
  | [c] => RChar c
  | c :: s' => RSeq (RChar c) (lit s')
  end.

Fixpoint seq (rs : list regex) : regex :=
  match rs with
  | [] => REps
  | [r] => r
  | r :: rs' => RSeq r (seq rs')
  end.

Section Regex.
Context {U : Unicode}.

Definition at_boundary (cur : cursor) : bool :=
  let that := match passed cur with c :: _ => is_word c | [] => false end in
  let this := match ahead cur with c :: _ => is_word c | [] => false end in
  xorb this that.

Definition hi_allows (hi : option nat) : bool :=
  match hi with Some O => false | _ => true end.

(** Greedy [p{lo,hi}] from the cursor [(sn, rs)]. *)
Fixpoint rep (p : N -> bool) (lo : nat) (hi : option nat) (sn rs : str)
    (g : groups) (k : cursor -> groups -> option groups) {struct rs}
  : option groups :=
  let stop := if Nat.eqb lo 0 then k (Cursor sn rs) g else None in
  match rs with
  | [] => stop
  | c :: rs' =>
      if hi_allows hi && p c then
        match rep p (Nat.pred lo) (Nat.pred <$> hi) (c :: sn) rs' g k with
        | Some m => Some m
        | None => stop
        end
      else stop
  end.

Fixpoint run (r : regex) (cur : cursor) (g : groups)
    (k : cursor -> groups -> option groups) {struct r} : option groups :=
  match r with
  | REps => k cur g
  | RChar c =>
      match ahead cur with
      | c' :: rs => if c =? c' then k (Cursor (c' :: passed cur) rs) g else None
      | [] => None
      end
  | RSet p =>
      match ahead cur with
      | c' :: rs => if p c' then k (Cursor (c' :: passed cur) rs) g else None
      | [] => None
      end
  | RRep p lo hi => rep p lo hi (passed cur) (ahead cur) g k
  | RSeq r1 r2 => run r1 cur g (fun cur' g' => run r2 cur' g' k)
  | RAlt r1 r2 =>
      match run r1 cur g k with
      | Some m => Some m
      | None => run r2 cur g k
      end
  | RGroup n r1 =>
      run r1 cur g (fun cur' g' => k cur' ((n, between cur cur') :: g'))
  | RBoundary => if at_boundary cur then k cur g else None
  end.

Definition accept (cur : cursor) (g : groups) : option groups := Some g.

(** [re.match(r, s)]: a match that starts at the start of [s]. *)
Definition re_match (r : regex) (s : str) : option groups :=
  run r (Cursor [] s) [] accept.

(** [re.search(r, s)]: the match at the leftmost position that has one. *)
Fixpoint search_from (r : regex) (sn rs : str) {struct rs} : option groups :=
  match run r (Cursor sn rs) [] accept with
  | Some m => Some m
  | None =>
      match rs with
      | [] => None
      | c :: rs' => search_from r (c :: sn) rs'
      end
  end.

Definition re_search (r : regex) (s : str) : option groups :=
  search_from r [] s.

(** [\b(20\d{2}|201[0-9]|200[0-9])\b] *)
Definition year_re : regex :=
  seq [RBoundary;
       RGroup 1 (RAlt (RSeq (lit (py "20")) (RRep is_digit 2 (Some 2%nat)))
                (RAlt (RSeq (lit (py "201")) (RSet ascii_digit))
                      (RSeq (lit (py "200")) (RSet ascii_digit))));
       RBoundary].

(** [(\d{4})-(\d{2})-(\d{2})] *)
Definition iso_date_re : regex :=
  seq [RGroup 1 (RRep is_digit 4 (Some 4%nat)); RChar 45;
       RGroup 2 (RRep is_digit 2 (Some 2%nat)); RChar 45;
       RGroup 3 (RRep is_digit 2 (Some 2%nat))].

(** [([a-zA-Z]+)\s+(\d{1,2}),?\s+(\d{4})] *)
Definition named_date_re : regex :=
  seq [RGroup 1 (RRep ascii_letter 1 None);
       RRep is_space 1 None;
       RGroup 2 (RRep is_digit 1 (Some 2%nat));
       RRep (N.eqb 44) 0 (Some 1%nat);
       RRep is_space 1 None;
       RGroup 3 (RRep is_digit 4 (Some 4%nat))].
End Regex.

(** ** [int] on a string *)

(** [sys.get_int_max_str_digits()] as the interpreter starts: the most
    digits an integer may have when it is read from, or written to, a
    string in base ten. *)
Definition INT_MAX_STR_DIGITS : N := 4300.

Section Int.
Context {U : Unicode}.

(** [s.lstrip()] *)
Fixpoint lstrip (s : str) : str :=
  match s with
  | c :: s' => if is_space c then lstrip s' else s
  | [] => []
  end.

(** [s.strip()] *)
Definition strip (s : str) : str :=
  reverse (lstrip (reverse (lstrip s))).

(** The digits of an integer literal: decimal digits, single underscores
    between them. [after_digit] says the previous code point was a digit. *)
Fixpoint digits_value (acc : Z) (after_digit : bool) (s : str) : option Z :=
  match s with
  | [] => if after_digit then Some acc else None
  | c :: s' =>
      match decimal c with
      | Some d => digits_value (10 * acc + Z.of_N d)%Z true s'
      | None =>
          if (c =? 95) && after_digit then digits_value acc false s'
          else None
      end
  end.

(** The white space [int] allows around a literal: what C's [isspace] takes
    below 128 (TAB, LF, VT, FF, CR and SPACE, not FS, GS, RS, US) and the
    Unicode white space above. *)
Definition int_space (c : N) : bool :=
  if is_ascii c then ((9 <=? c) && (c <=? 13)) || (c =? 32) else uni_space c.

Fixpoint int_lstrip (s : str) : str :=
  match s with
  | c :: s' => if int_space c then int_lstrip s' else s
  | [] => []
  end.

Definition int_strip (s : str) : str :=
  reverse (int_lstrip (reverse (int_lstrip s))).

(** The number of digits of a literal. *)
Definition digit_count (s : str) : N :=
  N.of_nat (length (filter (fun c => is_digit c = true) s)).

(** [int(s)] in base ten; [None] is [ValueError], which a literal of more
    than [INT_MAX_STR_DIGITS] digits raises as well. *)
Definition int_of_str (s : str) : option Z :=
  match int_strip s with
  | c :: ds =>
      let literal := if (c =? 43) || (c =? 45) then ds else c :: ds in
      if INT_MAX_STR_DIGITS <? digit_count literal then None
      else if c =? 43 then digits_value 0 false ds
      else if c =? 45 then Z.opp <$> digits_value 0 false ds
      else digits_value 0 false (c :: ds)
  | [] => None
  end.
End Int.

(** ** Helpers *)

Section Helpers.
Context {U : Unicode}.

(** Truth value of a string: non-empty. *)
Definition truthy (s : str) : bool :=
  match s with [] => false | _ => true end.

(** [a or b] on strings. *)
Definition or_else (a b : str) : str := if truthy a then a else b.

(** [year_of]: the year of a date string like ['2023-01-15'] or
    ['January 15, 2023']. *)
Definition year_of (date_str : str) : option Z :=
  if truthy date_str then
    match re_search year_re date_str with
    | Some m => int_of_str (group m 1)
    | None => None
    end
  else None.
End Helpers.

(** ** Records, files and the world of a command *)

(** An article record and a structured date are dictionaries with text
    values. *)
Abbreviation dict := (gmap string str).

(** [d.get(k, default)] *)
Definition get (d : dict) (k : string) (dflt : str) : str :=
  default dflt (d !! k).

(** [{"headline": ..., "text": ...}] *)
Record text_block := TextBlock { headline : str; body : str }.

(** [{"start_date": ..., "text": {...}, "group": ...}] *)
Record event := Event {
  ev_start_date : dict;
  ev_text       : text_block;
  ev_group      : str
}.

(** [{"title": {"text": {...}}, "events": [...]}] *)
Record timeline := Timeline { tl_title : text_block; tl_events : list event }.

(** What a JSON file of the pipeline holds once parsed. *)
Inductive json_data :=
| JArticles (arts : list dict)
| JTimeline (doc : timeline).

(** The lines a command prints, one constructor per [print] of the source,
    with the values formatted into it. *)
Inductive line :=
| Rule                                    (* "=" * 60 *)
| FetchBanner | MergeBanner
| PhaseBanner (phase_num : nat) (year_from year_to : Z)
| WillOverwrite (path : string)
| PageLine (page : nat) (url : str)
| FoundNextData (count : nat) | FoundHtml (count : nat)
| NoArticles (page : nat) | NeedsRendering
| NewTotal (new total : nat)
| Fetched (total : nat)
| InRange (count : nat)
| Classified (category title : str)
| SelectedSkipped (selected skipped : nat)
| Translating (count : nat)
| TranslateFailed (title : str)
| Translated (i total : nat) (headline_zh : str)
| PhaseDone (phase_num selected skipped : nat)
| PhaseMissing (path : string)
| PhaseRead (phase_num count : nat)
| SkipNoDate (title : str)
| EventsWritten (count : nat)
| ErrRequest | ErrPhaseNumber | ErrNoApiKey | ErrNoRawFile.  (* stderr *)

(** File-system calls, in the order they are made. *)
Inductive fs_call :=
| FsExists (path : string)
| FsLoad (path : string)
| FsSave (path : string).

(** The world: files on disk, the environment, the answers the remote
    servers will give to the requests to come ([None]: the request raises),
    and what the command has printed and asked of the file system so far
    (latest first). *)
Record world := World {
  files   : gmap string json_data;
  environ : gmap string str;
  remote  : list (option str);
  console : list line;
  fs_log  : list fs_call
}.

Inductive exn :=
| AssertionError
| SystemExit (code : Z)
| FileNotFoundError
| AttributeError
| ValueError.

Inductive result (A : Type) :=
| Ok (a : A)
| Raise (e : exn).
Arguments Ok {A} a.
Arguments Raise {A} e.

(** Commands: state passing with exceptions; the world a command leaves
    behind is kept also when it raises. *)
Definition M (A : Type) : Type := world -> result A * world.

Definition ret {A} (a : A) : M A := fun w => (Ok a, w).

Definition bind {A B} (m : M A) (k : A -> M B) : M B :=
  fun w =>
    match m w with
    | (Ok a, w') => k a w'
    | (Raise e, w') => (Raise e, w')
    end.

Definition raise {A} (e : exn) : M A := fun w => (Raise e, w).

Declare Scope cmd_scope.
Delimit Scope cmd_scope with cmd.
Notation "x <- m ;; k" := (bind m (fun x => k))
  (at level 100, m at next level, right associativity) : cmd_scope.
Notation "m ;; k" := (bind m (fun _ => k))
  (at level 100, right associativity) : cmd_scope.

Local Open Scope cmd_scope.

Definition print (l : line) : M unit := fun w =>
  (Ok tt, World (files w) (environ w) (remote w) (l :: console w) (fs_log w)).

Definition log_fs (c : fs_call) (w : world) : world :=
  World (files w) (environ w) (remote w) (console w) (c :: fs_log w).

(** [os.path.exists(path)] *)
Definition path_exists (path : string) : M bool := fun w =>
  (Ok (bool_decide (is_Some (files w !! path))), log_fs (FsExists path) w).

(** [load_json(path)] *)
Definition load_json (path : string) : M json_data := fun w =>
  match files w !! path with
  | Some d => (Ok d, log_fs (FsLoad path) w)
  | None => (Raise FileNotFoundError, log_fs (FsLoad path) w)
  end.

(** [save_json(path, data)] *)
Definition save_json (path : string) (data : json_data) : M unit := fun w =>
  (Ok tt, log_fs (FsSave path)
            (World (<[path := data]> (files w)) (environ w) (remote w)
                   (console w) (fs_log w))).

(** One request to a remote server: its answer, or [None] when it raises
    (also when no answer is left). *)
Definition request : M (option str) := fun w =>
  match remote w with
  | r :: rest =>
      (Ok r, World (files w) (environ w) rest (console w) (fs_log w))
  | [] => (Ok None, w)
  end.

(** [assert cond]; the statement is left out of the program when the
    interpreter runs with [-O] ([__debug__] false). *)
Definition py_assert (__debug__ cond : bool) : M unit :=
  if __debug__ && negb cond then raise AssertionError else ret tt.

(** The outcome of a call that touches nothing of the world. *)
Definition call {A} (r : result A) : M A := fun w => (r, w).

(** [for x in xs: acc = body x acc] *)
Fixpoint for_each {A S} (xs : list A) (body : A -> S -> M S) (acc : S) : M S :=
  match xs with
  | [] => ret acc
  | x :: xs' => acc' <- body x acc ;; for_each xs' body acc'
  end.

(** ** Paths *)

(** [os.path.join(a, b)] for a relative [b]. *)
Definition path_join (a b : string) : string :=
  if String.eqb a "" then b
  else if String.eqb (String.substring (String.length a - 1) 1 a) "/"
       then (a ++ b)%string else (a ++ "/" ++ b)%string.

Fixpoint digits_of_nat_aux (fuel n : nat) (acc : string) : string :=
  match fuel with
  | O => acc
  | S fuel' =>
      let d := String (ascii_of_nat (48 + n mod 10)) acc in
      if Nat.ltb n 10 then d else digits_of_nat_aux fuel' (n / 10) d
  end.

(** ["{}".format(n)] for a natural number. *)
Definition format_nat (n : nat) : string := digits_of_nat_aux (S n) n "".

(** The paths a command works with. *)
Record paths := Paths {
  RAW_PATH      : string;
  OUTPUT_PATH   : string;
  ORIGINAL_PATH : string;
  phase_path    : nat -> string
}.

(** The paths of the script, given the directory it lies in and the parent
    of that directory. *)
Definition script_paths (SCRIPT_DIR PROJECT_ROOT : string) : paths := {|
  RAW_PATH := path_join SCRIPT_DIR "raw_articles.json";
  OUTPUT_PATH :=
    path_join (path_join (path_join PROJECT_ROOT "contrib") "examples")
              "new_openai_data.json";
  ORIGINAL_PATH :=
    path_join (path_join (path_join PROJECT_ROOT "contrib") "examples")
              "openai_data.json";
  phase_path := fun n =>
    path_join SCRIPT_DIR ("phase" ++ format_nat n ++ ".json")
|}.

(** Year ranges for each phase *)
Definition PHASE_RANGES : gmap nat (Z * Z) :=
  {[ 1%nat := (2015, 2019); 2%nat := (2020, 2021);
     3%nat := (2022, 2023); 4%nat := (2024, 9999) ]}%Z.

Definition BASE_URL : str := py "https://openai.com".
Definition NEWS_URL : str := py "https://openai.com/news/?sortBy=old".

(** ** Step 1: fetch *)

(** The de-duplication state of [cmd_fetch]: [all_articles], [seen], and
    [new], the count of records the current page has added. *)
Record fetch_acc := FetchAcc {
  all_articles : list dict;
  seen         : gset str;
  new          : nat
}.

Section Fetch.
Context {U : Unicode}.

(** Page parsing is the work of [json] and [BeautifulSoup]; the model takes
    the three page readers as they are, each with the outcome of its call:
    the records of the embedded [__NEXT_DATA__] payload ([None] when there
    is none), the records found in the markup, and the next-page link. A
    reader may raise: [_next_data_articles] on a payload that is no object
    (its outcome also stands for the normalisation of its records, which
    raises on a record that is no object), [_next_page] when [int] or the
    formatting of the page number does. Nothing in [cmd_fetch] catches
    these. *)
Variable _next_data_articles : str -> result (option (list dict)).
Variable _html_articles : str -> result (list dict).
Variable _next_page : str -> str -> result (option str).

(** [raw.get(k)], an absent member being as false as an empty one. *)
Definition member (raw : dict) (k : string) : str := get raw k [].

Definition _normalize (raw : dict) : dict :=
  let title :=
    or_else (member raw "title")
      (or_else (member raw "headline") (or_else (member raw "name") [])) in
  let slug := or_else (member raw "slug") [] in
  let url :=
    or_else (member raw "url")
      (or_else (member raw "href") (or_else (member raw "link") [])) in
  let url :=
    if negb (truthy url) && truthy slug
    then BASE_URL ++ py "/index/" ++ slug ++ py "/"
    else if truthy url && startswith (py "/") url then BASE_URL ++ url
    else url in
  let date_str :=
    or_else (member raw "publishedAt")
      (or_else (member raw "published_at")
         (or_else (member raw "date") (or_else (member raw "createdAt") []))) in
  {[ "title" := title; "url" := url; "date_str" := date_str ]}.

(** [art.get("url") or art.get("title", "")] *)
Definition article_key (art : dict) : str :=
  or_else (member art "url") (get art "title" []).

(** The body of the loop over [page_articles]. *)
Definition dedup_step (acc : fetch_acc) (art : dict) : fetch_acc :=
  let key := article_key art in
  if truthy key && bool_decide (key ∉ seen acc) then
    FetchAcc (all_articles acc ++ [art]) ({[ key ]} ∪ seen acc) (S (new acc))
  else acc.

(** [new = 0] and the loop over [page_articles]. *)
Definition dedup_page (page_articles : list dict) (all : list dict)
    (sn : gset str) : fetch_acc :=
  foldl dedup_step (FetchAcc all sn 0) page_articles.

(** The records of a page and the line that tells where they were found;
    [None] when neither reader finds a record. *)
Definition read_page (html : str) : M (option (list dict * line)) :=
  raw_list <- call (_next_data_articles html) ;;
  match raw_list with
  | Some (r :: raw_list) =>
      let page_articles := _normalize <$> (r :: raw_list) in
      ret (Some (page_articles, FoundNextData (length page_articles)))
  | _ =>
      page_articles <- call (_html_articles html) ;;
      ret (match page_articles with
           | [] => None
           | _ => Some (page_articles, FoundHtml (length page_articles))
           end)
  end.

(** The [while url:] loop. Each turn makes one request, so a turn count
    above the number of answers left is never used up. *)
Fixpoint fetch_pages (turns : nat) (url : str) (page : nat)
    (all : list dict) (sn : gset str) : M (list dict) :=
  match turns with
  | O => ret all
  | S turns' =>
      if negb (truthy url) then ret all else
      print (PageLine page url) ;;
      resp <- request ;;
      match resp with
      | None => print ErrRequest ;; ret all
      | Some html =>
          found <- read_page html ;;
          match found with
          | None => print (NoArticles page) ;; print NeedsRendering ;; ret all
          | Some (page_articles, how) =>
              print how ;;
              let acc := dedup_page page_articles all sn in
              print (NewTotal (new acc) (length (all_articles acc))) ;;
              if Nat.eqb (new acc) 0 then ret (all_articles acc) else
              next_url <- call (_next_page html url) ;;
              match next_url with
              | None => ret (all_articles acc)
              | Some next_url =>
                  if negb (truthy next_url) || bool_decide (next_url = url)
                  then ret (all_articles acc)
                  else fetch_pages turns' next_url (S page)
                         (all_articles acc) (seen acc)
              end
          end
      end
  end.

Definition cmd_fetch (P : paths) : M unit :=
  print Rule ;; print FetchBanner ;; print Rule ;;
  ex <- path_exists (RAW_PATH P) ;;
  (if ex : bool then print (WillOverwrite (RAW_PATH P)) else ret tt) ;;
  all <- (fun w => fetch_pages (S (length (remote w))) NEWS_URL 1 [] ∅ w) ;;
  save_json (RAW_PATH P) (JArticles all) ;;
  print (Fetched (length all)).
End Fetch.

(** ** Step 2: classify and translate (per phase) *)

(** A parsed JSON value: an object with its text members, or anything else. *)
Inductive json_value :=
| JObject (members : dict)
| JOther.

(** [except Exception] catches everything but a [SystemExit]. *)
Definition is_Exception (e : exn) : bool :=
  match e with SystemExit _ => false | _ => true end.

(** [try: body  except Exception: handler] *)
Definition try_except {A} (body : M A) (handler : M A) : M A := fun w =>
  match body w with
  | (Ok a, w') => (Ok a, w')
  | (Raise e, w') => if is_Exception e then handler w' else (Raise e, w')
  end.

Section Phase.
Context {U : Unicode}.

(** [re.sub(r"```(?:json)?\s*|\s*```", "", raw).strip()] and [json.loads]
    ([None]: it raises [ValueError]), taken as they are. *)
Variable strip_fences : str -> str.
Variable json_loads : str -> option json_value.

(** [_call_openai]: the content of the answer; raises on a transport
    error, an error status, or an answer that lacks
    [choices[0].message.content]. *)
Definition _call_openai : M str :=
  resp <- request ;;
  match resp with
  | Some content => ret content
  | None => raise ValueError
  end.

(** [y and year_from <= y <= year_to] *)
Definition in_year_range (year_from year_to : Z) (art : dict) : bool :=
  match year_of (get art "date_str" []) with
  | Some y => negb (y =? 0)%Z && (year_from <=? y)%Z && (y <=? year_to)%Z
  | None => false
  end.

(** The loop "Filter by year range". *)
Definition filter_in_range (year_from year_to : Z) (all : list dict)
  : list dict :=
  foldl (fun in_range art =>
           if in_year_range year_from year_to art then in_range ++ [art]
           else in_range) [] all.

(** The loop "Classify": [classified] and [skipped]. *)
Definition classify_step (art : dict) (acc : list dict * nat)
  : M (list dict * nat) :=
  let '(classified, skipped) := acc in
  match classify_article (get art "title" []) (get art "url" []) with
  | Some cat =>
      if truthy cat then
        let art := <["category" := cat]> art in
        print (Classified cat (get art "title" [])) ;;
        ret (classified ++ [art], skipped)
      else ret (classified, S skipped)
  | None => ret (classified, S skipped)
  end.

(** The body of the [try]: the article with both translated fields. *)
Definition translate_try (art : dict) : M dict :=
  raw <- _call_openai ;;
  match json_loads (strip_fences raw) with
  | None => raise ValueError
  | Some JOther => raise AttributeError
  | Some (JObject result) =>
      ret (<["summary_zh" := get result "summary" []]>
             (<["headline_zh" := get result "headline" (get art "title" [])]>
                art))
  end.

(** The body of the [except]. *)
Definition translate_fallback (art : dict) : M dict :=
  print (TranslateFailed (get art "title" [])) ;;
  ret (<["summary_zh" := []]> (<["headline_zh" := get art "title" []]> art)).

(** The loop "Translate": [done] holds the articles already passed, so
    the position of [art] is [length done + 1]. *)
Definition translate_step (total : nat) (art : dict) (done : list dict)
  : M (list dict) :=
  art' <- try_except (translate_try art) (translate_fallback art) ;;
  print (Translated (S (length done)) total (get art' "headline_zh" [])) ;;
  ret (done ++ [art']).

Definition cmd_phase (P : paths) (phase_num : nat) : M unit :=
  match PHASE_RANGES !! phase_num with
  | None => print ErrPhaseNumber ;; raise (SystemExit 1)
  | Some (year_from, year_to) =>
      print Rule ;; print (PhaseBanner phase_num year_from year_to) ;;
      print Rule ;;
      api_key <- (fun w => (Ok (strip (get (environ w) "SILICONFLOW_API_KEY" [])), w)) ;;
      if negb (truthy api_key) then print ErrNoApiKey ;; raise (SystemExit 1)
      else
      ex <- path_exists (RAW_PATH P) ;;
      if negb ex then print ErrNoRawFile ;; raise (SystemExit 1) else
      data <- load_json (RAW_PATH P) ;;
      match data with
      | JTimeline _ => raise AttributeError
      | JArticles all =>
          let in_range := filter_in_range year_from year_to all in
          print (InRange (length in_range)) ;;
          acc <- for_each in_range classify_step ([], O) ;;
          let classified := fst acc in
          let skipped := snd acc in
          print (SelectedSkipped (length classified) skipped) ;;
          print (Translating (length classified)) ;;
          classified <- for_each classified
                          (translate_step (length classified)) [] ;;
          save_json (phase_path P phase_num) (JArticles classified) ;;
          print (PhaseDone phase_num (length classified) skipped)
      end
  end.
End Phase.

(** ** Step 3: merge *)

Definition month_map : gmap str str :=
  list_to_map ((fun e => (py (fst e), py (snd e))) <$> [
    ("january", "01"); ("february", "02"); ("march", "03"); ("april", "04");
    ("may", "05"); ("june", "06"); ("july", "07"); ("august", "08");
    ("september", "09"); ("october", "10"); ("november", "11");
    ("december", "12");
    ("jan", "01"); ("feb", "02"); ("mar", "03"); ("apr", "04");
    ("jun", "06"); ("jul", "07"); ("aug", "08");
    ("sep", "09"); ("oct", "10"); ("nov", "11"); ("dec", "12")
  ]%string).

(** [s.zfill(width)] *)
Definition zfill (width : nat) (s : str) : str :=
  let pad := replicate (width - length s) 48 in
  match s with
  | c :: s' => if (c =? 43) || (c =? 45) then c :: pad ++ s' else pad ++ s
  | [] => pad
  end.

(** [LINK_HTML.format(url=url)] *)
Definition LINK_HTML (url : str) : str :=
  py "<a href=" ++ [34] ++ url ++ [34] ++ py " target=" ++ [34] ++
  py "_blank" ++ [34] ++ py " style=" ++ [34] ++
  py "display:block;margin-top:6px;color:#10a37f" ++ [34] ++ py ">" ++
  [8594] ++ py " OpenAI " ++ [23448; 26041; 25253; 36947] ++ py "</a>".

(** The fixed title block of the output. *)
Definition timeline_title : text_block := {|
  headline := py "OpenAI " ++ [21457; 23637; 21382; 31243];
  body := [20135; 21697; 21457; 24067; 32; 183; 32; 34701; 36164; 36718;
           27425; 32; 183; 32; 21830; 19994; 21512; 20316]
|}.

(** Comparison of two sort keys, as tuples compare. *)
Definition key_lt (a b : Z * Z * Z) : bool :=
  let '(y1, m1, d1) := a in
  let '(y2, m2, d2) := b in
  if negb (y1 =? y2)%Z then (y1 <? y2)%Z
  else if negb (m1 =? m2)%Z then (m1 <? m2)%Z
  else (d1 <? d2)%Z.

(** [list.sort(key=...)] on the list of (key, item) pairs: a stable sort
    that only asks whether one key is less than another. An item goes
    before the first one that is not less than it. *)
Fixpoint insert_keyed {A} (x : Z * Z * Z * A) (l : list (Z * Z * Z * A))
  : list (Z * Z * Z * A) :=
  match l with
  | [] => [x]
  | y :: l' => if key_lt (fst y) (fst x) then y :: insert_keyed x l'
               else x :: l
  end.

Definition sort_keyed {A} (l : list (Z * Z * Z * A)) : list (Z * Z * Z * A) :=
  foldr insert_keyed [] l.

Section Merge.
Context {U : Unicode}.

(** [__debug__]: false when the interpreter runs with [-O]. *)
Variable __debug__ : bool.

(** [os.path.abspath] *)
Variable abspath : string -> string.

Definition _parse_date (date_str : str) : option dict :=
  if negb (truthy date_str) then None else
  match re_match iso_date_re date_str with
  | Some m =>
      let result : dict := {[ "year" := group m 1; "month" := group m 2 ]} in
      Some (if bool_decide (group m 3 ≠ py "01")
            then <["day" := group m 3]> result else result)
  | None =>
      match re_match named_date_re date_str with
      | Some m2 =>
          match month_map !! lower (group m2 1) with
          | Some mon =>
              if truthy mon then
                Some {[ "year" := group m2 3; "month" := mon;
                        "day" := zfill 2 (group m2 2) ]}
              else None
          | None => None
          end
      | None => None
      end
  end.

(** [int(sd.get(k, 0))] *)
Definition int_field (sd : dict) (k : string) : option Z :=
  match sd !! k with
  | Some s => int_of_str s
  | None => Some 0%Z
  end.

(** [_sort_key]; [None] when an [int] raises. An event always has its
    [start_date], so the default of [event.get("start_date", {})] is never
    taken. *)
Definition _sort_key (e : event) : option (Z * Z * Z) :=
  let sd := ev_start_date e in
  match int_field sd "year", int_field sd "month", int_field sd "day" with
  | Some y, Some m, Some d => Some (y, m, d)
  | _, _, _ => None
  end.

(** [events.sort(key=_sort_key)]: the keys of all events are computed
    first. *)
Definition sort_events (events : list event) : M (list event) :=
  match mapM (fun e => k ← _sort_key e; Some (k, e)) events with
  | Some keyed => ret (snd <$> sort_keyed keyed)
  | None => raise ValueError
  end.

(** The event of an article whose date parsed to [start_date]. *)
Definition make_event (art : dict) (start_date : dict) : event :=
  let url      := get art "url" [] in
  let headline := or_else (member art "headline_zh") (get art "title" []) in
  let summary  := get art "summary_zh" [] in
  let category := get art "category" cat_product in
  let link     := if truthy url then LINK_HTML url else [] in
  let body     := if truthy summary then summary ++ link else link in
  {| ev_start_date := start_date;
     ev_text := TextBlock headline body;
     ev_group := category |}.

(** The body of the loop over the articles of one phase file. *)
Definition merge_article (art : dict) (events : list event)
  : M (list event) :=
  match _parse_date (get art "date_str" []) with
  | None => print (SkipNoDate (get art "title" [])) ;; ret events
  | Some start_date =>
      if bool_decide (start_date = ∅)
      then print (SkipNoDate (get art "title" [])) ;; ret events
      else ret (events ++ [make_event art start_date])
  end.

(** The body of the loop over the phase numbers. *)
Definition merge_phase (P : paths) (n : nat) (events : list event)
  : M (list event) :=
  let p := phase_path P n in
  ex <- path_exists p ;;
  if negb ex then print (PhaseMissing p) ;; ret events else
  data <- load_json p ;;
  match data with
  | JTimeline _ => print (PhaseRead n 2) ;; raise AttributeError
  | JArticles articles =>
      print (PhaseRead n (length articles)) ;;
      for_each articles merge_article events
  end.

Definition cmd_merge (P : paths) : M unit :=
  print Rule ;; print MergeBanner ;; print Rule ;;
  py_assert __debug__
    (bool_decide (abspath (OUTPUT_PATH P) ≠ abspath (ORIGINAL_PATH P))) ;;
  events <- for_each [1; 2; 3; 4]%nat (merge_phase P) [] ;;
  events <- sort_events events ;;
  let output := Timeline timeline_title events in
  ex <- path_exists (OUTPUT_PATH P) ;;
  (if ex : bool then print (WillOverwrite (OUTPUT_PATH P)) else ret tt) ;;
  save_json (OUTPUT_PATH P) (JTimeline output) ;;
  print (EventsWritten (length events)).
End Merge.

(** ** Vocabulary of the properties *)

(** [kw] occurs in [text]: some substring of [text] is [kw]. *)
Definition occurs (kw text : str) : Prop :=
  exists before after, text = before ++ kw ++ after.

(** The rule with these keywords applies to the text. *)
Definition rule_applies (keywords : list str) (text : str) : Prop :=
  exists kw, kw ∈ keywords /\ occurs kw text.

(** [category] is the category of the first rule of [rules] that applies. *)
Definition first_rule (rules : list (str * list str)) (text category : str)
  : Prop :=
  exists i keywords,
    rules !! i = Some (category, keywords) /\
    rule_applies keywords text /\
    forall j rule, (j < i)%nat -> rules !! j = Some rule ->
                   ~ rule_applies (snd rule) text.

(** The names of the months, in order. *)
Definition month_names : list string := [
  "january"; "february"; "march"; "april"; "may"; "june"; "july";
  "august"; "september"; "october"; "november"; "december"
]%string.

(** The number [n] in two digits. *)
Definition two_digits (n : nat) : str := zfill 2 (py (format_nat n)).

(** One sort key is at most another: the order of the tuples
    (year, month, day). *)
Definition key_le (a b : Z * Z * Z) : Prop :=
  let '(y1, m1, d1) := a in
  let '(y2, m2, d2) := b in
  (y1 < y2 \/ (y1 = y2 /\ (m1 < m2 \/ (m1 = m2 /\ d1 <= d2))))%Z.

Section MergeOutput.
Context {U : Unicode}.

(** The event the merge makes of an article; [None] when its date does not
    parse. *)
Definition article_event (art : dict) : option event :=
  match _parse_date (get art "date_str" []) with
  | Some start_date =>
      if bool_decide (start_date = ∅) then None
      else Some (make_event art start_date)
  | None => None
  end.

(** The articles of phase file [n]; none when the file is missing. *)
Definition phase_articles (P : paths) (fs : gmap string json_data) (n : nat)
  : list dict :=
  match fs !! phase_path P n with
  | Some (JArticles arts) => arts
  | _ => []
  end.

(** The articles of the four phase files, in the order the merge reads
    them. *)
Definition merged_articles (P : paths) (fs : gmap string json_data)
  : list dict :=
  phase_articles P fs 1 ++ phase_articles P fs 2 ++
  phase_articles P fs 3 ++ phase_articles P fs 4.

(** The events with their sort keys. *)
Definition keyed_events (events : list event) : list (Z * Z * Z * event) :=
  omap (fun e => k ← _sort_key e; Some (k, e)) events.

(** The events the merge writes, from the articles it reads. *)
Definition merge_output (arts : list dict) : list event :=
  snd <$> sort_keyed (keyed_events (omap article_event arts)).

(** No phase file holds a timeline document in place of a list of
    articles. *)
Definition phase_files_ok (P : paths) (fs : gmap string json_data) : Prop :=
  forall n doc, fs !! phase_path P n ≠ Some (JTimeline doc).
End MergeOutput.

(** The call returns: it does not raise. *)
Definition returns {A} (r : result A) : Prop := exists a, r = Ok a.

(** The three page readers return on every page. *)
Definition readers_return
    (_next_data_articles : str -> result (option (list dict)))
    (_html_articles : str -> result (list dict))
    (_next_page : str -> str -> result (option str)) : Prop :=
  (forall html, returns (_next_data_articles html)) /\
  (forall html, returns (_html_articles html)) /\
  (forall html url, returns (_next_page html url)).

(** What [cmd_fetch] keeps true of [all_articles] and [seen]: no two records
    share a key, every key of a record is in [seen], and the empty key is
    neither the key of a record nor in [seen]. *)
Definition dedup_inv (all : list dict) (sn : gset str) : Prop :=
  NoDup (article_key <$> all) /\
  (forall art, art ∈ all -> article_key art ∈ sn) /\
  [] ∉ sn.

Section PhaseOutput.
Context {U : Unicode}.
Variable strip_fences : str -> str.
Variable json_loads : str -> option json_value.

(** The answer to the [i]-th request to come. *)
Definition answer (answers : list (option str)) (i : nat) : option str :=
  default None (answers !! i).

(** The object a translation request yields; [None] when the translation
    fails: the request raises, the content is no JSON, or it is no object. *)
Definition reply_object (r : option str) : option dict :=
  match r with
  | Some raw =>
      match json_loads (strip_fences raw) with
      | Some (JObject result) => Some result
      | _ => None
      end
  | None => None
  end.

(** The article once the translation loop has passed it. *)
Definition translated (art : dict) (r : option str) : dict :=
  match reply_object r with
  | Some result =>
      <["summary_zh" := get result "summary" []]>
        (<["headline_zh" := get result "headline" (get art "title" [])]> art)
  | None =>
      <["summary_zh" := []]> (<["headline_zh" := get art "title" []]> art)
  end.

(** The article with its category, when a rule applies to it. *)
Definition categorized (art : dict) : option dict :=
  match classify_article (get art "title" []) (get art "url" []) with
  | Some cat => if truthy cat then Some (<["category" := cat]> art) else None
  | None => None
  end.

(** The list a phase writes, from the raw articles and the answers of the
    translation service. *)
Definition phase_output (year_from year_to : Z) (all : list dict)
    (answers : list (option str)) : list dict :=
  imap (fun i art => translated art (answer answers i))
       (omap categorized
          (List.filter (in_year_range year_from year_to) all)).
End PhaseOutput.

Section YearTokens.
Context {U : Unicode}.

(** The match of the year pattern at a cursor, read off directly: the two
    digits after "20". *)
Definition year_here (sn rs : str) : option (N * N) :=
  match rs with
  | c1 :: c2 :: c3 :: c4 :: rest =>
      if at_boundary (Cursor sn rs) && (50 =? c1) && (48 =? c2)
         && is_digit c3 && is_digit c4
         && at_boundary (Cursor (c4 :: c3 :: c2 :: c1 :: sn) rest)
      then Some (c3, c4) else None
  | _ => None
  end.

(** A word boundary between two pieces of a string. *)
Definition word_boundary (before after : str) : bool :=
  xorb (match after with c :: _ => is_word c | [] => false end)
       (match last before with Some c => is_word c | None => false end).

(** A year-like token stands at index [i] of [s] and reads [y]: the four
    characters "20dd", [d] a decimal digit, with a word boundary on each
    side. *)
Definition year_token (s : str) (i : nat) (y : Z) : Prop :=
  exists c3 c4 d3 d4 after,
    drop i s = [50; 48; c3; c4] ++ after /\
    decimal c3 = Some d3 /\ decimal c4 = Some d4 /\
    word_boundary (take i s) (drop i s) = true /\
    word_boundary (take i s ++ [50; 48; c3; c4]) after = true /\
    y = (2000 + 10 * Z.of_N d3 + Z.of_N d4)%Z.

(** [y] is the first year-like token of [s]. *)
Definition first_year_token (s : str) (y : Z) : Prop :=
  exists i, year_token s i y /\
            forall j y', (j < i)%nat -> ~ year_token s j y'.

End YearTokens.

(** ** Sample inputs *)

(** Two phase files, the later event in phase 1 and the earlier in phase 2. *)
Definition two_phase_world : world :=
  World
    {[ "/repo/scripts/phase1.json"%string :=
         JArticles [ {[ "title" := py "OpenAI API";
                        "date_str" := py "2020-01-15"; "category" := cat_product ]} ];
       "/repo/scripts/phase2.json"%string :=
         JArticles [ {[ "title" := py "OpenAI raises funding";
                        "date_str" := py "2019-12-01"; "category" := cat_funding ]} ] ]}
    ∅ [] [] [].



(** ** Vocabulary of the further properties *)

(** The keys of a list of records, as a set. *)
Definition keys_of (all : list dict) : gset str :=
  list_to_set (article_key <$> all).

(** The categories of [CATEGORY_RULES], in the order of the rules. *)
Definition categories : list str := fst <$> CATEGORY_RULES.

(** The number a string of decimal digits stands for, read from the left
    with [acc] the value of the digits already read. *)
Fixpoint nat_of_digits (s : string) (acc : nat) : nat :=
  match s with
  | EmptyString => acc
  | String c s' => nat_of_digits s' (10 * acc + (nat_of_ascii c - 48))
  end.

(** The pages answered before the first request that fails. *)
Fixpoint answered (answers : list (option str)) : list str :=
  match answers with
  | Some html :: answers' => html :: answered answers'
  | _ => []
  end.

Section PageRecords.
Context {U : Unicode}.
Variable _next_data_articles : str -> result (option (list dict)).
Variable _html_articles : str -> result (list dict).

(** The records [cmd_fetch] takes from a page: those of the embedded
    payload, normalised, when it has some, those of the markup otherwise;
    the exception of the reader that raises. *)
Definition page_records (html : str) : result (list dict) :=
  match _next_data_articles html with
  | Ok (Some (r :: raw_list)) => Ok (_normalize <$> (r :: raw_list))
  | Ok _ => _html_articles html
  | Raise e => Raise e
  end.

(** The records of a page that was read; none for one whose reader
    raised. *)
Definition records_read (html : str) : list dict :=
  match page_records html with
  | Ok page_articles => page_articles
  | Raise _ => []
  end.
End PageRecords.

(** ** The link to the next page *)

(** ["{}".format(z)] for an integer; [None] is the [ValueError] of an
    integer of more than [INT_MAX_STR_DIGITS] digits. *)
Definition format_int (z : Z) : option str :=
  if (10 ^ Z.of_N INT_MAX_STR_DIGITS <=? Z.abs z)%Z then None
  else Some (if (z <? 0)%Z then py "-" ++ py (format_nat (Z.to_nat (- z)))
             else py (format_nat (Z.to_nat z))).

Section NextPage.
Context {U : Unicode}.

(** [page=(\d+)] *)
Definition page_re : regex :=
  RSeq (lit (py "page=")) (RGroup 1 (RRep is_digit 1 None)).

(** [page=\d+] *)
Definition page_number_re : regex :=
  RSeq (lit (py "page=")) (RRep is_digit 1 None).

(** Where a match of [r] that starts at the cursor ends. *)
Definition match_end (r : regex) (cur : cursor) : option cursor :=
  m ← run r cur []
        (fun cur' _ => Some [(0%nat, passed cur'); (1%nat, ahead cur')]);
  Some (Cursor (group m 0) (group m 1)).

(** [re.sub(r, repl, s)] from a cursor on, for a pattern that matches no
    empty string and a replacement without escapes: from left to right,
    each match found is replaced and the scan goes on behind it. A turn
    takes at least one code point, so a turn count above the number of code
    points ahead is never used up. *)
Fixpoint sub_from (turns : nat) (r : regex) (repl : str) (cur : cursor)
  : str :=
  match turns with
  | O => ahead cur
  | S turns' =>
      match match_end r cur with
      | Some cur' => repl ++ sub_from turns' r repl cur'
      | None =>
          match ahead cur with
          | [] => []
          | c :: rs =>
              c :: sub_from turns' r repl (Cursor (c :: passed cur) rs)
          end
      end
  end.

Definition re_sub (r : regex) (repl s : str) : str :=
  sub_from (S (length s)) r repl (Cursor [] s).

(** The markup is read by [BeautifulSoup]; the model takes what it finds:
    the [href] of the anchor [el] that the two [soup.find] calls give,
    [None] when they give no anchor or the anchor has no [href]. *)
Variable next_href : str -> option str.

(** The second half of [_next_page]: the page number of the address, one
    up. [int] and the formatting of the number raise [ValueError] on a
    number of too many digits. *)
Definition next_page_number (current_url : str) : result (option str) :=
  if contains (py "page=") current_url then
    match re_search page_re current_url with
    | Some m =>
        match int_of_str (group m 1) with
        | Some n =>
            match format_int (n + 1) with
            | Some number =>
                Ok (Some (re_sub page_number_re (py "page=" ++ number)
                            current_url))
            | None => Raise ValueError
            end
        | None => Raise ValueError
        end
    | None => Ok None
    end
  else Ok None.

Definition _next_page (html current_url : str) : result (option str) :=
  match next_href html with
  | Some href =>
      if truthy href then
        Ok (Some (if startswith (py "/") href then BASE_URL ++ href else href))
      else next_page_number current_url
  | None => next_page_number current_url
  end.
End NextPage.
(** * Properties *)

(** ** The code on a few inputs *)

Example classify_article_examples `{U : Unicode} :
  classify_article (py "Introducing ChatGPT")
    (py "https://openai.com/index/chatgpt/") = Some cat_product /\
  classify_article (py "OpenAI and Microsoft extend partnership") []
    = Some cat_partnership /\
  classify_article (py "Our approach to AI safety") [] = Some cat_policy /\
  classify_article (py "Happy holidays") [] = None.
Proof. vm_compute. repeat split; reflexivity. Qed.

Example year_of_examples `{U : Unicode} :
  year_of (py "2023-01-15") = Some 2023%Z /\
  year_of (py "January 15, 2023") = Some 2023%Z /\
  year_of (py "1999, then 2016.") = Some 2016%Z /\
  year_of (py "x2020") = None /\
  year_of [] = None.
Proof. vm_compute. repeat split; reflexivity. Qed.

Example re_match_examples `{U : Unicode} :
  re_match named_date_re (py "May 17, 2023")
  = Some [(3%nat, py "2023"); (2%nat, py "17"); (1%nat, py "May")] /\
  re_match named_date_re (py "Sept 5 2021")
  = Some [(3%nat, py "2021"); (2%nat, py "5"); (1%nat, py "Sept")] /\
  re_match named_date_re (py "not a date") = None /\
  re_match iso_date_re (py " 2023-05-17") = None.
Proof. vm_compute. repeat split; reflexivity. Qed.

Example int_of_str_examples `{U : Unicode} :
  int_of_str (py "2023") = Some 2023%Z /\
  int_of_str (py "05") = Some 5%Z /\
  int_of_str (py " -1_000 ") = Some (-1000)%Z /\
  int_of_str (py "1__0") = None /\
  int_of_str [] = None /\
  int_of_str (28 :: py "5") = None /\
  strip (28 :: py "5") = py "5" /\
  is_Some (int_of_str (replicate (N.to_nat 4300) 57)) /\
  int_of_str (replicate (N.to_nat 4301) 57) = None.
Proof.
  vm_compute. repeat split; try reflexivity. by eexists.
Qed.

(** Events with equal keys keep the order they came in. *)
Example sort_keyed_stable :
  sort_keyed [((2020, 1, 0), 1%nat); ((2019, 12, 0), 2%nat);
              ((2020, 1, 0), 3%nat); ((2019, 12, 0), 4%nat)]%Z
  = [((2019, 12, 0), 2%nat); ((2019, 12, 0), 4%nat);
     ((2020, 1, 0), 1%nat); ((2020, 1, 0), 3%nat)]%Z.
Proof. reflexivity. Qed.

(** ** Text *)

Lemma startswith_spec p s :
  startswith p s = true <-> exists t, s = p ++ t.
Proof.
  revert s. induction p as [|a p IH]; intros s; simpl.
  - split; [intros _; by exists s | done].
  - destruct s as [|b s].
    + split; [done | intros [t Ht]; discriminate Ht].
    + rewrite andb_true_iff, N.eqb_eq, IH. split.
      * intros [-> [t ->]]. by exists t.
      * intros [t Ht]. injection Ht as -> ->. split; [done | by exists t].
Qed.

Lemma contains_spec kw text :
  contains kw text = true <-> occurs kw text.
Proof.
  unfold occurs. induction text as [|c text IH].
  - simpl. rewrite orb_false_r, startswith_spec. split.
    + intros [t Ht]. exists [], t. done.
    + intros (b & a & Hba). destruct b; [by exists a | discriminate Hba].
  - cbn [contains]. rewrite orb_true_iff, startswith_spec, IH. split.
    + intros [[t Ht] | (b & a & Hba)].
      * exists [], t. done.
      * exists (c :: b), a. by rewrite Hba.
    + intros (b & a & Hba). destruct b as [|c' b].
      * left. by exists a.
      * right. injection Hba as -> ->. by exists b, a.
Qed.

(** ** Classification *)

Lemma rule_matches_spec keywords text :
  rule_matches keywords text = true <-> rule_applies keywords text.
Proof.
  unfold rule_matches, rule_applies. rewrite existsb_exists. split.
  - intros (kw & Hin & Hc). exists kw. split.
    + by apply list_elem_of_In.
    + by apply contains_spec.
  - intros (kw & Hin & Hc). exists kw. split.
    + by apply list_elem_of_In.
    + by apply contains_spec.
Qed.

Lemma classify_text_Some rules text category :
  classify_text rules text = Some category <-> first_rule rules text category.
Proof.
  induction rules as [|[c kws] rules IH]; simpl.
  - split; [done | intros (i & k & Hi & _); by destruct i].
  - destruct (rule_matches kws text) eqn:Hm.
    + split.
      * intros [= ->]. exists 0%nat, kws. split; [done|]. split.
        -- by apply rule_matches_spec.
        -- intros j rule Hj. lia.
      * intros (i & k & Hi & Hk & Hfirst). destruct i as [|i].
        -- by injection Hi as -> ->.
        -- exfalso. apply (Hfirst 0%nat (c, kws)); [lia | done |].
           by apply rule_matches_spec.
    + rewrite IH. split.
      * intros (i & k & Hi & Hk & Hfirst). exists (S i), k.
        split; [done|]. split; [done|].
        intros [|j] rule Hj Hrule.
        -- injection Hrule as <-. simpl. rewrite <- rule_matches_spec.
           by rewrite Hm.
        -- apply (Hfirst j); [lia | done].
      * intros (i & k & Hi & Hk & Hfirst). destruct i as [|i].
        -- injection Hi as -> ->. apply rule_matches_spec in Hk. congruence.
        -- exists i, k. split; [done|]. split; [done|].
           intros j rule Hj Hrule. apply (Hfirst (S j)); [lia | done].
Qed.

Lemma classify_text_None rules text :
  classify_text rules text = None <->
  forall rule, rule ∈ rules -> ~ rule_applies (snd rule) text.
Proof.
  induction rules as [|[c kws] rules IH]; simpl.
  - split; [intros _ rule Hin; by apply elem_of_nil in Hin | done].
  - destruct (rule_matches kws text) eqn:Hm.
    + split; [done|]. intros Hall. exfalso.
      apply (Hall (c, kws)); [apply list_elem_of_here|].
      by apply rule_matches_spec.
    + rewrite IH. split.
      * intros Hall rule [->|Hin]%elem_of_cons; [|by apply Hall].
        simpl. rewrite <- rule_matches_spec. by rewrite Hm.
      * intros Hall rule Hin. apply Hall. by apply list_elem_of_further.
Qed.

(** C1 (as amended). For every title and url, [classify_article] returns the
    category of the first rule, in the order of [CATEGORY_RULES], one keyword
    of which occurs in the lower-cased text [title + " " + url] (the two are
    joined by one space); it returns no category exactly when no rule
    applies; and a text in which both "funding" and "chatgpt" occur is
    classified as the funding category, whose rule comes first. *)
Theorem classify_article_first_rule `{U : Unicode} (title url : str) :
  let text := lower (title ++ py " " ++ url) in
  (forall category,
      classify_article title url = Some category <->
      first_rule CATEGORY_RULES text category) /\
  (classify_article title url = None <->
   forall rule, rule ∈ CATEGORY_RULES -> ~ rule_applies (snd rule) text) /\
  (occurs (py "funding") text -> occurs (py "chatgpt") text ->
   classify_article title url = Some cat_funding).
Proof.
  intros text. split; [|split].
  - intros category. apply classify_text_Some.
  - apply classify_text_None.
  - intros Hf _. unfold classify_article, article_text. fold text.
    apply contains_spec in Hf.
    unfold CATEGORY_RULES. cbn [classify_text].
    replace (rule_matches _ text) with true; [done|].
    symmetry. unfold rule_matches.
    cbn [fmap list_fmap existsb]. by rewrite Hf.
Qed.

(** A headline that names both a funding round and ChatGPT is filed under
    funding. *)
Lemma classify_article_first_rule_witness :
  @classify_article ascii_only (py "ChatGPT maker closes funding round") []
  = Some cat_funding.
Proof.
  apply (proj2 (proj2 (@classify_article_first_rule ascii_only
           (py "ChatGPT maker closes funding round") []))).
  - exists (py "chatgpt maker closes "), (py " round "). reflexivity.
  - exists [], (py " maker closes funding round "). reflexivity.
Defined.

(** C1 (as stated) fails: the text under test is not the plain
    concatenation of title and url. For the article "OpenAI o1" the code
    answers the product category, through the keyword "o1 " that ends at the
    separating space, while no keyword of any rule occurs in the lower-cased
    concatenation of its title and url. *)
Lemma classify_article_not_plain_concatenation :
  (forall U : Unicode,
      @classify_article U (py "OpenAI o1")
        (py "https://openai.com/index/openai-o1/") = Some cat_product) /\
  (forall (U : Unicode) category,
      ~ first_rule CATEGORY_RULES
          (@lower U (py "OpenAI o1" ++ py "https://openai.com/index/openai-o1/"))
          category).
Proof.
  split.
  - intros U. vm_compute. reflexivity.
  - intros U category H. apply classify_text_Some in H.
    vm_compute in H. discriminate H.
Qed.

(** ** Dates *)

Section DateFacts.
Context {U : Unicode}.

Lemma is_digit_decimal c : is_digit c = true <-> is_Some (decimal c).
Proof.
  unfold is_digit. destruct (decimal c) as [d|]; split; intros H;
    try done; try (by eexists).
Qed.

Lemma is_digit_not_space c : is_digit c = true -> is_space c = false.
Proof.
  rewrite is_digit_decimal. unfold decimal, is_space.
  destruct (is_ascii c) eqn:Ha.
  - unfold ascii_digit, ascii_space.
    destruct (48 <=? c) eqn:H1, (c <=? 57) eqn:H2; simpl;
      try (intros [x Hx]; discriminate Hx).
    intros _. apply N.leb_le in H1, H2.
    apply orb_false_iff. split; apply andb_false_iff.
    + right. apply N.leb_gt. lia.
    + right. apply N.leb_gt. lia.
  - apply uni_decimal_not_space.
Qed.

Lemma rep_done p sn rs g k :
  rep p 0 (Some 0%nat) sn rs g k = k (Cursor sn rs) g.
Proof. by destruct rs. Qed.

(** The match of the numeric pattern on a string that starts with four
    digits, a hyphen, two digits, a hyphen and two digits. *)
Lemma iso_date_match y1 y2 y3 y4 m1 m2 d1 d2 rest :
  Forall (fun c => is_digit c = true) [y1; y2; y3; y4; m1; m2; d1; d2] ->
  re_match iso_date_re ([y1; y2; y3; y4; 45; m1; m2; 45; d1; d2] ++ rest)
  = Some [(3%nat, [d1; d2]); (2%nat, [m1; m2]); (1%nat, [y1; y2; y3; y4])].
Proof.
  intros H. repeat (apply Forall_cons in H as [? H]).
  unfold re_match, iso_date_re.
  repeat (cbn -[is_digit];
          repeat match goal with
                 | E : is_digit ?c = true |- context [is_digit ?c] =>
                     rewrite E
                 end).
  rewrite rep_done. reflexivity.
Qed.
End DateFacts.

(** ** [int] on a run of digits *)

Section IntFacts.
Context {U : Unicode}.

Lemma is_digit_not_int_space c : is_digit c = true -> int_space c = false.
Proof.
  intros H. pose proof (is_digit_not_space c H) as Hs.
  unfold int_space, is_space in *. destruct (is_ascii c); [|done].
  unfold ascii_space in Hs. apply orb_false_iff in Hs as [H1 H2].
  rewrite H1. cbn [orb].
  destruct (N.eqb_spec c 32) as [->|]; [done | done].
Qed.

Lemma digit_not_sign c :
  is_digit c = true -> (c =? 43) = false /\ (c =? 45) = false.
Proof.
  intros H. split.
  - destruct (N.eqb_spec c 43) as [->|]; [|done]. vm_compute in H. done.
  - destruct (N.eqb_spec c 45) as [->|]; [|done]. vm_compute in H. done.
Qed.

Lemma int_lstrip_digit c s :
  is_digit c = true -> int_lstrip (c :: s) = c :: s.
Proof. intros H. cbn [int_lstrip]. by rewrite is_digit_not_int_space. Qed.

Lemma int_strip_digits s :
  Forall (fun c => is_digit c = true) s -> int_strip s = s.
Proof.
  intros H. unfold int_strip. destruct s as [|c s]; [done|].
  rewrite int_lstrip_digit by (by inversion H).
  destruct (reverse (c :: s)) as [|d r] eqn:Hr.
  - apply (f_equal reverse) in Hr. by rewrite reverse_involutive in Hr.
  - rewrite int_lstrip_digit.
    + by rewrite <- Hr, reverse_involutive.
    + rewrite Forall_forall in H. apply H.
      apply elem_of_reverse. rewrite Hr. apply list_elem_of_here.
Qed.

Lemma digit_count_digits s :
  Forall (fun c => is_digit c = true) s -> digit_count s = N.of_nat (length s).
Proof.
  intros H. unfold digit_count. f_equal. f_equal.
  induction H as [|c s Hc _ IH]; [done|].
  rewrite filter_cons, decide_True by done. by rewrite IH.
Qed.

(** On a run of digits [int] reads the digits, when they are not more than
    the interpreter allows. *)
Lemma int_of_digits s :
  Forall (fun c => is_digit c = true) s -> s ≠ [] ->
  N.of_nat (length s) <= INT_MAX_STR_DIGITS ->
  int_of_str s = digits_value 0 false s.
Proof.
  intros H Hne Hlen. unfold int_of_str. rewrite int_strip_digits by done.
  destruct s as [|c s]; [done|].
  destruct (digit_not_sign c) as [-> ->]; [by inversion H|]. cbn [orb].
  rewrite digit_count_digits by done.
  by rewrite (proj2 (N.ltb_ge _ _)) by done.
Qed.

(** On a longer run of digits [int] raises. *)
Lemma int_of_long s :
  Forall (fun c => is_digit c = true) s ->
  INT_MAX_STR_DIGITS < N.of_nat (length s) ->
  int_of_str s = None.
Proof.
  intros H Hlen. unfold int_of_str. rewrite int_strip_digits by done.
  destruct s as [|c s]; [done|].
  destruct (digit_not_sign c) as [-> ->]; [by inversion H|]. cbn [orb].
  rewrite digit_count_digits by done.
  by rewrite (proj2 (N.ltb_lt _ _)) by done.
Qed.

(** A run of at most four digits is within the limit. *)
Lemma short_run (s : str) :
  (length s <= 4)%nat -> N.of_nat (length s) <= INT_MAX_STR_DIGITS.
Proof. unfold INT_MAX_STR_DIGITS. lia. Qed.
End IntFacts.

Section ParseDate.
Context {U : Unicode}.

(** In the month-name branch the result has a day. *)
Lemma parse_date_named_has_day s d :
  re_match iso_date_re s = None -> _parse_date s = Some d ->
  is_Some (d !! "day").
Proof.
  intros Hiso. unfold _parse_date. rewrite Hiso.
  destruct (negb (truthy s)); [done|].
  destruct (re_match named_date_re s) as [m2|]; [|done].
  destruct (month_map !! lower (group m2 1)) as [mon|]; [|done].
  destruct (truthy mon); [|done].
  intros [= <-]. eexists.
  rewrite lookup_insert_ne by done. rewrite lookup_insert_ne by done.
  apply lookup_singleton_eq.
Qed.

Lemma parse_date_iso s m :
  truthy s = true -> re_match iso_date_re s = Some m ->
  _parse_date s =
  Some (if bool_decide (group m 3 ≠ py "01")
        then <["day" := group m 3]>
               {[ "year" := group m 1; "month" := group m 2 ]}
        else {[ "year" := group m 1; "month" := group m 2 ]}).
Proof. intros Ht Hm. unfold _parse_date. by rewrite Ht, Hm. Qed.

Lemma parse_date_named s m2 mon :
  truthy s = true -> re_match iso_date_re s = None ->
  re_match named_date_re s = Some m2 ->
  month_map !! lower (group m2 1) = Some mon -> truthy mon = true ->
  _parse_date s =
  Some {[ "year" := group m2 3; "month" := mon;
          "day" := zfill 2 (group m2 2) ]}.
Proof.
  intros Ht Hiso Hm Hmon Htm. unfold _parse_date.
  by rewrite Ht, Hiso, Hm, Hmon, Htm.
Qed.

Lemma parse_date_unmatched s :
  re_match iso_date_re s = None -> re_match named_date_re s = None ->
  _parse_date s = None.
Proof.
  intros Hiso Hm. unfold _parse_date. rewrite Hiso, Hm.
  by destruct (negb (truthy s)).
Qed.

(** A date with its day, whichever member was set last. *)
Lemma date_with_day (y m d : str) :
  <["day" := d]> ({[ "year" := y; "month" := m ]} : dict)
  = {[ "year" := y; "month" := m; "day" := d ]}.
Proof.
  apply map_eq. intros k.
  destruct (decide (k = "day"%string)) as [->|];
    [|destruct (decide (k = "year"%string)) as [->|];
      [|destruct (decide (k = "month"%string)) as [->|]]];
    by simplify_map_eq.
Qed.

Lemma merge_article_unparsed art events w :
  _parse_date (get art "date_str" []) = None ->
  merge_article art events w =
  (Ok events,
   World (files w) (environ w) (remote w)
     (SkipNoDate (get art "title" []) :: console w) (fs_log w)).
Proof. intros H. unfold merge_article. rewrite H. reflexivity. Qed.
End ParseDate.

(** C2. The date parser of the merge: "2023-05-01" gives year "2023" and
    month "05" with no day, the day being 01; "2023-05-17" gives year, month
    and day "17"; "May 17, 2023" gives year "2023", month "05", day "17"
    through the month-name table, which has every full name and every
    three-letter abbreviation, and a date found in that branch always has
    its day; "not a date" does not parse, and an article with that date
    adds no event to the merge. *)
Theorem parse_date_examples `{U : Unicode} :
  _parse_date (py "2023-05-01")
    = Some {[ "year" := py "2023"; "month" := py "05" ]} /\
  _parse_date (py "2023-05-17")
    = Some {[ "year" := py "2023"; "month" := py "05"; "day" := py "17" ]} /\
  _parse_date (py "May 17, 2023")
    = Some {[ "year" := py "2023"; "month" := py "05"; "day" := py "17" ]} /\
  (forall i name, month_names !! i = Some name ->
     month_map !! py name = Some (two_digits (S i)) /\
     month_map !! py (String.substring 0 3 name) = Some (two_digits (S i))) /\
  (forall s d, re_match iso_date_re s = None -> _parse_date s = Some d ->
     is_Some (d !! "day")) /\
  _parse_date (py "not a date") = None /\
  (forall art events w,
     get art "date_str" [] = py "not a date" ->
     fst (merge_article art events w) = Ok events).
Proof.
  split; [|split; [|split; [|split; [|split; [|split]]]]].
  - by rewrite (parse_date_iso _
        [(3%nat, py "01"); (2%nat, py "05"); (1%nat, py "2023")])
      by (vm_compute; reflexivity).
  - rewrite (parse_date_iso _
        [(3%nat, py "17"); (2%nat, py "05"); (1%nat, py "2023")])
      by (vm_compute; reflexivity).
    f_equal; try apply date_with_day.
  - by rewrite (parse_date_named _
        [(3%nat, py "2023"); (2%nat, py "17"); (1%nat, py "May")] (py "05"))
      by (vm_compute; reflexivity).
  - intros i name H.
    do 12 (destruct i as [|i];
           [injection H as <-; split; vm_compute; reflexivity|]).
    discriminate H.
  - apply parse_date_named_has_day.
  - apply parse_date_unmatched; vm_compute; reflexivity.
  - intros art events w Hd. rewrite merge_article_unparsed; [done|].
    rewrite Hd. apply parse_date_unmatched; vm_compute; reflexivity.
Qed.

(** An article dated "not a date" leaves the list of events as it was. *)
Lemma parse_date_examples_witness :
  fst (@merge_article ascii_only {[ "title" := py "Untitled"; "date_str" := py "not a date" ]}
         [] (World ∅ ∅ [] [] []))
  = Ok [].
Proof.
  apply (proj2 (proj2 (proj2 (proj2 (proj2 (proj2
           (@parse_date_examples ascii_only))))))).
  reflexivity.
Defined.

(** C9. The numeric branch of the date parser looks at a prefix only: on a
    string that starts with four digits, a hyphen, two digits, a hyphen and
    two digits, whatever follows, [_parse_date] succeeds with the year, month
    and day of those ten characters (the day left out when it is "01"). *)
Theorem parse_date_iso_prefix `{U : Unicode}
    (y1 y2 y3 y4 m1 m2 d1 d2 : N) (rest : str) :
  Forall (fun c => is_digit c = true) [y1; y2; y3; y4; m1; m2; d1; d2] ->
  _parse_date ([y1; y2; y3; y4; 45; m1; m2; 45; d1; d2] ++ rest)
  = Some (if bool_decide ([d1; d2] ≠ py "01")
          then <["day" := [d1; d2]]>
                 {[ "year" := [y1; y2; y3; y4]; "month" := [m1; m2] ]}
          else {[ "year" := [y1; y2; y3; y4]; "month" := [m1; m2] ]}).
Proof.
  intros H. unfold _parse_date.
  rewrite (iso_date_match _ _ _ _ _ _ _ _ _ H). reflexivity.
Qed.

(** An ISO timestamp parses to the date of its first ten characters. *)
Lemma parse_date_iso_prefix_witness :
  @_parse_date ascii_only (py "2023-05-17T10:00:00Z")
  = Some {[ "year" := py "2023"; "month" := py "05"; "day" := py "17" ]}.
Proof.
  rewrite <- date_with_day.
  exact (@parse_date_iso_prefix ascii_only 50 48 50 51 48 53 49 55
           (py "T10:00:00Z") ltac:(repeat constructor)).
Defined.

Section YearOf.
Context {U : Unicode}.

Lemma ascii_digit_is_digit c : ascii_digit c = true -> is_digit c = true.
Proof.
  intros H. unfold is_digit, decimal. rewrite H.
  unfold ascii_digit in H. apply andb_true_iff in H as [_ H].
  apply N.leb_le in H. unfold is_ascii.
  replace (c <? 128) with true; [done|]. symmetry. apply N.ltb_lt. lia.
Qed.

Lemma between_app sn l a b :
  between (Cursor sn a) (Cursor (l ++ sn) b) = reverse l.
Proof.
  unfold between. cbn [passed]. rewrite length_app.
  replace (length l + length sn - length sn)%nat with (length l) by lia.
  by rewrite take_app_length.
Qed.

Ltac year_step :=
  cbn -[is_digit at_boundary ascii_digit between N.eqb];
  rewrite ?rep_done;
  cbn -[is_digit at_boundary ascii_digit between N.eqb].

Lemma run_year_re sn rs :
  run year_re (Cursor sn rs) [] accept =
  match year_here sn rs with
  | Some (c3, c4) => Some [(1%nat, [50; 48; c3; c4])]
  | None => None
  end.
Proof.
  unfold year_re, year_here.
  change (py "20") with ([50; 48] : str).
  change (py "201") with ([50; 48; 49] : str).
  change (py "200") with ([50; 48; 48] : str).
  destruct rs as [|c1 [|c2 [|c3 [|c4 rest]]]]; year_step;
    repeat match goal with
           | |- context [if ?b then _ else _] => destruct b eqn:?; year_step
           end; try done;
    repeat match goal with
           | H : (_ =? _) = true |- _ => apply N.eqb_eq in H; subst
           end;
    try match goal with
        | H : ascii_digit ?c = true, H' : is_digit ?c = false |- _ =>
            apply ascii_digit_is_digit in H; congruence
        | H : is_digit (N.pos _) = false |- _ =>
            vm_compute in H; discriminate H
        end.
  all: match goal with
       | |- context [between _ (Cursor (?a :: ?b :: ?c :: ?d :: ?sn) _)] =>
           change (a :: b :: c :: d :: sn) with ([a; b; c; d] ++ sn);
           rewrite between_app
       end; try reflexivity.
Qed.

Lemma at_boundary_word before after :
  at_boundary (Cursor (reverse before) after) = word_boundary before after.
Proof.
  unfold at_boundary, word_boundary. cbn [passed ahead].
  rewrite <- head_reverse. by destruct (reverse before).
Qed.

Lemma year_here_spec before rs c3 c4 :
  year_here (reverse before) rs = Some (c3, c4) <->
  exists after,
    rs = 50 :: 48 :: c3 :: c4 :: after /\
    is_digit c3 = true /\ is_digit c4 = true /\
    word_boundary before rs = true /\
    word_boundary (before ++ [50; 48; c3; c4]) after = true.
Proof.
  unfold year_here.
  destruct rs as [|c1 [|c2 [|x3 [|x4 rest]]]];
    try (split; [done | intros (after & Hrs & _); discriminate Hrs]).
  replace (x4 :: x3 :: c2 :: c1 :: reverse before)
    with (reverse (before ++ [c1; c2; x3; x4]))
    by (by rewrite reverse_app).
  rewrite !at_boundary_word.
  destruct (word_boundary before _) eqn:B0; cbn [andb];
    [|split; [done | intros (after & ? & ? & ? & ? & ?);
               simplify_eq; congruence]].
  destruct (50 =? c1) eqn:E1; cbn [andb];
    [apply N.eqb_eq in E1 as <-
    |apply N.eqb_neq in E1;
     split; [done | intros (after & ? & ? & ? & ? & ?);
                    simplify_eq; congruence]].
  destruct (48 =? c2) eqn:E2; cbn [andb];
    [apply N.eqb_eq in E2 as <-
    |apply N.eqb_neq in E2;
     split; [done | intros (after & ? & ? & ? & ? & ?);
                    simplify_eq; congruence]].
  destruct (is_digit x3) eqn:D3; cbn [andb];
    [|split; [done | intros (after & ? & ? & ? & ? & ?);
               simplify_eq; congruence]].
  destruct (is_digit x4) eqn:D4; cbn [andb];
    [|split; [done | intros (after & ? & ? & ? & ? & ?);
               simplify_eq; congruence]].
  destruct (word_boundary (before ++ _) rest) eqn:B4.
  - split.
    + intros [= -> ->]. by exists rest.
    + intros (after & ? & _). by simplify_eq.
  - split; [done|].
    intros (after & ? & ? & ? & ? & ?). simplify_eq. congruence.
Qed.

Lemma year_here_token s i c3 c4 :
  year_here (reverse (take i s)) (drop i s) = Some (c3, c4) <->
  exists d3 d4 after,
    drop i s = [50; 48; c3; c4] ++ after /\
    decimal c3 = Some d3 /\ decimal c4 = Some d4 /\
    word_boundary (take i s) (drop i s) = true /\
    word_boundary (take i s ++ [50; 48; c3; c4]) after = true.
Proof.
  rewrite year_here_spec. split.
  - intros (after & Hd & [d3 H3]%is_digit_decimal & [d4 H4]%is_digit_decimal
            & Hb0 & Hb4).
    by exists d3, d4, after.
  - intros (d3 & d4 & after & Hd & H3 & H4 & Hb0 & Hb4).
    exists after. repeat split; try done; apply is_digit_decimal; by eexists.
Qed.

Lemma int_of_year c3 c4 d3 d4 :
  decimal c3 = Some d3 -> decimal c4 = Some d4 ->
  int_of_str [50; 48; c3; c4]
  = Some (2000 + 10 * Z.of_N d3 + Z.of_N d4)%Z.
Proof.
  intros H3 H4. rewrite int_of_digits.
  - cbn [digits_value].
    change (decimal 50) with (Some 2). change (decimal 48) with (Some 0).
    cbn -[decimal Z.mul Z.add]. rewrite H3, H4. f_equal. lia.
  - repeat constructor; apply is_digit_decimal; by eexists.
  - done.
  - by apply short_run.
Qed.

Lemma search_year rs before m :
  search_from year_re (reverse before) rs = Some m <->
  exists k c3 c4,
    m = [(1%nat, [50; 48; c3; c4])] /\
    year_here (reverse (before ++ take k rs)) (drop k rs) = Some (c3, c4) /\
    forall j, (j < k)%nat ->
              year_here (reverse (before ++ take j rs)) (drop j rs) = None.
Proof.
  revert before. induction rs as [|c rs IH]; intros before.
  - cbn [search_from]. rewrite run_year_re. cbn [year_here]. split; [done|].
    intros (k & c3 & c4 & _ & H & _). by rewrite drop_nil in H.
  - cbn [search_from]. rewrite run_year_re.
    destruct (year_here (reverse before) (c :: rs)) as [[c3 c4]|] eqn:Hh.
    + split.
      * intros [= <-]. exists 0%nat, c3, c4. cbn [take drop].
        rewrite app_nil_r. split; [done|]. split; [done|]. intros j Hj. lia.
      * intros (k & x3 & x4 & -> & Hk & Hfirst). destruct k as [|k].
        -- cbn [take drop] in Hk. rewrite app_nil_r in Hk. congruence.
        -- specialize (Hfirst 0%nat ltac:(lia)). cbn [take drop] in Hfirst.
           rewrite app_nil_r in Hfirst. congruence.
    + replace (c :: reverse before) with (reverse (before ++ [c]))
        by (by rewrite reverse_app).
      rewrite IH. split.
      * intros (k & c3 & c4 & -> & Hk & Hfirst). exists (S k), c3, c4.
        split; [done|]. cbn [take drop]. split.
        -- by rewrite <- app_assoc in Hk.
        -- intros [|j] Hj.
           ++ cbn [take drop]. by rewrite app_nil_r.
           ++ cbn [take drop]. specialize (Hfirst j ltac:(lia)).
              by rewrite <- app_assoc in Hfirst.
      * intros (k & c3 & c4 & -> & Hk & Hfirst). destruct k as [|k].
        -- cbn [take drop] in Hk. rewrite app_nil_r in Hk. congruence.
        -- exists k, c3, c4. split; [done|]. cbn [take drop] in Hk. split.
           ++ by rewrite <- app_assoc.
           ++ intros j Hj. specialize (Hfirst (S j) ltac:(lia)).
              cbn [take drop] in Hfirst. by rewrite <- app_assoc.
Qed.

Lemma search_year_None rs before :
  search_from year_re (reverse before) rs = None ->
  forall k, year_here (reverse (before ++ take k rs)) (drop k rs) = None.
Proof.
  revert before. induction rs as [|c rs IH]; intros before;
    cbn [search_from]; rewrite run_year_re.
  - intros _ k. by rewrite drop_nil.
  - destruct (year_here (reverse before) (c :: rs)) as [[c3 c4]|] eqn:Hh;
      [done|].
    replace (c :: reverse before) with (reverse (before ++ [c]))
      by (by rewrite reverse_app).
    intros Hs [|k]; cbn [take drop].
    + by rewrite app_nil_r.
    + specialize (IH _ Hs k). by rewrite <- app_assoc in IH.
Qed.

(** [year_of] reads the first year-like token of the string. *)
Lemma year_of_spec s y :
  year_of s = Some y <-> first_year_token s y.
Proof.
  unfold year_of, first_year_token, year_token, re_search.
  destruct (truthy s) eqn:Hs.
  2: { split; [done|]. destruct s; [|done].
       intros (i & (c3 & c4 & d3 & d4 & after & Hd & _) & _).
       by rewrite drop_nil in Hd. }
  change (@nil N) with (reverse (@nil N)) at 1.
  destruct (search_from year_re (reverse []) s) as [m|] eqn:Hm.
  - apply search_year in Hm as (k & c3 & c4 & -> & Hk & Hfirst).
    cbn [app] in Hk, Hfirst.
    pose proof Hk as (d3 & d4 & after & Hd & H3 & H4 & Hb0 & Hb4)%year_here_token.
    change (group _ 1) with ([50; 48; c3; c4] : str).
    rewrite (int_of_year _ _ _ _ H3 H4). split.
    + intros [= <-]. exists k. split.
      * by exists c3, c4, d3, d4, after.
      * intros j y' Hj (x3 & x4 & e3 & e4 & aft & Hx).
        specialize (Hfirst j Hj).
        assert (year_here (reverse (take j s)) (drop j s) = Some (x3, x4))
          as Hsome.
        { apply year_here_token. exists e3, e4, aft. tauto. }
        congruence.
    + intros (i & (x3 & x4 & e3 & e4 & aft & Hx & E3 & E4 & B0 & B4 & ->)
              & Hmin).
      assert (year_here (reverse (take i s)) (drop i s) = Some (x3, x4))
        as Hi by (apply year_here_token; by exists e3, e4, aft).
      destruct (Nat.lt_trichotomy i k) as [Hlt | [-> | Hgt]].
      * rewrite (Hfirst i Hlt) in Hi. discriminate Hi.
      * rewrite Hk in Hi. injection Hi as <- <-.
        rewrite H3 in E3. rewrite H4 in E4. by simplify_eq.
      * exfalso. eapply (Hmin k _ Hgt).
        by exists c3, c4, d3, d4, after.
  - split; [done|].
    intros (i & (x3 & x4 & e3 & e4 & aft & Hx) & Hmin). exfalso.
    pose proof (search_year_None _ _ Hm i) as Hnone. cbn [app] in Hnone.
    assert (year_here (reverse (take i s)) (drop i s) = Some (x3, x4))
      as Hi by (apply year_here_token; exists e3, e4, aft; tauto).
    congruence.
Qed.
End YearOf.

(** ** Phases *)

Lemma PHASE_RANGES_lookup n r :
  PHASE_RANGES !! n = Some r <->
  (n, r) ∈ [(1%nat, (2015, 2019)); (2%nat, (2020, 2021));
            (3%nat, (2022, 2023)); (4%nat, (2024, 9999))]%Z.
Proof.
  unfold PHASE_RANGES. rewrite !elem_of_cons, elem_of_nil.
  destruct (decide (n = 1%nat)) as [->|];
    [|destruct (decide (n = 2%nat)) as [->|];
      [|destruct (decide (n = 3%nat)) as [->|];
        [|destruct (decide (n = 4%nat)) as [->|]]]];
    rewrite ?lookup_insert_ne, ?lookup_insert_eq, ?lookup_singleton_eq,
      ?lookup_singleton_ne by done;
    (split; [intros [= <-]; tauto | intros [H|[H|[H|[H|[]]]]]; by simplify_eq]).
Qed.

Section PhaseFacts.
Context {U : Unicode}.

Lemma filter_in_range_filter year_from year_to all :
  filter_in_range year_from year_to all
  = List.filter (in_year_range year_from year_to) all.
Proof.
  unfold filter_in_range.
  assert (forall acc,
    foldl (fun in_range art =>
             if in_year_range year_from year_to art then in_range ++ [art]
             else in_range) acc all
    = acc ++ List.filter (in_year_range year_from year_to) all) as H.
  { induction all as [|art all IH]; intros acc; cbn [foldl List.filter].
    - by rewrite app_nil_r.
    - rewrite IH. destruct (in_year_range year_from year_to art); [|done].
      by rewrite <- app_assoc. }
  apply (H []).
Qed.

Lemma in_year_range_spec year_from year_to art :
  (0 < year_from)%Z ->
  in_year_range year_from year_to art = true <->
  exists y, first_year_token (get art "date_str" []) y /\
            (year_from <= y <= year_to)%Z.
Proof.
  intros Hpos. unfold in_year_range.
  destruct (year_of (get art "date_str" [])) as [y|] eqn:Hy.
  - apply year_of_spec in Hy.
    rewrite !andb_true_iff, negb_true_iff, Z.eqb_neq, !Z.leb_le. split.
    + intros [[_ ?] ?]. by exists y.
    + intros (y' & Hy' & Hr). apply year_of_spec in Hy, Hy'.
      assert (y' = y) as -> by congruence. lia.
  - split; [done|]. intros (y & Hy' & _). apply year_of_spec in Hy'.
    congruence.
Qed.
End PhaseFacts.

(** C6. The phase runner puts a raw article in the input set of phase [n]
    exactly when the first year-like token of its raw date lies in the year
    range of phase [n]; the ranges are [2015,2019], [2020,2021], [2022,2023]
    and [2024,9999], no year lies in two of them, so an article dated
    2020-03-01 is in the input set of phase 2 and of no other phase, and an
    article whose year lies in no range is in no input set. *)
Theorem phase_year_filter `{U : Unicode} :
  (forall n year_from year_to all art,
      PHASE_RANGES !! n = Some (year_from, year_to) ->
      art ∈ filter_in_range year_from year_to all <->
      art ∈ all /\
      exists y, first_year_token (get art "date_str" []) y /\
                (year_from <= y <= year_to)%Z) /\
  (forall n r, PHASE_RANGES !! n = Some r <->
      (n, r) ∈ [(1%nat, (2015, 2019)); (2%nat, (2020, 2021));
                (3%nat, (2022, 2023)); (4%nat, (2024, 9999))]%Z) /\
  (forall n1 n2 r1 r2 y,
      PHASE_RANGES !! n1 = Some r1 -> PHASE_RANGES !! n2 = Some r2 ->
      (fst r1 <= y <= snd r1)%Z -> (fst r2 <= y <= snd r2)%Z -> n1 = n2) /\
  (forall n year_from year_to all art,
      PHASE_RANGES !! n = Some (year_from, year_to) ->
      get art "date_str" [] = py "2020-03-01" ->
      art ∈ filter_in_range year_from year_to all <-> art ∈ all /\ n = 2%nat) /\
  (forall art y,
      first_year_token (get art "date_str" []) y ->
      (forall n r, PHASE_RANGES !! n = Some r -> ~ (fst r <= y <= snd r)%Z) ->
      forall n year_from year_to all,
        PHASE_RANGES !! n = Some (year_from, year_to) ->
        art ∉ filter_in_range year_from year_to all).
Proof.
  assert (forall n year_from year_to all art,
      PHASE_RANGES !! n = Some (year_from, year_to) ->
      art ∈ filter_in_range year_from year_to all <->
      art ∈ all /\
      exists y, first_year_token (get art "date_str" []) y /\
                (year_from <= y <= year_to)%Z) as Hmain.
  { intros n lo hi all art Hn.
    rewrite filter_in_range_filter, list_elem_of_In, filter_In,
      <- list_elem_of_In.
    rewrite in_year_range_spec; [done|].
    apply PHASE_RANGES_lookup in Hn.
    rewrite !elem_of_cons, elem_of_nil in Hn.
    destruct Hn as [Hn|[Hn|[Hn|[Hn|[]]]]]; simplify_eq; lia. }
  split; [exact Hmain|]. split; [exact PHASE_RANGES_lookup|]. split; [|split].
  - intros n1 n2 [lo1 hi1] [lo2 hi2] y H1 H2.
    apply PHASE_RANGES_lookup in H1, H2.
    rewrite !elem_of_cons, elem_of_nil in H1, H2. cbn [fst snd].
    destruct H1 as [H1|[H1|[H1|[H1|[]]]]]; simplify_eq;
      destruct H2 as [H2|[H2|[H2|[H2|[]]]]]; simplify_eq; lia.
  - intros n lo hi all art Hn Hd.
    rewrite filter_in_range_filter, list_elem_of_In, filter_In,
      <- list_elem_of_In.
    unfold in_year_range. rewrite Hd.
    replace (year_of (py "2020-03-01")) with (Some 2020%Z)
      by (vm_compute; reflexivity).
    apply PHASE_RANGES_lookup in Hn.
    rewrite !elem_of_cons, elem_of_nil in Hn.
    destruct Hn as [Hn|[Hn|[Hn|[Hn|[]]]]]; simplify_eq;
      cbn; split; intros [? ?]; (done || split; (done || lia)).
  - intros art y Hy Hout n lo hi all Hn Hin.
    apply (Hmain n lo hi all art Hn) in Hin as [_ (y' & Hy' & Hr)].
    apply year_of_spec in Hy, Hy'. assert (y' = y) as -> by congruence.
    by apply (Hout n (lo, hi) Hn).
Qed.

(** An article dated 2020-03-01 is in the input set of phase 2. *)
Lemma phase_year_filter_witness :
  ({[ "title" := py "OpenAI API"; "date_str" := py "2020-03-01" ]} : dict)
  ∈ @filter_in_range ascii_only 2020 2021
      [ {[ "title" := py "OpenAI API"; "date_str" := py "2020-03-01" ]} ].
Proof.
  apply (proj1 (proj2 (proj2 (proj2 (@phase_year_filter ascii_only))))
           2%nat 2020%Z 2021%Z).
  - reflexivity.
  - reflexivity.
  - split; [apply list_elem_of_here | reflexivity].
Defined.

(** ** Fetch *)

Lemma article_key_nil art :
  article_key art = [] <-> get art "url" [] = [] /\ get art "title" [] = [].
Proof.
  unfold article_key, member, or_else.
  destruct (get art "url" []) as [|c u]; cbn [truthy].
  - split; [by intros -> | by intros [_ ->]].
  - split; [done | by intros [? _]].
Qed.

Lemma truthy_nil s : truthy s = false <-> s = [].
Proof. by destruct s. Qed.

Lemma dedup_step_known acc art :
  article_key art = [] \/ article_key art ∈ seen acc ->
  dedup_step acc art = acc.
Proof.
  unfold dedup_step. intros [-> | Hin]; [reflexivity|].
  rewrite (bool_decide_eq_false_2 _) by (by intros ?).
  by rewrite andb_false_r.
Qed.

Lemma dedup_step_seen acc art :
  seen acc ⊆ seen (dedup_step acc art) /\
  (article_key art ≠ [] -> article_key art ∈ seen (dedup_step acc art)).
Proof.
  unfold dedup_step.
  destruct (truthy (article_key art)) eqn:Ht; cbn [andb].
  - destruct (bool_decide_reflect (article_key art ∉ seen acc)) as [Hn|Hn];
      cbn [seen]; [set_solver|].
    split; [done|]. intros _. by apply dec_stable.
  - apply truthy_nil in Ht. split; [done | by intros []].
Qed.

Lemma dedup_fold_seen page acc :
  seen acc ⊆ seen (foldl dedup_step acc page) /\
  (forall art, art ∈ page -> article_key art ≠ [] ->
               article_key art ∈ seen (foldl dedup_step acc page)).
Proof.
  revert acc. induction page as [|a page IH]; intros acc; cbn [foldl].
  - split; [done|]. intros art Hin. by apply elem_of_nil in Hin.
  - destruct (IH (dedup_step acc a)) as [Hsub Hin].
    destruct (dedup_step_seen acc a) as [Hsub1 Hin1].
    split; [set_solver|].
    intros art [-> | Hart]%elem_of_cons Hk; [|by apply Hin].
    apply Hsub. by apply Hin1.
Qed.

Lemma dedup_fold_known page acc :
  (forall art, art ∈ page ->
               article_key art = [] \/ article_key art ∈ seen acc) ->
  foldl dedup_step acc page = acc.
Proof.
  induction page as [|a page IH]; intros H; cbn [foldl]; [done|].
  rewrite dedup_step_known by (apply H, list_elem_of_here).
  apply IH. intros art Hin. apply H. by apply list_elem_of_further.
Qed.

Lemma dedup_step_inv acc art :
  dedup_inv (all_articles acc) (seen acc) ->
  dedup_inv (all_articles (dedup_step acc art)) (seen (dedup_step acc art)).
Proof.
  intros (Hnd & Hin & Hnil). unfold dedup_step.
  destruct (truthy (article_key art)) eqn:Ht; cbn [andb]; [|done].
  destruct (bool_decide_reflect (article_key art ∉ seen acc)) as [Hn|Hn];
    [|done].
  cbn [all_articles seen]. split; [|split].
  - rewrite fmap_app. apply NoDup_app. split; [done|]. split.
    + intros k Hk [->|Hk']%elem_of_cons; [|by apply elem_of_nil in Hk'].
      apply list_elem_of_fmap in Hk as (a & Ha & Hina).
      apply Hn. rewrite Ha. by apply Hin.
    + apply NoDup_singleton.
  - intros a [Ha|Ha]%elem_of_app.
    + apply elem_of_union_r. by apply Hin.
    + apply list_elem_of_singleton in Ha as ->. set_solver.
  - intros [Hk|Hk]%elem_of_union; [|done].
    apply elem_of_singleton in Hk. rewrite <- Hk in Ht. done.
Qed.

Lemma dedup_page_inv page all sn :
  dedup_inv all sn ->
  dedup_inv (all_articles (dedup_page page all sn))
            (seen (dedup_page page all sn)).
Proof.
  unfold dedup_page.
  assert (forall acc, dedup_inv (all_articles acc) (seen acc) ->
            dedup_inv (all_articles (foldl dedup_step acc page))
                      (seen (foldl dedup_step acc page))) as H.
  { induction page as [|a page IH]; intros acc Hacc; cbn [foldl]; [done|].
    by apply IH, dedup_step_inv. }
  intros Hinv. by apply (H (FetchAcc all sn 0)).
Qed.

Lemma dedup_page_twice page all sn :
  let acc := dedup_page page all sn in
  dedup_page page (all_articles acc) (seen acc)
  = FetchAcc (all_articles acc) (seen acc) 0.
Proof.
  intros acc. unfold dedup_page at 1. apply dedup_fold_known.
  intros art Hin. cbn [seen].
  destruct (decide (article_key art = [])) as [|Hk]; [by left|right].
  unfold acc, dedup_page. by apply dedup_fold_seen.
Qed.

Section FetchRun.
Context {U : Unicode}.
Variable _next_data_articles : str -> result (option (list dict)).
Variable _html_articles : str -> result (list dict).
Variable _next_page : str -> str -> result (option str).

(** Reading a page changes nothing of the world, and returns when the two
    readers do. *)
Lemma read_page_run html w :
  exists r,
    read_page _next_data_articles _html_articles html w = (r, w) /\
    (returns (_next_data_articles html) -> returns (_html_articles html) ->
     returns r).
Proof.
  unfold read_page, bind, call, ret.
  destruct (_next_data_articles html) as [[[|rec raw_list]|]|e];
    try destruct (_html_articles html) as [[|a l]|e'];
    eexists; (split; [reflexivity|]); intros [? ?] [? ?]; try done;
    by eexists.
Qed.

Ltac fetch_ends :=
  eexists (Ok _), _; (split; [reflexivity|]); (split; [done|]);
  (split; [done|]); (split; [intros ? [= <-]; eauto | intros _; by eexists]).

(** The page loop always ends, with a list or with the exception of a page
    reader; it touches no file, and the list it returns keeps the invariant
    of the de-duplication. It returns when the readers do. *)
Lemma fetch_pages_inv turns url page all sn w :
  dedup_inv all sn ->
  exists r w',
    fetch_pages _next_data_articles _html_articles _next_page
      turns url page all sn w = (r, w') /\
    files w' = files w /\ fs_log w' = fs_log w /\
    (forall all', r = Ok all' -> exists sn', dedup_inv all' sn') /\
    (readers_return _next_data_articles _html_articles _next_page ->
     returns r).
Proof.
  revert url page all sn w.
  induction turns as [|turns IH]; intros url page all sn w Hinv;
    cbn [fetch_pages].
  { unfold ret. fetch_ends. }
  destruct (truthy url); cbn [negb]; [|unfold ret; fetch_ends].
  unfold bind at 1. cbn [print]. unfold bind at 1. unfold request at 1.
  cbn [remote].
  destruct (remote w) as [|[html|] rest];
    cbn [files environ remote console fs_log].
  - unfold bind, print, ret. cbn. fetch_ends.
  - unfold bind at 1.
    match goal with
    | |- context [read_page _ _ html ?w0] =>
        destruct (read_page_run html w0) as (found & Hfound & Hret);
        rewrite Hfound
    end.
    destruct found as [[[page_articles how]|]|e].
    + unfold bind at 1. cbn [print].
      pose proof (dedup_page_inv page_articles _ _ Hinv) as Hinv'.
      unfold bind at 1. cbn [print].
      destruct (Nat.eqb _ 0); [unfold ret; fetch_ends|].
      unfold bind at 1, call at 1.
      destruct (_next_page html url) as [[next_url|]|e] eqn:Hnext.
      * destruct (_ || _); [unfold ret; fetch_ends|].
        match goal with
        | |- context [fetch_pages _ _ _ turns ?u ?p ?a ?s ?w0] =>
            destruct (IH u p a s w0 Hinv')
              as (r & w' & Hrun & ? & ? & ? & ?)
        end.
        exists r, w'. by rewrite Hrun.
      * unfold ret. fetch_ends.
      * eexists (Raise e), _. split; [reflexivity|]. split; [done|].
        split; [done|]. split; [done|].
        intros (_ & _ & Hr). destruct (Hr html url) as [? ?]. congruence.
    + unfold bind, print, ret. cbn. fetch_ends.
    + eexists (Raise e), _. split; [reflexivity|]. split; [done|].
      split; [done|]. split; [done|].
      intros (Hd & Hh & _). by destruct (Hret (Hd html) (Hh html)).
  - unfold bind, print, ret. cbn. fetch_ends.
Qed.

(** The turn count [cmd_fetch] gives the page loop is never used up: any
    count above the number of answers left gives the same run. *)
Lemma fetch_pages_turns turns turns' url page all keys w :
  (length (remote w) < turns)%nat -> (length (remote w) < turns')%nat ->
  fetch_pages _next_data_articles _html_articles _next_page
    turns url page all keys w
  = fetch_pages _next_data_articles _html_articles _next_page
      turns' url page all keys w.
Proof.
  revert turns' url page all keys w.
  induction turns as [|turns IH]; intros turns' url page all keys w Ht Ht';
    [lia|].
  destruct turns' as [|turns']; [lia|]. cbn [fetch_pages].
  destruct (truthy url); cbn [negb]; [|done].
  unfold bind, print, request, ret, call.
  destruct (remote w) as [|[html|] rest] eqn:Hr;
    cbn [files environ remote console fs_log]; [done| |done].
  match goal with
  | |- context [read_page _ _ html ?w0] =>
      destruct (read_page_run html w0) as (found & Hfound & _);
      rewrite Hfound
  end.
  destruct found as [[[page_articles how]|]|e]; [|done|done].
  cbn [files environ remote console fs_log].
  destruct (Nat.eqb _ 0); [done|].
  destruct (_next_page html url) as [[next_url|]|e]; [|done|done].
  destruct (_ || _); [done|].
  apply IH; cbn [remote length] in *; lia.
Qed.

(** [cmd_fetch] always ends: normally, having written one file, the
    raw-article cache, with records that satisfy the invariant of the
    de-duplication; or with the exception of a page reader, having written
    nothing. It ends normally when the readers return. *)
Lemma cmd_fetch_saved P w :
  exists r w',
    cmd_fetch _next_data_articles _html_articles _next_page P w = (r, w') /\
    match r with
    | Ok _ =>
        exists saved seen',
          files w' = <[RAW_PATH P := JArticles saved]> (files w) /\
          dedup_inv saved seen'
    | Raise _ => files w' = files w
    end /\
    (readers_return _next_data_articles _html_articles _next_page ->
     r = Ok tt).
Proof.
  assert (dedup_inv [] ∅) as Hinv0.
  { split; [constructor|]. split; [|set_solver].
    intros art Hin. by apply elem_of_nil in Hin. }
  unfold cmd_fetch.
  do 3 (unfold bind at 1; cbn [print]).
  unfold bind at 1. cbn [path_exists log_fs files environ remote console fs_log].
  destruct (bool_decide (is_Some (files w !! RAW_PATH P)));
    unfold bind at 1; cbn [print ret files environ remote console fs_log];
    unfold bind at 1; cbn [files environ remote console fs_log];
    match goal with
    | |- context [fetch_pages _ _ _ ?t ?u ?p ?a ?s ?w0] =>
        destruct (fetch_pages_inv t u p a s w0 Hinv0)
          as (r & w2 & Hrun & Hf2 & _ & Hinv & Hret);
        rewrite Hrun
    end;
    cbn [files] in Hf2;
    (destruct r as [saved|e];
     [ destruct (Hinv saved eq_refl) as [seen' Hsaved];
       eexists (Ok tt), _;
       (split; [unfold bind, save_json, print; cbn; reflexivity|]);
       split; [exists saved, seen'; cbn; by rewrite Hf2 | done]
     | eexists (Raise e), _; (split; [reflexivity|]);
       split; [done | intros [? ?]%Hret; done] ]).
Qed.
End FetchRun.

Lemma dedup_inv_key all keys art :
  dedup_inv all keys -> art ∈ all -> article_key art ≠ [].
Proof.
  intros (_ & Hin & Hnil) Hart Hk. apply Hnil. rewrite <- Hk. by apply Hin.
Qed.

(** C8. The de-duplication of fetch is idempotent: going through the
    records of a page a second time, against the list and the seen-set the
    first pass left, adds no record ([new] stays 0, list and set are
    unchanged); a record is keyed by its url when it has one and otherwise
    by its title, and a record whose key is in the seen-set is never
    appended; the accumulated list holds at most one record per key, and
    so does the cache whenever [cmd_fetch] writes it: a crawl ends either
    normally, with such a cache written, or with the exception of a page
    reader and nothing written, and it ends normally when the readers
    return. *)
Theorem fetch_dedup_idempotent :
  (forall page all keys,
      let acc := dedup_page page all keys in
      dedup_page page (all_articles acc) (seen acc)
      = FetchAcc (all_articles acc) (seen acc) 0) /\
  (forall art,
      article_key art
      = if truthy (get art "url" []) then get art "url" []
        else get art "title" []) /\
  (forall acc art, article_key art ∈ seen acc -> dedup_step acc art = acc) /\
  (forall page all keys,
      dedup_inv all keys ->
      NoDup (article_key <$> all_articles (dedup_page page all keys))) /\
  (forall _next_data_articles _html_articles _next_page P w,
      exists r w',
        cmd_fetch _next_data_articles _html_articles _next_page P w
        = (r, w') /\
        match r with
        | Ok _ =>
            exists saved,
              files w' = <[RAW_PATH P := JArticles saved]> (files w) /\
              NoDup (article_key <$> saved)
        | Raise _ => files w' = files w
        end /\
        (readers_return _next_data_articles _html_articles _next_page ->
         r = Ok tt)).
Proof.
  split; [exact dedup_page_twice|]. split; [done|]. split; [|split].
  - intros acc art Hin. apply dedup_step_known. by right.
  - intros page all keys Hinv.
    by destruct (dedup_page_inv page all keys Hinv) as [? _].
  - intros nda ha np P w.
    destruct (cmd_fetch_saved nda ha np P w) as (r & w' & Hrun & Hr & Hret).
    exists r, w'. split; [done|]. split; [|done].
    destruct r as [[]|e]; [|done].
    destruct Hr as (saved & keys & Hf & Hnd & _). by exists saved.
Qed.

(** Two records with the same url on one page leave one record. *)
Lemma fetch_dedup_idempotent_witness :
  NoDup (article_key <$> all_articles (dedup_page
    [ {[ "title" := py "GPT-4"; "url" := py "https://openai.com/index/gpt-4/" ]};
      {[ "title" := py "GPT-4 is here";
         "url" := py "https://openai.com/index/gpt-4/" ]} ] [] ∅)).
Proof.
  apply (proj1 (proj2 (proj2 (proj2 fetch_dedup_idempotent)))).
  split; [constructor|]. split; [|set_solver].
  intros art Hin. by apply elem_of_nil in Hin.
Defined.

(** C10. During fetch a record whose url and title are both empty (or
    absent) is dropped: its key is empty, so the step of the
    de-duplication leaves the list, the seen-set and the count of new
    records as they were; no such record is in the accumulated list, nor in
    the raw-article cache whenever [cmd_fetch] writes it: a crawl ends
    either normally, with a cache free of such records written, or with
    the exception of a page reader and nothing written, and it ends
    normally when the readers return. *)
Theorem fetch_drops_blank_records :
  (forall acc art,
      get art "url" [] = [] -> get art "title" [] = [] ->
      dedup_step acc art = acc) /\
  (forall page all keys art,
      dedup_inv all keys ->
      art ∈ all_articles (dedup_page page all keys) ->
      ~ (get art "url" [] = [] /\ get art "title" [] = []) /\
      [] ∉ seen (dedup_page page all keys)) /\
  (forall _next_data_articles _html_articles _next_page P w,
      exists r w',
        cmd_fetch _next_data_articles _html_articles _next_page P w
        = (r, w') /\
        match r with
        | Ok _ =>
            exists saved,
              files w' = <[RAW_PATH P := JArticles saved]> (files w) /\
              forall art, art ∈ saved ->
                ~ (get art "url" [] = [] /\ get art "title" [] = [])
        | Raise _ => files w' = files w
        end /\
        (readers_return _next_data_articles _html_articles _next_page ->
         r = Ok tt)).
Proof.
  split; [|split].
  - intros acc art Hu Ht. apply dedup_step_known. left.
    by apply article_key_nil.
  - intros page all keys art Hinv Hin.
    pose proof (dedup_page_inv page all keys Hinv) as Hinv'. split.
    + rewrite <- article_key_nil. by eapply dedup_inv_key.
    + by destruct Hinv' as (_ & _ & ?).
  - intros nda ha np P w.
    destruct (cmd_fetch_saved nda ha np P w) as (r & w' & Hrun & Hr & Hret).
    exists r, w'. split; [done|]. split; [|done].
    destruct r as [[]|e]; [|done].
    destruct Hr as (saved & keys & Hf & Hinv). exists saved. split; [done|].
    intros art Hin. rewrite <- article_key_nil. by eapply dedup_inv_key.
Qed.

(** A record with an empty title and an empty url changes nothing. *)
Lemma fetch_drops_blank_records_witness :
  dedup_step (FetchAcc [] ∅ 0)
    {[ "title" := []; "url" := []; "date_str" := py "2024-01-01" ]}
  = FetchAcc [] ∅ 0.
Proof.
  apply (proj1 fetch_drops_blank_records); reflexivity.
Defined.

(** ** Phase *)

Lemma classify_text_truthy text cat :
  classify_text CATEGORY_RULES text = Some cat -> truthy cat = true.
Proof.
  unfold CATEGORY_RULES. cbn [classify_text].
  repeat (destruct (rule_matches _ text); [by intros [= <-]|]). done.
Qed.

Section PhaseRun.
Context {U : Unicode}.
Variable strip_fences : str -> str.
Variable json_loads : str -> option json_value.

#[local] Abbreviation translated' := (translated strip_fences json_loads).
#[local] Abbreviation translate_step' :=
  (translate_step strip_fences json_loads).

(** One turn of the translation loop: it always ends normally, takes one
    answer, and appends the article with both fields set. *)
Lemma translate_step_run total art done w :
  exists w',
    translate_step' total art done w
    = (Ok (done ++ [translated' art (answer (remote w) 0)]), w') /\
    remote w' = drop 1 (remote w) /\
    files w' = files w /\ environ w' = environ w /\ fs_log w' = fs_log w.
Proof.
  unfold translate_step, try_except, translate_try, translate_fallback,
    _call_openai, translated, reply_object, answer, bind, request,
    print, raise, ret.
  destruct (remote w) as [|[raw|] rest] eqn:Hr; cbn;
    try (destruct (json_loads (strip_fences raw)) as [[result|]|]; cbn);
    eexists; (split; [reflexivity|]); cbn; by rewrite ?Hr, ?drop_0.
Qed.

Lemma translate_loop total l done w :
  exists w',
    for_each l (translate_step' total) done w
    = (Ok (done ++ imap (fun i art => translated' art (answer (remote w) i)) l),
       w') /\
    files w' = files w /\ environ w' = environ w /\ fs_log w' = fs_log w.
Proof.
  revert done w. induction l as [|art l IH]; intros done w; cbn [for_each].
  - exists w. by rewrite app_nil_r.
  - destruct (translate_step_run total art done w)
      as (w1 & Hrun & Hrem & Hf & He & Hl).
    unfold bind at 1. rewrite Hrun.
    destruct (IH (done ++ [translated' art (answer (remote w) 0)]) w1)
      as (w2 & Hrun2 & Hf2 & He2 & Hl2).
    exists w2. rewrite Hrun2. split; [|by rewrite Hf2, He2, Hl2].
    rewrite <- app_assoc. do 3 f_equal. cbn [app imap]. f_equal.
    apply imap_ext. intros i a _. cbn. unfold answer.
    by rewrite Hrem, lookup_drop.
Qed.

(** The classification loop: [classified] grows by the articles a rule
    applies to, each with its category. *)
Lemma classify_loop l classified skipped w :
  exists skipped' w',
    for_each l classify_step (classified, skipped) w
    = (Ok (classified ++ omap categorized l, skipped'), w') /\
    files w' = files w /\ environ w' = environ w /\
    fs_log w' = fs_log w /\ remote w' = remote w.
Proof.
  revert classified skipped w.
  induction l as [|art l IH]; intros classified skipped w; cbn [for_each].
  - exists skipped, w. by rewrite app_nil_r.
  - cbn [omap list_omap]. unfold bind at 1. unfold classify_step at 1.
    unfold categorized at 1.
    destruct (classify_article _ _) as [cat|]; [destruct (truthy cat)|].
    + unfold bind at 1. cbn [print]. unfold ret at 1.
      edestruct IH as (s' & w' & Hrun & ? & ? & ? & ?). rewrite Hrun.
      exists s', w'. rewrite <- app_assoc. done.
    + unfold ret at 1. apply IH.
    + unfold ret at 1. apply IH.
Qed.

(** A phase whose preconditions hold always ends normally, whatever the
    translation service answers, and writes its phase file. *)
Lemma cmd_phase_saved P n year_from year_to all w :
  PHASE_RANGES !! n = Some (year_from, year_to) ->
  truthy (strip (get (environ w) "SILICONFLOW_API_KEY" [])) = true ->
  files w !! RAW_PATH P = Some (JArticles all) ->
  exists w',
    cmd_phase strip_fences json_loads P n w = (Ok tt, w') /\
    files w' =
    <[phase_path P n :=
        JArticles (phase_output strip_fences json_loads year_from year_to all
                     (remote w))]> (files w).
Proof.
  intros Hn Hkey Hraw. unfold cmd_phase. rewrite Hn.
  do 3 (unfold bind at 1; cbn [print]).
  unfold bind at 1. cbn [environ]. rewrite Hkey. cbn [negb].
  unfold bind at 1. cbn [path_exists log_fs files environ remote console fs_log].
  rewrite Hraw. rewrite (bool_decide_eq_true_2 _) by (by eexists).
  cbn [negb]. unfold bind at 1. unfold load_json at 1.
  cbn [log_fs files environ remote console fs_log]. rewrite Hraw.
  unfold bind at 1. cbn [print]. unfold bind at 1.
  match goal with
  | |- context [for_each ?l classify_step ?acc ?w0] =>
      destruct (classify_loop l [] O w0)
        as (skipped & w1 & Hrun1 & Hf1 & He1 & Hl1 & Hr1);
      rewrite Hrun1
  end.
  cbn [fst snd app]. do 2 (unfold bind at 1; cbn [print]).
  unfold bind at 1.
  match goal with
  | |- context [for_each ?l (translate_step _ _ ?t) ?acc ?w0] =>
      destruct (translate_loop t l [] w0) as (w2 & Hrun2 & Hf2 & He2 & Hl2);
      rewrite Hrun2
  end.
  unfold bind, save_json, print. cbn. eexists. split; [reflexivity|].
  cbn. rewrite Hf2. cbn. rewrite Hf1. cbn.
  unfold phase_output. rewrite Hr1. cbn [remote].
  by rewrite filter_in_range_filter.
Qed.

Lemma translated_failed art r :
  reply_object strip_fences json_loads r = None \/
  (exists result,
      reply_object strip_fences json_loads r = Some result /\
      result !! "headline" = None /\ result !! "summary" = None) ->
  translated' art r
  = <["summary_zh" := []]> (<["headline_zh" := get art "title" []]> art).
Proof.
  unfold translated. intros [-> | (result & -> & Hh & Hs)]; [done|].
  unfold get. by rewrite Hh, Hs.
Qed.

(** The translation sets two fields and leaves the others alone. *)
Lemma translated_other art r k :
  k ≠ "headline_zh"%string -> k ≠ "summary_zh"%string ->
  translated' art r !! k = art !! k.
Proof.
  intros H1 H2. unfold translated.
  destruct (reply_object _ _ r); by rewrite !lookup_insert_ne.
Qed.

Lemma categorized_spec art c :
  categorized art = Some c <->
  exists cat,
    classify_article (get art "title" []) (get art "url" []) = Some cat /\
    c = <["category" := cat]> art.
Proof.
  unfold categorized.
  destruct (classify_article _ _) as [cat|] eqn:Hc.
  - rewrite (classify_text_truthy _ _ Hc). split.
    + intros [= <-]. by exists cat.
    + by intros (cat' & [= <-] & ->).
  - split; [done | by intros (cat & ? & _)].
Qed.

Lemma omap_categorized l :
  Forall2 (fun art c =>
             exists cat,
               classify_article (get art "title" []) (get art "url" [])
               = Some cat /\
               c = <["category" := cat]> art)
    (List.filter
       (fun art => bool_decide (is_Some
          (classify_article (get art "title" []) (get art "url" [])))) l)
    (omap categorized l).
Proof.
  induction l as [|art l IH]; cbn [List.filter omap list_omap]; [constructor|].
  destruct (categorized art) as [c|] eqn:Hc.
  - apply categorized_spec in Hc as (cat & Hcat & ->).
    rewrite Hcat. rewrite (bool_decide_eq_true_2 _) by (by eexists).
    constructor; [by exists cat | done].
  - destruct (classify_article _ _) as [cat|] eqn:Hcat.
    + assert (categorized art = Some (<["category" := cat]> art)) as Hsome
        by (apply categorized_spec; by exists cat).
      congruence.
    + rewrite (bool_decide_eq_false_2 _) by (by intros [? ?]). done.
Qed.
End PhaseRun.

Lemma Forall2_imap_r {A B C} (R : A -> C -> Prop) (f : nat -> B -> C) l l' :
  Forall2 (fun a b => forall i, R a (f i b)) l l' ->
  Forall2 R l (imap f l').
Proof.
  revert l f. induction l' as [|b l' IH]; intros l f H;
    inversion H as [|a ? l0 ? Hab Hl]; subst; cbn [imap]; constructor.
  - apply Hab.
  - apply IH. eapply Forall2_impl; [exact Hl|]. intros x y Hxy i. apply Hxy.
Qed.

(** C5. For every classified article of a phase batch, if its translation
    fails in any way (the request raises, the content is no JSON, the JSON
    is no object, or the object has neither field), the article leaves the
    loop with [headline_zh] equal to its title and [summary_zh] empty, and
    the loop goes on: it ends normally with one article out for each
    article in, and a phase whose preconditions hold writes its file
    whatever the translation service answers. *)
Theorem translation_failure_fallback `{U : Unicode}
    (strip_fences : str -> str) (json_loads : str -> option json_value) :
  (forall total classified w,
      exists out w',
        for_each classified (translate_step strip_fences json_loads total) [] w
        = (Ok out, w') /\
        length out = length classified /\
        forall i art,
          classified !! i = Some art ->
          reply_object strip_fences json_loads (answer (remote w) i) = None \/
          (exists result,
              reply_object strip_fences json_loads (answer (remote w) i)
              = Some result /\
              result !! "headline" = None /\ result !! "summary" = None) ->
          out !! i
          = Some (<["summary_zh" := []]>
                    (<["headline_zh" := get art "title" []]> art))) /\
  (forall P n year_from year_to all w,
      PHASE_RANGES !! n = Some (year_from, year_to) ->
      truthy (strip (get (environ w) "SILICONFLOW_API_KEY" [])) = true ->
      files w !! RAW_PATH P = Some (JArticles all) ->
      exists out w',
        cmd_phase strip_fences json_loads P n w = (Ok tt, w') /\
        files w' !! phase_path P n = Some (JArticles out) /\
        forall i o,
          out !! i = Some o ->
          reply_object strip_fences json_loads (answer (remote w) i) = None ->
          o !! "headline_zh" = Some (get o "title" []) /\
          o !! "summary_zh" = Some []).
Proof.
  split.
  - intros total classified w.
    destruct (translate_loop strip_fences json_loads total classified [] w)
      as (w' & Hrun & _).
    eexists _, w'. split; [exact Hrun|]. cbn [app]. split.
    + by rewrite length_imap.
    + intros i art Hi Hfail. rewrite list_lookup_imap, Hi. cbn.
      by rewrite translated_failed.
  - intros P n year_from year_to all w Hn Hkey Hraw.
    destruct (cmd_phase_saved strip_fences json_loads P n year_from year_to
                all w Hn Hkey Hraw) as (w' & Hrun & Hf).
    eexists _, w'. split; [exact Hrun|]. split.
    + rewrite Hf. apply lookup_insert_eq.
    + intros i o Hi Hfail. unfold phase_output in Hi.
      rewrite list_lookup_imap in Hi.
      destruct (omap _ _ !! i) as [art|]; [|done].
      injection Hi as <-. rewrite translated_failed by (by left).
      unfold get. rewrite lookup_insert_ne by done.
      rewrite lookup_insert_eq. split; [|apply lookup_insert_eq].
      do 2 f_equal. rewrite lookup_insert_ne by done.
      by rewrite lookup_insert_ne by done.
Qed.

(** A batch of two articles: the first answer is no JSON, the second request
    raises; both articles come out, the first with its title as headline. *)
Lemma translation_failure_fallback_witness :
  exists out w',
    for_each
      [ {[ "title" := py "Introducing Sora" ]};
        {[ "title" := py "Introducing Codex" ]} ]
      (@translate_step (fun raw => raw) (fun _ => None) 2) []
      (World ∅ ∅ [Some (py "Service unavailable"); None] [] [])
    = (Ok out, w') /\
    length out = 2%nat /\
    out !! 0%nat
    = Some (<["summary_zh" := []]>
              (<["headline_zh" := py "Introducing Sora"]>
                 {[ "title" := py "Introducing Sora" ]})).
Proof.
  destruct (proj1 (@translation_failure_fallback ascii_only
                     (fun raw => raw) (fun _ => None)) 2%nat
              [ {[ "title" := py "Introducing Sora" ]};
                {[ "title" := py "Introducing Codex" ]} ]
              (World ∅ ∅ [Some (py "Service unavailable"); None] [] []))
    as (out & w' & Hrun & Hlen & Hfail).
  exists out, w'. split; [exact Hrun|]. split; [exact Hlen|].
  rewrite (Hfail 0%nat {[ "title" := py "Introducing Sora" ]} eq_refl
             (or_introl eq_refl)).
  reflexivity.
Defined.

Lemma filter_andb {A} (f g : A -> bool) l :
  List.filter (fun x => f x && g x) l = List.filter g (List.filter f l).
Proof.
  induction l as [|x l IH]; cbn [List.filter]; [done|].
  destruct (f x); cbn [andb List.filter]; [|done].
  destruct (g x); by rewrite IH.
Qed.

(** C7. In a phase run, the file written holds exactly the in-range
    articles that received a category, each with its category, its title,
    url and date unchanged; an in-range article to which no rule applies is
    left out, and no article without a category is written. *)
Theorem phase_file_holds_classified_only `{U : Unicode}
    (strip_fences : str -> str) (json_loads : str -> option json_value)
    P n year_from year_to all w :
  PHASE_RANGES !! n = Some (year_from, year_to) ->
  truthy (strip (get (environ w) "SILICONFLOW_API_KEY" [])) = true ->
  files w !! RAW_PATH P = Some (JArticles all) ->
  exists out w',
    cmd_phase strip_fences json_loads P n w = (Ok tt, w') /\
    files w' !! phase_path P n = Some (JArticles out) /\
    Forall2
      (fun art o =>
         exists cat,
           classify_article (get art "title" []) (get art "url" []) = Some cat /\
           o !! "category" = Some cat /\
           forall k : string,
             k ≠ "category"%string -> k ≠ "headline_zh"%string ->
             k ≠ "summary_zh"%string -> o !! k = art !! k)
      (List.filter
         (fun art =>
            in_year_range year_from year_to art &&
            bool_decide (is_Some
              (classify_article (get art "title" []) (get art "url" []))))
         all)
      out /\
    Forall (fun o =>
              is_Some (o !! "category") /\
              is_Some (classify_article (get o "title" []) (get o "url" [])))
           out.
Proof.
  intros Hn Hkey Hraw.
  destruct (cmd_phase_saved strip_fences json_loads P n year_from year_to
              all w Hn Hkey Hraw) as (w' & Hrun & Hf).
  eexists _, w'. split; [exact Hrun|]. split.
  { rewrite Hf. apply lookup_insert_eq. }
  assert (Forall2
      (fun art o =>
         exists cat,
           classify_article (get art "title" []) (get art "url" []) = Some cat /\
           o !! "category" = Some cat /\
           forall k : string,
             k ≠ "category"%string -> k ≠ "headline_zh"%string ->
             k ≠ "summary_zh"%string -> o !! k = art !! k)
      (List.filter
         (fun art =>
            in_year_range year_from year_to art &&
            bool_decide (is_Some
              (classify_article (get art "title" []) (get art "url" []))))
         all)
      (phase_output strip_fences json_loads year_from year_to all (remote w)))
    as Hall.
  { rewrite filter_andb. unfold phase_output. apply Forall2_imap_r.
    eapply Forall2_impl; [apply omap_categorized|].
    intros art c (cat & Hcat & ->) i. exists cat. split; [done|]. split.
    - rewrite translated_other by done. apply lookup_insert_eq.
    - intros k H1 H2 H3. rewrite translated_other by done.
      by rewrite lookup_insert_ne. }
  split; [exact Hall|].
  apply Forall_forall. intros o Ho.
  apply list_elem_of_lookup in Ho as [i Hi].
  destruct (Forall2_lookup_r _ _ _ _ _ Hall Hi)
    as (art & _ & cat & Hcat & Hoc & Hother).
  split; [by eexists|].
  unfold get at 1 2. rewrite !Hother by done. by eexists.
Qed.

(** Phase 4 on two articles of 2024, one that announces a product and one to
    which no rule applies, with a translation service that is down: the
    phase ends normally and every article it writes has a category. *)
Lemma phase_file_holds_classified_only_witness :
  exists out w',
    @cmd_phase ascii_only (fun raw => raw) (fun _ => None)
      (script_paths "/repo/scripts" "/repo") 4
      (World
         {[ "/repo/scripts/raw_articles.json"%string :=
              JArticles
                [ {[ "title" := py "Introducing Sora"; "url" := [];
                     "date_str" := py "2024-02-15" ]};
                  {[ "title" := py "Hello"; "url" := [];
                     "date_str" := py "2024-03-01" ]} ] ]}
         {[ "SILICONFLOW_API_KEY"%string := py "sk-test" ]} [] [] [])
    = (Ok tt, w') /\
    files w' !! "/repo/scripts/phase4.json"%string = Some (JArticles out) /\
    Forall (fun o => is_Some (o !! "category")) out.
Proof.
  destruct (@phase_file_holds_classified_only ascii_only
              (fun raw => raw) (fun _ => None)
              (script_paths "/repo/scripts" "/repo") 4%nat 2024%Z 9999%Z
              [ {[ "title" := py "Introducing Sora"; "url" := [];
                   "date_str" := py "2024-02-15" ]};
                {[ "title" := py "Hello"; "url" := [];
                   "date_str" := py "2024-03-01" ]} ]
              (World
                 {[ "/repo/scripts/raw_articles.json"%string :=
                      JArticles
                        [ {[ "title" := py "Introducing Sora"; "url" := [];
                             "date_str" := py "2024-02-15" ]};
                          {[ "title" := py "Hello"; "url" := [];
                             "date_str" := py "2024-03-01" ]} ] ]}
                 {[ "SILICONFLOW_API_KEY"%string := py "sk-test" ]} [] [] [])
              ltac:(vm_compute; reflexivity) ltac:(vm_compute; reflexivity)
              ltac:(vm_compute; reflexivity))
    as (out & w' & Hrun & Hfile & _ & Hcat).
  exists out, w'. split; [exact Hrun|]. split; [exact Hfile|].
  eapply Forall_impl; [exact Hcat|]. by intros o [? _].
Defined.

(** ** The date patterns *)

Section RegexFacts.
Context {U : Unicode}.

(** A result of a repetition is a result of its continuation after some
    run of items, as many as the bounds allow. *)
Lemma rep_sound p lo hi passed0 rs g k m :
  rep p lo hi passed0 rs g k = Some m ->
  exists taken rest,
    rs = taken ++ rest /\
    Forall (fun c => p c = true) taken /\
    (lo <= length taken)%nat /\
    (forall h, hi = Some h -> (length taken <= h)%nat) /\
    k (Cursor (reverse taken ++ passed0) rest) g = Some m.
Proof.
  revert lo hi passed0.
  induction rs as [|c rs IH]; intros lo hi passed0; cbn [rep].
  - destruct (Nat.eqb_spec lo 0) as [->|]; [|done].
    intros Hk. exists [], []. repeat split; try done; cbn; lia.
  - assert ((if Nat.eqb lo 0 then k (Cursor passed0 (c :: rs)) g else None)
            = Some m ->
            exists taken rest,
              c :: rs = taken ++ rest /\
              Forall (fun c => p c = true) taken /\
              (lo <= length taken)%nat /\
              (forall h, hi = Some h -> (length taken <= h)%nat) /\
              k (Cursor (reverse taken ++ passed0) rest) g = Some m) as Hstop.
    { destruct (Nat.eqb_spec lo 0) as [->|]; [|done].
      intros Hk. exists [], (c :: rs). repeat split; try done; cbn; lia. }
    destruct (hi_allows hi) eqn:Hhi; cbn [andb]; [|exact Hstop].
    destruct (p c) eqn:Hp; [|exact Hstop].
    destruct (rep p (Nat.pred lo) (Nat.pred <$> hi) (c :: passed0) rs g k)
      as [m'|] eqn:Hrec; [|exact Hstop].
    intros [= ->].
    apply IH in Hrec as (taken & rest & -> & Hall & Hlo & Hhi' & Hk).
    exists (c :: taken), rest. split; [done|]. split; [by constructor|].
    split; [cbn [length]; lia|]. split.
    + intros h ->. cbn [length]. destruct h as [|h]; [done|].
      specialize (Hhi' h eq_refl). lia.
    + rewrite reverse_cons, <- app_assoc. exact Hk.
Qed.

Lemma between_taken passed0 rs taken rest :
  between (Cursor passed0 rs) (Cursor (reverse taken ++ passed0) rest) = taken.
Proof. by rewrite between_app, reverse_involutive. Qed.

(** The groups of a match of the numeric pattern. *)
Lemma iso_date_groups s m :
  re_match iso_date_re s = Some m ->
  exists year month day,
    m = [(3%nat, day); (2%nat, month); (1%nat, year)] /\
    Forall (fun c => is_digit c = true) year /\ length year = 4%nat /\
    Forall (fun c => is_digit c = true) month /\ length month = 2%nat /\
    Forall (fun c => is_digit c = true) day /\ length day = 2%nat.
Proof.
  unfold re_match, iso_date_re. cbn [seq run passed ahead].
  intros (year & r1 & -> & Hy & Hy1 & Hy2 & H)%rep_sound.
  cbn [passed ahead] in H. rewrite between_taken in H.
  destruct r1 as [|c r1]; [done|]. destruct (45 =? c); [|done].
  apply rep_sound in H as (month & r2 & -> & Hm & Hm1 & Hm2 & H).
  cbn [passed ahead] in H. rewrite between_taken in H.
  destruct r2 as [|c' r2]; [done|]. destruct (45 =? c'); [|done].
  apply rep_sound in H as (day & r3 & -> & Hd & Hd1 & Hd2 & H).
  rewrite between_taken in H. injection H as <-.
  exists year, month, day.
  specialize (Hy2 _ eq_refl). specialize (Hm2 _ eq_refl).
  specialize (Hd2 _ eq_refl).
  repeat split; try done; lia.
Qed.

(** The groups of a match of the month-name pattern. *)
Lemma named_date_groups s m :
  re_match named_date_re s = Some m ->
  exists name day year,
    m = [(3%nat, year); (2%nat, day); (1%nat, name)] /\
    Forall (fun c => is_digit c = true) day /\
    (1 <= length day <= 2)%nat /\
    Forall (fun c => is_digit c = true) year /\ length year = 4%nat.
Proof.
  unfold re_match, named_date_re. cbn [seq run passed ahead].
  intros (name & r1 & -> & _ & _ & _ & H)%rep_sound.
  cbn [passed ahead] in H. rewrite between_taken in H.
  apply rep_sound in H as (sp1 & r2 & -> & _ & _ & _ & H).
  cbn [passed ahead] in H.
  apply rep_sound in H as (day & r3 & -> & Hd & Hd1 & Hd2 & H).
  cbn [passed ahead] in H. rewrite between_taken in H.
  apply rep_sound in H as (comma & r4 & -> & _ & _ & _ & H).
  cbn [passed ahead] in H.
  apply rep_sound in H as (sp2 & r5 & -> & _ & _ & _ & H).
  cbn [passed ahead] in H.
  apply rep_sound in H as (year & r6 & -> & Hy & Hy1 & Hy2 & H).
  rewrite between_taken in H. injection H as <-.
  exists name, day, year.
  specialize (Hd2 _ eq_refl). specialize (Hy2 _ eq_refl).
  repeat split; try done; lia.
Qed.
End RegexFacts.

(** ** Sort keys *)

Section KeyFacts.
Context {U : Unicode}.

Lemma digits_value_digits s acc after_digit :
  Forall (fun c => is_digit c = true) s ->
  s ≠ [] \/ after_digit = true ->
  is_Some (digits_value acc after_digit s).
Proof.
  intros H. revert acc after_digit.
  induction H as [|c s Hc Hs IH]; intros acc after_digit Hne;
    cbn [digits_value].
  - destruct Hne as [?| ->]; [done | by eexists].
  - apply is_digit_decimal in Hc as [d ->]. apply IH. by right.
Qed.

(** [int] accepts every non-empty string of decimal digits that is not
    longer than the interpreter allows. *)
Lemma int_of_str_digits s :
  Forall (fun c => is_digit c = true) s -> s ≠ [] ->
  N.of_nat (length s) <= INT_MAX_STR_DIGITS ->
  is_Some (int_of_str s).
Proof.
  intros H Hne Hlen. rewrite int_of_digits by done.
  apply digits_value_digits; [done | by left].
Qed.

Lemma month_map_digits name mon :
  month_map !! name = Some mon ->
  Forall (fun c => is_digit c = true) mon /\ mon ≠ [].
Proof.
  unfold month_map. intros H%elem_of_list_to_map_2.
  cbn [fmap list_fmap fst snd] in H.
  repeat (apply elem_of_cons in H as [H|H];
          [injection H as -> ->; split; [by repeat constructor | done]|]).
  by apply elem_of_nil in H.
Qed.

Lemma zfill_digits s :
  Forall (fun c => is_digit c = true) s -> s ≠ [] ->
  Forall (fun c => is_digit c = true) (zfill 2 s) /\ zfill 2 s ≠ [].
Proof.
  intros H Hne. unfold zfill. destruct s as [|c s]; [done|].
  destruct (digit_not_sign c) as [-> ->]; [by inversion H|]. cbn [orb].
  split.
  - apply Forall_app. split; [|done].
    apply Forall_forall. intros x Hx%elem_of_replicate. destruct Hx as [-> _].
    reflexivity.
  - intros Habs. apply (f_equal length) in Habs.
    rewrite length_app in Habs. cbn [length] in Habs. lia.
Qed.

Lemma month_map_two name mon :
  month_map !! name = Some mon -> length mon = 2%nat.
Proof.
  unfold month_map. intros H%elem_of_list_to_map_2.
  cbn [fmap list_fmap fst snd] in H.
  repeat (apply elem_of_cons in H as [H|H]; [by injection H as -> ->|]).
  by apply elem_of_nil in H.
Qed.

Lemma zfill_two day :
  Forall (fun c => is_digit c = true) day -> (1 <= length day <= 2)%nat ->
  length (zfill 2 day) = 2%nat.
Proof.
  intros Hd Hlen. unfold zfill. destruct day as [|c day]; [cbn in Hlen; lia|].
  destruct (digit_not_sign c) as [-> ->]; [by inversion Hd|]. cbn [orb].
  rewrite length_app, length_replicate. cbn [length] in *. lia.
Qed.

(** A parsed date is not empty, and each of its fields reads as an
    integer. *)
Lemma parse_date_keys s sd :
  _parse_date s = Some sd ->
  sd ≠ ∅ /\
  is_Some (int_field sd "year") /\ is_Some (int_field sd "month") /\
  is_Some (int_field sd "day").
Proof.
  unfold _parse_date. destruct (negb (truthy s)); [done|].
  destruct (re_match iso_date_re s) as [m|] eqn:Hiso.
  - apply iso_date_groups in Hiso
      as (year & month & day & -> & Hy & Hy4 & Hm & Hm2 & Hd & Hd2).
    change (group _ 1) with year. change (group _ 2) with month.
    change (group _ 3) with day.
    assert (year ≠ []) by (by destruct year).
    assert (month ≠ []) by (by destruct month).
    assert (day ≠ []) by (by destruct day).
    intros [= <-]. unfold int_field.
    destruct (bool_decide (day ≠ py "01")); simplify_map_eq;
      (split; [apply insert_non_empty|]); repeat split;
      try (apply int_of_str_digits; [done | done | apply short_run; lia]);
      by eexists.
  - destruct (re_match named_date_re s) as [m2|] eqn:Hnamed; [|done].
    apply named_date_groups in Hnamed
      as (name & day & year & -> & Hd & Hd12 & Hy & Hy4).
    change (group _ 1) with name. change (group _ 2) with day.
    change (group _ 3) with year.
    destruct (month_map !! lower name) as [mon|] eqn:Hmon; [|done].
    destruct (truthy mon); [|done].
    pose proof (month_map_two _ _ Hmon) as Hm2.
    apply month_map_digits in Hmon as [Hmd Hmne].
    assert (year ≠ []) by (by destruct year).
    assert (day ≠ []) by (destruct day; [cbn in Hd12; lia | done]).
    destruct (zfill_digits day Hd) as [Hzd Hzne]; [done|].
    pose proof (zfill_two day Hd Hd12) as Hz2.
    intros [= <-]. unfold int_field. simplify_map_eq.
    split; [apply insert_non_empty|]. repeat split;
      (apply int_of_str_digits; [done | done | apply short_run; lia]).
Qed.

(** Every event the merge makes has a sort key. *)
Lemma article_event_key art e :
  article_event art = Some e -> is_Some (_sort_key e).
Proof.
  unfold article_event.
  destruct (_parse_date (get art "date_str" [])) as [sd|] eqn:Hsd; [|done].
  apply parse_date_keys in Hsd as (_ & [y Hy] & [m Hm] & [d Hd]).
  destruct (bool_decide (sd = ∅)); [done|]. intros [= <-].
  unfold _sort_key, make_event. cbn [ev_start_date].
  rewrite Hy, Hm, Hd. by eexists.
Qed.
End KeyFacts.

(** ** Sorting *)


Lemma key_lt_asym a b : key_lt a b = true -> key_lt b a = false.
Proof.
  destruct a as [[y1 m1] d1], b as [[y2 m2] d2]. unfold key_lt.
  destruct (Z.eqb_spec y1 y2), (Z.eqb_spec y2 y1),
    (Z.eqb_spec m1 m2), (Z.eqb_spec m2 m1); cbn [negb]; try lia;
    rewrite Z.ltb_lt, Z.ltb_ge; lia.
Qed.


#[local] Instance key_le_antisym : AntiSymm (=) key_le.
Proof.
  intros [[y1 m1] d1] [[y2 m2] d2]. unfold key_le. intros H1 H2.
  repeat f_equal; lia.
Qed.

Section SortFacts.
Context {A : Type}.
Implicit Types (x : Z * Z * Z * A) (l : list (Z * Z * Z * A)).

Lemma insert_keyed_perm x l : insert_keyed x l ≡ₚ x :: l.
Proof.
  induction l as [|y l IH]; cbn [insert_keyed]; [done|].
  destruct (key_lt (fst y) (fst x)); [|done].
  rewrite IH. apply Permutation_swap.
Qed.

Lemma sort_keyed_perm l : sort_keyed l ≡ₚ l.
Proof.
  induction l as [|x l IH]; cbn [sort_keyed foldr]; [done|].
  fold (sort_keyed l). by rewrite insert_keyed_perm, IH.
Qed.


End SortFacts.


(** ** Merge *)

Section MergeRun.
Context {U : Unicode}.
Variable __debug__ : bool.
Variable abspath : string -> string.

Lemma merge_articles_loop arts events w :
  exists w',
    for_each arts merge_article events w
    = (Ok (events ++ omap article_event arts), w') /\
    files w' = files w /\ fs_log w' = fs_log w.
Proof.
  revert events w. induction arts as [|art arts IH]; intros events w;
    cbn [for_each omap list_omap].
  - exists w. by rewrite app_nil_r.
  - unfold bind at 1, merge_article at 1, article_event at 1.
    destruct (_parse_date (get art "date_str" [])) as [sd|];
      [destruct (bool_decide (sd = ∅))|].
    + unfold bind at 1. cbn [print]. unfold ret at 1.
      edestruct IH as (w' & Hrun & ? & ?). rewrite Hrun. by exists w'.
    + unfold ret at 1.
      edestruct IH as (w' & Hrun & ? & ?). rewrite Hrun. exists w'.
      by rewrite <- app_assoc.
    + unfold bind at 1. cbn [print]. unfold ret at 1.
      edestruct IH as (w' & Hrun & ? & ?). rewrite Hrun. by exists w'.
Qed.

Lemma merge_phase_run P n events w :
  (forall doc, files w !! phase_path P n ≠ Some (JTimeline doc)) ->
  exists w',
    merge_phase P n events w
    = (Ok (events ++ omap article_event (phase_articles P (files w) n)), w') /\
    files w' = files w.
Proof.
  intros Hok. unfold merge_phase, phase_articles.
  unfold bind at 1. cbn [path_exists log_fs files environ remote console fs_log].
  destruct (files w !! phase_path P n) as [[arts|doc]|] eqn:Hfile.
  - rewrite (bool_decide_eq_true_2 _) by (by eexists). cbn [negb].
    unfold bind at 1, load_json at 1.
    cbn [log_fs files environ remote console fs_log]. rewrite Hfile.
    unfold bind at 1. cbn [print].
    edestruct merge_articles_loop as (w' & Hrun & Hf & _). rewrite Hrun.
    by exists w'.
  - by destruct (Hok doc).
  - rewrite (bool_decide_eq_false_2 _) by (by intros [? ?]). cbn [negb].
    unfold bind, print, ret. cbn. eexists. by rewrite app_nil_r.
Qed.

Lemma keyed_events_mapM events :
  Forall (fun e => is_Some (_sort_key e)) events ->
  mapM (fun e => k ← _sort_key e; Some (k, e)) events
  = Some (keyed_events events).
Proof.
  unfold keyed_events.
  induction 1 as [|e events [k Hk] _ IH]; [done|].
  cbn [omap list_omap]. rewrite Hk. cbn.
  cbn in IH. rewrite IH. cbn. by rewrite Hk.
Qed.

Lemma article_events_keyed arts :
  Forall (fun e => is_Some (_sort_key e)) (omap article_event arts).
Proof.
  apply Forall_forall. intros e He.
  apply list_elem_of_omap in He as (art & _ & He).
  by eapply article_event_key.
Qed.


(** A merge that gets past its assertion (the output path is not the
    protected one, or assertions are off), over well-formed phase files,
    always ends normally and writes the sorted events. *)
Lemma cmd_merge_saved P w :
  (__debug__ = true ->
   abspath (OUTPUT_PATH P) ≠ abspath (ORIGINAL_PATH P)) ->
  phase_files_ok P (files w) ->
  exists w',
    cmd_merge __debug__ abspath P w = (Ok tt, w') /\
    files w' =
    <[OUTPUT_PATH P :=
        JTimeline (Timeline timeline_title
                     (merge_output (merged_articles P (files w))))]>
      (files w).
Proof.
  intros Hne Hok. unfold cmd_merge.
  do 3 (unfold bind at 1; cbn [print]).
  assert (__debug__ &&
          negb (bool_decide
                  (abspath (OUTPUT_PATH P) ≠ abspath (ORIGINAL_PATH P)))
          = false) as Hpass.
  { destruct __debug__; [|done].
    by rewrite (bool_decide_eq_true_2 _ (Hne eq_refl)). }
  unfold bind at 1, py_assert at 1. rewrite Hpass. clear Hpass.
  cbn [ret]. cbn [for_each].
  unfold bind at 1, bind at 1.
  match goal with
  | |- context [merge_phase P 1 ?ev ?w0] =>
      destruct (merge_phase_run P 1 ev w0) as (w1 & Hrun1 & Hf1);
      [intros doc; apply Hok|]; rewrite Hrun1
  end.
  unfold bind at 1.
  destruct (merge_phase_run P 2 ([] ++ omap article_event
              (phase_articles P (files w) 1)) w1) as (w2 & Hrun2 & Hf2);
    [rewrite Hf1; intros doc; apply Hok|].
  cbn [files] in Hrun1, Hrun2 |- *. rewrite Hrun2.
  unfold bind at 1.
  match goal with
  | |- context [merge_phase P 3 ?ev ?w0] =>
      destruct (merge_phase_run P 3 ev w0) as (w3 & Hrun3 & Hf3);
      [rewrite Hf2, Hf1; intros doc; apply Hok|]; rewrite Hrun3
  end.
  unfold bind at 1.
  match goal with
  | |- context [merge_phase P 4 ?ev ?w0] =>
      destruct (merge_phase_run P 4 ev w0) as (w4 & Hrun4 & Hf4);
      [rewrite Hf3, Hf2, Hf1; intros doc; apply Hok|]; rewrite Hrun4
  end.
  unfold ret at 1.
  rewrite Hf3, Hf2, Hf1. cbn [files app]. rewrite <- !app_assoc.
  rewrite <- !omap_app.
  fold (merged_articles P (files w)).
  unfold bind at 1, sort_events at 1.
  rewrite keyed_events_mapM by apply article_events_keyed.
  unfold ret at 1.
  unfold bind, path_exists, save_json, print, ret. cbn.
  destruct (bool_decide _); cbn; eexists; (split; [reflexivity|]);
    cbn; by rewrite Hf4, Hf3, Hf2, Hf1.
Qed.
End MergeRun.

Section MergeFacts.
Context {U : Unicode}.

Lemma keyed_events_elem events k e :
  (k, e) ∈ keyed_events events -> _sort_key e = Some k.
Proof.
  unfold keyed_events. intros (e' & _ & He)%list_elem_of_omap.
  destruct (_sort_key e') as [k'|] eqn:Hk; [|done].
  cbn in He. by simplify_eq.
Qed.

Lemma keyed_events_snd events :
  Forall (fun e => is_Some (_sort_key e)) events ->
  snd <$> keyed_events events = events.
Proof.
  unfold keyed_events. induction 1 as [|e events [k Hk] _ IH]; [done|].
  cbn [omap list_omap]. rewrite Hk. cbn. by rewrite IH.
Qed.

Lemma merge_output_perm arts :
  merge_output arts ≡ₚ omap article_event arts.
Proof.
  unfold merge_output. rewrite sort_keyed_perm.
  by rewrite keyed_events_snd by apply article_events_keyed.
Qed.




End MergeFacts.


Lemma two_phase_world_ok :
  phase_files_ok (script_paths "/repo/scripts" "/repo") (files two_phase_world).
Proof.
  intros n doc H. cbn [files two_phase_world] in H.
  apply lookup_insert_Some in H as [[_ H]|[_ H]]; [done|].
  apply lookup_singleton_Some in H as [_ H]. done.
Qed.

Lemma script_paths_distinct :
  OUTPUT_PATH (script_paths "/repo/scripts" "/repo")
  ≠ ORIGINAL_PATH (script_paths "/repo/scripts" "/repo").
Proof. intros H. vm_compute in H. discriminate H. Qed.





(** * Further properties *)

(** ** Normalization of a raw record *)

Lemma dict3_lookup (t u d : str) (k : string) :
  ({[ "title" := t; "url" := u; "date_str" := d ]} : dict) !! k
  = if String.eqb k "title" then Some t
    else if String.eqb k "url" then Some u
    else if String.eqb k "date_str" then Some d
    else None.
Proof.
  destruct (String.eqb_spec k "title") as [->|]; [by simplify_map_eq|].
  destruct (String.eqb_spec k "url") as [->|]; [by simplify_map_eq|].
  destruct (String.eqb_spec k "date_str") as [->|]; by simplify_map_eq.
Qed.

Lemma normalize_url_not_relative raw :
  startswith (py "/") (get (_normalize raw) "url" []) = false.
Proof.
  unfold _normalize, get. rewrite dict3_lookup. cbn [String.eqb Ascii.eqb Bool.eqb default].
  set (url := or_else (member raw "url") _).
  set (slug := or_else (member raw "slug") []).
  destruct (truthy url) eqn:Hu; cbn [negb andb].
  - destruct (startswith (py "/") url) eqn:Hs; [reflexivity | exact Hs].
  - destruct (truthy slug); [reflexivity|]. by destruct url.
Qed.

(** X1. [_normalize] returns a record with exactly the fields title, url
    and date_str, and its url is never relative to the site: a raw link that
    starts with "/" is prefixed with the origin of the site, a record with a
    slug and no link gets the address origin/index/slug/, and any other link
    is kept. *)
Theorem normalize_record raw :
  dom (_normalize raw) = {[ "title"; "url"; "date_str" ]} /\
  startswith (py "/") (get (_normalize raw) "url" []) = false /\
  (forall u,
      or_else (member raw "url")
        (or_else (member raw "href") (or_else (member raw "link") [])) = u ->
      truthy u = true ->
      get (_normalize raw) "url" []
      = if startswith (py "/") u then BASE_URL ++ u else u) /\
  (forall slug,
      or_else (member raw "url")
        (or_else (member raw "href") (or_else (member raw "link") [])) = [] ->
      member raw "slug" = slug -> truthy slug = true ->
      get (_normalize raw) "url" []
      = BASE_URL ++ py "/index/" ++ slug ++ py "/").
Proof.
  split; [|split; [apply normalize_url_not_relative|split]].
  - unfold _normalize. rewrite !dom_insert_L, dom_singleton_L. set_solver.
  - intros u Hu Ht. unfold _normalize, get. rewrite dict3_lookup.
    cbn [String.eqb Ascii.eqb Bool.eqb default]. rewrite Hu, Ht.
    cbn [negb andb]. reflexivity.
  - intros slug Hu Hs Ht. unfold _normalize, get. rewrite dict3_lookup.
    cbn [String.eqb Ascii.eqb Bool.eqb default]. rewrite Hu, Hs.
    assert (or_else slug [] = slug) as ->
      by (unfold or_else; by rewrite Ht).
    cbn [truthy negb andb]. rewrite Ht. reflexivity.
Qed.

(** A raw record with a relative link. *)
Lemma normalize_record_witness :
  get (_normalize {[ "title" := py "GPT-4"; "href" := py "/index/gpt-4/" ]})
      "url" []
  = py "https://openai.com/index/gpt-4/".
Proof.
  pose proof (proj1 (proj2 (proj2 (normalize_record
                {[ "title" := py "GPT-4"; "href" := py "/index/gpt-4/" ]})))
                (py "/index/gpt-4/")) as H.
  rewrite H; vm_compute; reflexivity.
Defined.



(** ** The de-duplication keeps every key *)

Lemma keys_of_app all art :
  keys_of (all ++ [art]) = {[ article_key art ]} ∪ keys_of all.
Proof.
  unfold keys_of. rewrite fmap_app, list_to_set_app_L. cbn. set_solver.
Qed.

Lemma dedup_fold_growth page acc :
  seen acc = keys_of (all_articles acc) ->
  let acc' := foldl dedup_step acc page in
  seen acc' = keys_of (all_articles acc') /\
  exists added,
    all_articles acc' = all_articles acc ++ added /\
    added `sublist_of` page /\
    new acc' = (new acc + length added)%nat.
Proof.
  revert acc. induction page as [|art page IH]; intros acc Hseen;
    cbn [foldl].
  - split; [done|]. exists []. rewrite app_nil_r. split; [done|].
    split; [done | cbn; lia].
  - assert (seen (dedup_step acc art)
            = keys_of (all_articles (dedup_step acc art))) as Hseen'.
    { unfold dedup_step. destruct (truthy _ && _); [|done].
      cbn [seen all_articles]. by rewrite keys_of_app, Hseen. }
    destruct (IH _ Hseen') as (Hs & added & Hall & Hsub & Hnew).
    split; [exact Hs|].
    assert (exists added1,
               all_articles (dedup_step acc art) = all_articles acc ++ added1 /\
               added1 `sublist_of` [art] /\
               new (dedup_step acc art) = (new acc + length added1)%nat)
      as (added1 & Hall1 & Hsub1 & Hnew1).
    { unfold dedup_step. destruct (truthy _ && _); cbn [all_articles new].
      - exists [art]. split; [done|]. split; [done | cbn; lia].
      - exists []. rewrite app_nil_r. split; [done|].
        split; [apply sublist_nil_l | cbn; lia]. }
    exists (added1 ++ added). rewrite Hall, Hall1, <- app_assoc.
    split; [done|]. split.
    + change (art :: page) with ([art] ++ page). by apply sublist_app.
    + rewrite Hnew, Hnew1, length_app. lia.
Qed.

(** X3. Starting from a seen-set that holds exactly the keys of the
    accumulated list, the de-duplication of a page only appends: the list
    it leaves is the old list followed by records of the page in page
    order, [new] is the number appended, the seen-set still holds exactly
    the keys of the list, and every record of the page that has a key finds
    its key in the list. No key is lost. *)
Theorem dedup_page_keeps_every_key page all keys :
  keys = keys_of all ->
  let acc := dedup_page page all keys in
  seen acc = keys_of (all_articles acc) /\
  (exists added,
      all_articles acc = all ++ added /\
      added `sublist_of` page /\
      new acc = length added) /\
  (forall art,
      art ∈ page -> article_key art ≠ [] ->
      article_key art ∈ article_key <$> all_articles acc).
Proof.
  intros Hkeys acc.
  destruct (dedup_fold_growth page (FetchAcc all keys 0) Hkeys)
    as (Hseen & added & Hall & Hsub & Hnew).
  fold (dedup_page page all keys) in Hseen, Hall, Hnew. fold acc in Hseen, Hall, Hnew.
  split; [exact Hseen|]. split; [by exists added|].
  intros art Hin Hk.
  pose proof (proj2 (dedup_fold_seen page (FetchAcc all keys 0)) art Hin Hk)
    as Hs.
  fold (dedup_page page all keys) in Hs. fold acc in Hs.
  rewrite Hseen in Hs. unfold keys_of in Hs. by apply elem_of_list_to_set in Hs.
Qed.

(** The first page of a crawl with a repeated record. *)
Lemma dedup_page_keeps_every_key_witness :
  article_key
    {[ "title" := py "GPT-4"; "url" := py "https://openai.com/index/gpt-4/" ]}
  ∈ article_key <$> all_articles (dedup_page
      [ {[ "title" := py "GPT-4"; "url" := py "https://openai.com/index/gpt-4/" ]};
        {[ "title" := py "GPT-4";
           "url" := py "https://openai.com/index/gpt-4/" ]} ] [] ∅).
Proof.
  apply (proj2 (proj2 (dedup_page_keeps_every_key
           [ {[ "title" := py "GPT-4";
                "url" := py "https://openai.com/index/gpt-4/" ]};
             {[ "title" := py "GPT-4";
                "url" := py "https://openai.com/index/gpt-4/" ]} ] [] ∅ eq_refl))
           {[ "title" := py "GPT-4";
              "url" := py "https://openai.com/index/gpt-4/" ]}).
  - apply list_elem_of_here.
  - vm_compute. discriminate.
Defined.

(** ** A crawl that gets nothing *)

Section FetchNothing.
Variable _next_data_articles : str -> result (option (list dict)).
Variable _html_articles : str -> result (list dict).
Variable _next_page : str -> str -> result (option str).

Lemma fetch_pages_nothing turns w :
  match answer (remote w) 0 with
  | None => True
  | Some html =>
      (_next_data_articles html = Ok None \/
       _next_data_articles html = Ok (Some []))
      /\ _html_articles html = Ok []
  end ->
  exists w',
    fetch_pages _next_data_articles _html_articles _next_page
      (S turns) NEWS_URL 1 [] ∅ w = (Ok [], w') /\
    files w' = files w.
Proof.
  intros Hfirst. cbn [fetch_pages].
  change (truthy NEWS_URL) with true. cbn [negb].
  unfold bind, print, request, ret, read_page, call. unfold answer in Hfirst.
  destruct (remote w) as [|[html|] rest] eqn:Hr;
    cbn [files environ remote console fs_log]; cbn in Hfirst;
    try (eexists; split; [reflexivity | reflexivity]).
  destruct Hfirst as [[-> | ->] ->];
    cbn [files environ remote console fs_log];
    eexists; split; reflexivity.
Qed.

(** X4. When the first request of a crawl fails, or the first page holds
    no article, [cmd_fetch] still ends normally and writes the raw-article
    cache: the cache is replaced by an empty list, whatever it held. *)
Theorem fetch_nothing_empties_cache P w :
  match answer (remote w) 0 with
  | None => True
  | Some html =>
      (_next_data_articles html = Ok None \/
       _next_data_articles html = Ok (Some []))
      /\ _html_articles html = Ok []
  end ->
  exists w',
    cmd_fetch _next_data_articles _html_articles _next_page P w = (Ok tt, w') /\
    files w' = <[RAW_PATH P := JArticles []]> (files w).
Proof.
  intros Hfirst. unfold cmd_fetch.
  do 3 (unfold bind at 1; cbn [print]).
  unfold bind at 1. cbn [path_exists log_fs files environ remote console fs_log].
  destruct (bool_decide (is_Some (files w !! RAW_PATH P)));
    unfold bind at 1; cbn [print ret files environ remote console fs_log];
    unfold bind at 1; cbn [files environ remote console fs_log];
    match goal with
    | |- context [fetch_pages _ _ _ (S ?t) NEWS_URL 1%nat [] ∅ ?w0] =>
        destruct (fetch_pages_nothing t w0 Hfirst) as (w2 & Hrun & Hf2);
        rewrite Hrun
    end;
    eexists;
    (split; [unfold bind, save_json, print; cbn; reflexivity|]);
    cbn; by rewrite Hf2.
Qed.
End FetchNothing.

(** With the network down, a crawl replaces a cache of one record by an
    empty one. *)
Lemma fetch_nothing_empties_cache_witness :
  exists w',
    cmd_fetch (fun _ => Ok None) (fun _ => Ok []) (fun _ _ => Ok None)
      (script_paths "/repo/scripts" "/repo")
      (World {[ "/repo/scripts/raw_articles.json"%string :=
                  JArticles [ {[ "title" := py "GPT-4" ]} ] ]} ∅ [None] [] [])
    = (Ok tt, w') /\
    files w' !! "/repo/scripts/raw_articles.json"%string = Some (JArticles []).
Proof.
  destruct (fetch_nothing_empties_cache (fun _ => Ok None) (fun _ => Ok [])
              (fun _ _ => Ok None) (script_paths "/repo/scripts" "/repo")
              (World {[ "/repo/scripts/raw_articles.json"%string :=
                          JArticles [ {[ "title" := py "GPT-4" ]} ] ]}
                 ∅ [None] [] []) I) as (w' & Hrun & Hf).
  exists w'. split; [exact Hrun|]. rewrite Hf. apply lookup_insert_eq.
Defined.

(** ** The categories *)

Lemma categories_eq :
  categories
  = [cat_funding; cat_partnership; cat_research; cat_policy; cat_product].
Proof. reflexivity. Qed.

Lemma occurs_trans a b c : occurs a b -> occurs b c -> occurs a c.
Proof.
  intros (x & y & ->) (x' & y' & ->). exists (x' ++ x), (y ++ y').
  by rewrite <- !app_assoc.
Qed.

(** X5. [classify_article] only ever answers one of the five categories of
    the rule list, none of which is empty, and each of the five is the
    answer for some article: no rule is hidden by the rules before it. *)
Theorem classify_article_range `{U : Unicode} :
  (forall title url category,
      classify_article title url = Some category ->
      category ∈ categories /\ category ≠ []) /\
  (forall category,
      category ∈ categories ->
      exists title, classify_article title [] = Some category).
Proof.
  split.
  - intros title url category H. split.
    + apply classify_text_Some in H as (i & kws & Hi & _).
      apply list_elem_of_lookup. exists i. unfold categories.
      by rewrite list_lookup_fmap, Hi.
    + apply classify_text_truthy in H. by destruct category.
  - intros category Hin. rewrite categories_eq in Hin.
    rewrite !elem_of_cons, elem_of_nil in Hin.
    destruct Hin as [->|[->|[->|[->|[->|[]]]]]].
    + exists (py "funding"). vm_compute. reflexivity.
    + exists (py "partnership"). vm_compute. reflexivity.
    + exists (py "research"). vm_compute. reflexivity.
    + exists (py "safety"). vm_compute. reflexivity.
    + exists (py "launch"). vm_compute. reflexivity.
Qed.

(** X6. The product keyword "deep research" never decides: a text in
    which it occurs also holds the research keyword "research", and the
    research rule comes first, so the article is filed under funding,
    partnership or research, never under product. *)
Theorem deep_research_is_not_product `{U : Unicode} (title url : str) :
  occurs (py "deep research") (lower (title ++ py " " ++ url)) ->
  exists category,
    classify_article title url = Some category /\
    category ∈ [cat_funding; cat_partnership; cat_research].
Proof.
  intros Hocc.
  assert (occurs (py "research") (lower (title ++ py " " ++ url))) as Hres.
  { eapply occurs_trans; [|exact Hocc]. exists (py "deep "), []. reflexivity. }
  apply contains_spec in Hres.
  unfold classify_article, article_text, CATEGORY_RULES.
  set (text := lower _) in *. cbn [classify_text].
  destruct (rule_matches _ text); [eexists; split; [done|set_solver]|].
  destruct (rule_matches _ text); [eexists; split; [done|set_solver]|].
  replace (rule_matches _ text) with true; [eexists; split; [done|set_solver]|].
  symmetry. unfold rule_matches. cbn [fmap list_fmap existsb]. by rewrite Hres.
Qed.

(** The announcement of the deep research product is filed under
    research. *)
Lemma deep_research_is_not_product_witness :
  exists category,
    @classify_article ascii_only (py "Introducing deep research") []
    = Some category /\
    category ∈ [cat_funding; cat_partnership; cat_research].
Proof.
  apply (@deep_research_is_not_product ascii_only).
  exists (py "introducing "), (py " "). reflexivity.
Defined.

(** ** A phase: what it refuses and what it spends *)

Lemma length_omap_le {A B} (f : A -> option B) l :
  (length (omap f l) <= length l)%nat.
Proof.
  induction l as [|x l IH]; cbn [omap list_omap length]; [done|].
  destruct (f x); cbn [length]; lia.
Qed.

Section PhaseCost.
Context {U : Unicode}.
Variable strip_fences : str -> str.
Variable json_loads : str -> option json_value.

Lemma strip_spaces s :
  Forall (fun c => is_space c = true) s -> strip s = [].
Proof.
  intros H. unfold strip.
  assert (lstrip s = []) as ->.
  { induction H as [|c s Hc _ IH]; cbn [lstrip]; [done|]. by rewrite Hc. }
  reflexivity.
Qed.

(** X7. [cmd_phase] checks, in this order, the phase number, the API key
    and the raw-article cache, and on the first check that fails it exits
    with status 1: for a phase number outside 1..4 nothing but the error
    line is printed; without a key (absent, empty, or white space only) no
    file has been looked at; without a cache only its existence has been
    tested. In the three cases no request is made and no file is written. *)
Theorem phase_fatal_preconditions P n w :
  ((n < 1 \/ 4 < n)%nat ->
   cmd_phase strip_fences json_loads P n w
   = (Raise (SystemExit 1),
      World (files w) (environ w) (remote w)
        (ErrPhaseNumber :: console w) (fs_log w))) /\
  (forall year_from year_to,
      PHASE_RANGES !! n = Some (year_from, year_to) ->
      strip (get (environ w) "SILICONFLOW_API_KEY" []) = [] ->
      cmd_phase strip_fences json_loads P n w
      = (Raise (SystemExit 1),
         World (files w) (environ w) (remote w)
           (ErrNoApiKey :: Rule :: PhaseBanner n year_from year_to :: Rule
            :: console w) (fs_log w))) /\
  (forall year_from year_to,
      PHASE_RANGES !! n = Some (year_from, year_to) ->
      strip (get (environ w) "SILICONFLOW_API_KEY" []) ≠ [] ->
      files w !! RAW_PATH P = None ->
      cmd_phase strip_fences json_loads P n w
      = (Raise (SystemExit 1),
         World (files w) (environ w) (remote w)
           (ErrNoRawFile :: Rule :: PhaseBanner n year_from year_to :: Rule
            :: console w) (FsExists (RAW_PATH P) :: fs_log w))) /\
  (Forall (fun c => is_space c = true)
     (get (environ w) "SILICONFLOW_API_KEY" []) ->
   strip (get (environ w) "SILICONFLOW_API_KEY" []) = []).
Proof.
  split; [|split; [|split]].
  - intros Hn. unfold cmd_phase.
    assert (PHASE_RANGES !! n = None) as ->; [|reflexivity].
    destruct (PHASE_RANGES !! n) as [r|] eqn:Hr; [|done].
    apply PHASE_RANGES_lookup in Hr.
    rewrite !elem_of_cons, elem_of_nil in Hr.
    destruct Hr as [Hr|[Hr|[Hr|[Hr|[]]]]]; simplify_eq; lia.
  - intros year_from year_to Hn Hkey. unfold cmd_phase. rewrite Hn.
    do 3 (unfold bind at 1; cbn [print]).
    unfold bind at 1. cbn [environ]. rewrite Hkey. reflexivity.
  - intros year_from year_to Hn Hkey Hraw. unfold cmd_phase. rewrite Hn.
    do 3 (unfold bind at 1; cbn [print]).
    unfold bind at 1. cbn [environ].
    destruct (strip (get (environ w) "SILICONFLOW_API_KEY" [])) as [|c key];
      [done|]. cbn [truthy negb].
    unfold bind at 1.
    cbn [path_exists log_fs files environ remote console fs_log].
    rewrite Hraw. rewrite (bool_decide_eq_false_2 _) by (by intros [? ?]).
    reflexivity.
  - apply strip_spaces.
Qed.

Lemma translate_loop_remote total l done w :
  remote (snd (for_each l (translate_step strip_fences json_loads total)
                 done w))
  = drop (length l) (remote w).
Proof.
  revert done w. induction l as [|art l IH]; intros done w; cbn [for_each].
  - by rewrite drop_0.
  - destruct (translate_step_run strip_fences json_loads total art done w)
      as (w1 & Hrun & Hrem & _).
    unfold bind at 1. rewrite Hrun. rewrite IH, Hrem, drop_drop.
    reflexivity.
Qed.

(** X8. A phase whose preconditions hold makes exactly one request for
    each article it writes, and none for an article it leaves out: when it
    ends, the answers left are the answers it found less one per written
    article. It writes at most as many articles as the cache holds, and no
    file but its own phase file changes. *)
Theorem phase_one_request_per_article P n year_from year_to all w :
  PHASE_RANGES !! n = Some (year_from, year_to) ->
  truthy (strip (get (environ w) "SILICONFLOW_API_KEY" [])) = true ->
  files w !! RAW_PATH P = Some (JArticles all) ->
  exists out w',
    cmd_phase strip_fences json_loads P n w = (Ok tt, w') /\
    files w' !! phase_path P n = Some (JArticles out) /\
    remote w' = drop (length out) (remote w) /\
    (length out <= length all)%nat /\
    (forall p, p ≠ phase_path P n -> files w' !! p = files w !! p).
Proof.
  intros Hn Hkey Hraw.
  exists (phase_output strip_fences json_loads year_from year_to all (remote w)).
  unfold cmd_phase. rewrite Hn.
  do 3 (unfold bind at 1; cbn [print]).
  unfold bind at 1. cbn [environ]. rewrite Hkey. cbn [negb].
  unfold bind at 1. cbn [path_exists log_fs files environ remote console fs_log].
  rewrite Hraw. rewrite (bool_decide_eq_true_2 _) by (by eexists).
  cbn [negb]. unfold bind at 1. unfold load_json at 1.
  cbn [log_fs files environ remote console fs_log]. rewrite Hraw.
  unfold bind at 1. cbn [print]. unfold bind at 1.
  match goal with
  | |- context [for_each ?l classify_step ?acc ?w0] =>
      destruct (classify_loop l [] O w0)
        as (skipped & w1 & Hrun1 & Hf1 & He1 & Hl1 & Hr1);
      rewrite Hrun1
  end.
  cbn [fst snd app]. do 2 (unfold bind at 1; cbn [print]).
  unfold bind at 1.
  match goal with
  | |- context [for_each ?l (translate_step _ _ ?t) ?acc ?w0] =>
      pose proof (translate_loop_remote t l acc w0) as Hrem;
      destruct (translate_loop strip_fences json_loads t l [] w0)
        as (w2 & Hrun2 & Hf2 & He2 & Hl2);
      rewrite Hrun2 in Hrem |- *
  end.
  cbn [snd remote] in Hrem. rewrite Hr1 in Hrem. cbn [remote] in Hrem.
  unfold bind, save_json, print. cbn. eexists. split; [reflexivity|].
  cbn [files remote].
  assert (omap categorized (filter_in_range year_from year_to all)
          = omap categorized
              (List.filter (in_year_range year_from year_to) all)) as Hfilter
    by (by rewrite filter_in_range_filter).
  split; [|split; [|split]].
  - rewrite lookup_insert_eq. unfold phase_output. rewrite Hr1. cbn [remote].
    by rewrite Hfilter.
  - rewrite Hrem. unfold phase_output. by rewrite length_imap, Hfilter.
  - unfold phase_output. rewrite length_imap.
    etransitivity; [apply length_omap_le|]. apply List.filter_length_le.
  - intros p Hp. rewrite lookup_insert_ne by done. by rewrite Hf2, Hf1.
Qed.
End PhaseCost.

(** Phase 7 does not exist. *)
Lemma phase_fatal_preconditions_witness :
  @cmd_phase ascii_only (fun raw => raw) (fun _ => None)
    (script_paths "/repo/scripts" "/repo") 7 two_phase_world
  = (Raise (SystemExit 1),
     World (files two_phase_world) ∅ [] [ErrPhaseNumber] []).
Proof.
  apply (proj1 (@phase_fatal_preconditions ascii_only (fun raw => raw)
                  (fun _ => None) (script_paths "/repo/scripts" "/repo")
                  7%nat two_phase_world)).
  right. repeat constructor.
Defined.

(** Phase 4 on one product announcement and one article no rule applies
    to, with two answers waiting: one answer is used. *)
Lemma phase_one_request_per_article_witness :
  exists out w',
    @cmd_phase ascii_only (fun raw => raw) (fun _ => None)
      (script_paths "/repo/scripts" "/repo") 4
      (World
         {[ "/repo/scripts/raw_articles.json"%string :=
              JArticles
                [ {[ "title" := py "Introducing Sora"; "url" := [];
                     "date_str" := py "2024-02-15" ]};
                  {[ "title" := py "Hello"; "url" := [];
                     "date_str" := py "2024-03-01" ]} ] ]}
         {[ "SILICONFLOW_API_KEY"%string := py "sk-test" ]}
         [None; None] [] [])
    = (Ok tt, w') /\
    files w' !! "/repo/scripts/phase4.json"%string = Some (JArticles out) /\
    remote w' = drop (length out) [None; None].
Proof.
  destruct (@phase_one_request_per_article ascii_only
              (fun raw => raw) (fun _ => None)
              (script_paths "/repo/scripts" "/repo") 4%nat 2024%Z 9999%Z
              [ {[ "title" := py "Introducing Sora"; "url" := [];
                   "date_str" := py "2024-02-15" ]};
                {[ "title" := py "Hello"; "url" := [];
                   "date_str" := py "2024-03-01" ]} ]
              (World
                 {[ "/repo/scripts/raw_articles.json"%string :=
                      JArticles
                        [ {[ "title" := py "Introducing Sora"; "url" := [];
                             "date_str" := py "2024-02-15" ]};
                          {[ "title" := py "Hello"; "url" := [];
                             "date_str" := py "2024-03-01" ]} ] ]}
                 {[ "SILICONFLOW_API_KEY"%string := py "sk-test" ]}
                 [None; None] [] [])
              ltac:(vm_compute; reflexivity) ltac:(vm_compute; reflexivity)
              ltac:(vm_compute; reflexivity))
    as (out & w' & Hrun & Hfile & Hrem & _).
  exists out, w'. split; [exact Hrun|]. split; [exact Hfile | exact Hrem].
Defined.

(** ** From a phase file to the timeline *)

Section PhaseToMerge.
Context {U : Unicode}.
Variable strip_fences : str -> str.
Variable json_loads : str -> option json_value.

Lemma article_event_date art art' :
  get art' "date_str" [] = get art "date_str" [] ->
  ev_start_date <$> article_event art' = ev_start_date <$> article_event art.
Proof.
  intros Hd. unfold article_event. rewrite Hd.
  destruct (_parse_date (get art "date_str" [])) as [sd|]; [|done].
  by destruct (bool_decide (sd = ∅)).
Qed.

(** X9. What a phase adds to an article does not move it in the timeline:
    with its category set, and after the translation loop whatever the
    answer was, an article has the raw date it had, so the merge gives it
    the same start date, or drops it just the same. *)
Theorem enrichment_keeps_date art cat r :
  get (<["category" := cat]> art) "date_str" [] = get art "date_str" [] /\
  get (translated strip_fences json_loads art r) "date_str" []
  = get art "date_str" [] /\
  ev_start_date <$> article_event (<["category" := cat]> art)
  = ev_start_date <$> article_event art /\
  ev_start_date <$> article_event (translated strip_fences json_loads art r)
  = ev_start_date <$> article_event art.
Proof.
  assert (get (<["category" := cat]> art) "date_str" []
          = get art "date_str" []) as H1
    by (unfold get; by rewrite lookup_insert_ne).
  assert (get (translated strip_fences json_loads art r) "date_str" []
          = get art "date_str" []) as H2
    by (unfold get; by rewrite translated_other).
  split; [exact H1|]. split; [exact H2|].
  split; by apply article_event_date.
Qed.

(** X10. An article whose translation failed becomes, in the timeline, an
    event with its original title as headline and, as body, nothing but the
    link to its url (an empty body when it has no url); the group of the
    event is the category of the article. *)
Theorem failed_translation_event art r sd :
  reply_object strip_fences json_loads r = None ->
  _parse_date (get art "date_str" []) = Some sd ->
  article_event (translated strip_fences json_loads art r)
  = Some {| ev_start_date := sd;
            ev_text :=
              TextBlock (get art "title" [])
                (if truthy (get art "url" [])
                 then LINK_HTML (get art "url" []) else []);
            ev_group := get art "category" cat_product |}.
Proof.
  intros Hfail Hsd. rewrite translated_failed by (by left).
  unfold article_event, make_event, member, get.
  rewrite !lookup_insert_eq.
  rewrite !(lookup_insert_ne _ "summary_zh") by done.
  rewrite !lookup_insert_eq.
  rewrite !(lookup_insert_ne _ "headline_zh") by done.
  fold (get art "date_str" []). rewrite Hsd.
  destruct (parse_date_keys _ _ Hsd) as [Hne _].
  rewrite (bool_decide_eq_false_2 _ Hne). cbn [default truthy].
  unfold or_else. by destruct (truthy _).
Qed.
End PhaseToMerge.

(** The article on Sora, its translation request having failed. *)
Lemma failed_translation_event_witness :
  @article_event ascii_only
    (translated (fun raw => raw) (fun _ => None)
       {[ "title" := py "Introducing Sora"; "date_str" := py "2024-02-15";
          "category" := cat_product ]} None)
  = Some {| ev_start_date :=
              {[ "year" := py "2024"; "month" := py "02"; "day" := py "15" ]};
            ev_text := TextBlock (py "Introducing Sora") [];
            ev_group := cat_product |}.
Proof.
  rewrite (@failed_translation_event ascii_only (fun raw => raw)
             (fun _ => None) _ None
             {[ "year" := py "2024"; "month" := py "02"; "day" := py "15" ]}
             eq_refl).
  - reflexivity.
  - rewrite <- date_with_day.
    replace (get _ "date_str" []) with (py "2024-02-15")
      by (vm_compute; reflexivity).
    by rewrite (parse_date_iso _
          [(3%nat, py "15"); (2%nat, py "02"); (1%nat, py "2024")])
      by (vm_compute; reflexivity).
Defined.

(** ** What the date parser accepts *)

Section ParseSound.
Context {U : Unicode}.

(** A match of the numeric pattern spells out the start of the string. *)
Lemma iso_date_sound s m :
  re_match iso_date_re s = Some m ->
  exists year month day rest,
    s = year ++ py "-" ++ month ++ py "-" ++ day ++ rest /\
    m = [(3%nat, day); (2%nat, month); (1%nat, year)] /\
    Forall (fun c => is_digit c = true) year /\ length year = 4%nat /\
    Forall (fun c => is_digit c = true) month /\ length month = 2%nat /\
    Forall (fun c => is_digit c = true) day /\ length day = 2%nat.
Proof.
  unfold re_match, iso_date_re. cbn [seq run passed ahead].
  intros (year & r1 & -> & Hy & Hy1 & Hy2 & H)%rep_sound.
  cbn [passed ahead] in H. rewrite between_taken in H.
  destruct r1 as [|c r1]; [done|].
  destruct (N.eqb_spec 45 c) as [<-|]; [|done].
  apply rep_sound in H as (month & r2 & -> & Hm & Hm1 & Hm2 & H).
  cbn [passed ahead] in H. rewrite between_taken in H.
  destruct r2 as [|c' r2]; [done|].
  destruct (N.eqb_spec 45 c') as [<-|]; [|done].
  apply rep_sound in H as (day & r3 & -> & Hd & Hd1 & Hd2 & H).
  rewrite between_taken in H. injection H as <-.
  exists year, month, day, r3.
  specialize (Hy2 _ eq_refl). specialize (Hm2 _ eq_refl).
  specialize (Hd2 _ eq_refl).
  repeat split; try done; lia.
Qed.

(** A match of the month-name pattern spells out the start of the string. *)
Lemma named_date_sound s m :
  re_match named_date_re s = Some m ->
  exists name gap1 day comma gap2 year rest,
    s = name ++ gap1 ++ day ++ comma ++ gap2 ++ year ++ rest /\
    m = [(3%nat, year); (2%nat, day); (1%nat, name)] /\
    Forall (fun c => ascii_letter c = true) name /\ name ≠ [] /\
    Forall (fun c => is_space c = true) gap1 /\ gap1 ≠ [] /\
    Forall (fun c => is_digit c = true) day /\
    (1 <= length day <= 2)%nat /\
    (comma = [] \/ comma = py ",") /\
    Forall (fun c => is_space c = true) gap2 /\ gap2 ≠ [] /\
    Forall (fun c => is_digit c = true) year /\ length year = 4%nat.
Proof.
  unfold re_match, named_date_re. cbn [seq run passed ahead].
  intros (name & r1 & -> & Hn & Hn1 & _ & H)%rep_sound.
  cbn [passed ahead] in H. rewrite between_taken in H.
  apply rep_sound in H as (gap1 & r2 & -> & Hg1 & Hg11 & _ & H).
  cbn [passed ahead] in H.
  apply rep_sound in H as (day & r3 & -> & Hd & Hd1 & Hd2 & H).
  cbn [passed ahead] in H. rewrite between_taken in H.
  apply rep_sound in H as (comma & r4 & -> & Hc & _ & Hc2 & H).
  cbn [passed ahead] in H.
  apply rep_sound in H as (gap2 & r5 & -> & Hg2 & Hg21 & _ & H).
  cbn [passed ahead] in H.
  apply rep_sound in H as (year & r6 & -> & Hy & Hy1 & Hy2 & H).
  rewrite between_taken in H. injection H as <-.
  exists name, gap1, day, comma, gap2, year, r6.
  specialize (Hd2 _ eq_refl). specialize (Hy2 _ eq_refl).
  specialize (Hc2 _ eq_refl).
  assert (comma = [] \/ comma = py ",") as Hcomma.
  { destruct comma as [|c [|c' comma]]; [by left| |cbn in Hc2; lia].
    right. apply Forall_cons in Hc as [Hc _].
    apply N.eqb_eq in Hc as <-. reflexivity. }
  repeat split; try done; try lia.
  - intros ->. cbn in Hn1. lia.
  - intros ->. cbn in Hg11. lia.
  - intros ->. cbn in Hg21. lia.
Qed.

(** What a parsed date was read from: the numeric pattern or the month-name
    pattern, at the start of the string. *)
Lemma parse_date_parts s sd :
  _parse_date s = Some sd ->
  (exists year month day rest,
      s = year ++ py "-" ++ month ++ py "-" ++ day ++ rest /\
      Forall (fun c => is_digit c = true) (year ++ month ++ day) /\
      length year = 4%nat /\ length month = 2%nat /\ length day = 2%nat /\
      sd = if bool_decide (day ≠ py "01")
           then {[ "year" := year; "month" := month; "day" := day ]}
           else {[ "year" := year; "month" := month ]}) \/
  (exists name gap1 day comma gap2 year rest mon,
      s = name ++ gap1 ++ day ++ comma ++ gap2 ++ year ++ rest /\
      Forall (fun c => ascii_letter c = true) name /\ name ≠ [] /\
      Forall (fun c => is_space c = true) (gap1 ++ gap2) /\
      gap1 ≠ [] /\ gap2 ≠ [] /\
      Forall (fun c => is_digit c = true) (day ++ year) /\
      (1 <= length day <= 2)%nat /\ length year = 4%nat /\
      (comma = [] \/ comma = py ",") /\
      month_map !! lower name = Some mon /\
      sd = {[ "year" := year; "month" := mon; "day" := zfill 2 day ]}).
Proof.
  unfold _parse_date. destruct (negb (truthy s)); [done|].
  destruct (re_match iso_date_re s) as [m|] eqn:Hiso.
  - apply iso_date_sound in Hiso
      as (year & month & day & rest & -> & -> & Hy & Hy4 & Hm & Hm2 & Hd & Hd2).
    change (group _ 1) with year. change (group _ 2) with month.
    change (group _ 3) with day.
    intros [= <-]. left. exists year, month, day, rest.
    split; [done|]. split; [by rewrite !Forall_app|].
    split; [done|]. split; [done|]. split; [done|].
    destruct (bool_decide (day ≠ py "01")); [|done]. apply date_with_day.
  - destruct (re_match named_date_re s) as [m2|] eqn:Hnamed; [|done].
    apply named_date_sound in Hnamed
      as (name & gap1 & day & comma & gap2 & year & rest & -> & -> & Hn & Hn1
          & Hg1 & Hg11 & Hd & Hd12 & Hc & Hg2 & Hg21 & Hy & Hy4).
    change (group _ 1) with name. change (group _ 2) with day.
    change (group _ 3) with year.
    destruct (month_map !! lower name) as [mon|] eqn:Hmon; [|done].
    destruct (truthy mon); [|done].
    intros [= <-]. right. exists name, gap1, day, comma, gap2, year, rest, mon.
    rewrite !Forall_app. repeat split; try done; lia.
Qed.

(** X11. Whatever [_parse_date] returns was read off the start of the
    string. Either the string starts with four digits, a hyphen, two
    digits, a hyphen and two digits, which are the year, the month and the
    day of the result (the day left out when it is "01"); or it starts
    with ASCII letters, white space, one or two digits, an optional comma,
    white space and four digits, the letters in lower case being a name of
    the month table, and the result has that month, the four digits as
    year and the day in two digits. *)
Theorem parse_date_sound s sd :
  _parse_date s = Some sd ->
  (exists year month day rest,
      s = year ++ py "-" ++ month ++ py "-" ++ day ++ rest /\
      Forall (fun c => is_digit c = true) (year ++ month ++ day) /\
      length year = 4%nat /\ length month = 2%nat /\ length day = 2%nat /\
      sd = if bool_decide (day ≠ py "01")
           then {[ "year" := year; "month" := month; "day" := day ]}
           else {[ "year" := year; "month" := month ]}) \/
  (exists name gap1 day comma gap2 year rest mon,
      s = name ++ gap1 ++ day ++ comma ++ gap2 ++ year ++ rest /\
      Forall (fun c => ascii_letter c = true) name /\ name ≠ [] /\
      Forall (fun c => is_space c = true) (gap1 ++ gap2) /\
      gap1 ≠ [] /\ gap2 ≠ [] /\
      Forall (fun c => is_digit c = true) (day ++ year) /\
      (1 <= length day <= 2)%nat /\ length year = 4%nat /\
      (comma = [] \/ comma = py ",") /\
      month_map !! lower name = Some mon /\
      sd = {[ "year" := year; "month" := mon; "day" := zfill 2 day ]}).
Proof. exact (parse_date_parts s sd). Qed.

End ParseSound.

(** An ISO timestamp is read through the numeric pattern. *)
Lemma parse_date_sound_witness :
  (exists year month day rest,
      py "2023-05-17T10:00:00Z"
      = year ++ py "-" ++ month ++ py "-" ++ day ++ rest /\
      length year = 4%nat /\ length month = 2%nat /\ length day = 2%nat).
Proof.
  assert (@_parse_date ascii_only (py "2023-05-17T10:00:00Z")
          = Some (<["day" := py "17"]>
                    {[ "year" := py "2023"; "month" := py "05" ]})) as Hp
    by (by rewrite (@parse_date_iso ascii_only _
             [(3%nat, py "17"); (2%nat, py "05"); (1%nat, py "2023")])
          by (vm_compute; reflexivity)).
  destruct (@parse_date_sound ascii_only (py "2023-05-17T10:00:00Z") _ Hp)
    as [(year & month & day & rest & Hs & _ & Hy & Hm & Hd & _)
       |(name & gap1 & day & comma & gap2 & year & rest & mon & Hs & Hn & Hne & _)].
  - by exists year, month, day, rest.
  - exfalso. destruct name as [|c name]; [done|].
    apply Forall_cons in Hn as [Hc _]. injection Hs as <- _.
    discriminate Hc.
Defined.

(** ** Where the phase filter and the date parser part ways *)

Section FilterAndParser.
Context {U : Unicode}.

Lemma ascii_letter_is_word c : ascii_letter c = true -> is_word c = true.
Proof.
  intros H. unfold is_word. rewrite H.
  replace (is_ascii c) with true; [done|].
  symmetry. unfold is_ascii. apply N.ltb_lt.
  unfold ascii_letter, ascii_upper_letter, ascii_lower_letter in H.
  apply orb_true_iff in H as [H|H]; apply andb_true_iff in H as [_ H];
    apply N.leb_le in H; lia.
Qed.

Lemma year_here_behind c passed0 rs :
  is_word c = false ->
  year_here (passed0 ++ [c]) rs = year_here passed0 rs.
Proof.
  intros Hc. unfold year_here.
  destruct rs as [|c1 [|c2 [|c3 [|c4 rest]]]]; try done.
  replace (at_boundary (Cursor (passed0 ++ [c]) (c1 :: c2 :: c3 :: c4 :: rest)))
    with (at_boundary (Cursor passed0 (c1 :: c2 :: c3 :: c4 :: rest))); [done|].
  unfold at_boundary. cbn [passed ahead].
  destruct passed0; cbn [app]; [by rewrite Hc | done].
Qed.

Lemma search_year_behind c rs passed0 :
  is_word c = false ->
  search_from year_re (passed0 ++ [c]) rs = search_from year_re passed0 rs.
Proof.
  intros Hc. revert passed0. induction rs as [|x rs IH]; intros passed0;
    cbn [search_from]; rewrite !run_year_re, year_here_behind by done.
  - done.
  - destruct (year_here passed0 (x :: rs)) as [[c3 c4]|]; [done|].
    apply (IH (x :: passed0)).
Qed.

(** X12. A date string that starts with a character that is neither a
    word character nor a digit, such as a space, is read differently by the
    two stages: [year_of] finds the same year as without that character, so
    the phase filter lets the article in, while [_parse_date] fails, so the
    merge drops it. *)
Theorem leading_character_splits_stages c s :
  is_word c = false -> is_digit c = false ->
  year_of (c :: s) = year_of s /\ _parse_date (c :: s) = None.
Proof.
  intros Hw Hd. split.
  - unfold year_of, re_search. cbn [truthy search_from].
    rewrite run_year_re.
    assert (year_here [] (c :: s) = None) as ->.
    { unfold year_here. destruct s as [|c2 [|c3 [|c4 rest]]]; try done.
      unfold at_boundary. cbn [passed ahead]. by rewrite Hw. }
    pose proof (search_year_behind c s [] Hw) as Hb. cbn [app] in Hb.
    rewrite Hb.
    destruct s as [|x s]; [|done].
    cbn [truthy search_from]. rewrite run_year_re. done.
  - destruct (_parse_date (c :: s)) as [sd|] eqn:Hp; [|done]. exfalso.
    apply parse_date_parts in Hp
      as [(year & month & day & rest & Hs & Hdig & Hy & _)
         |(name & gap1 & day & comma & gap2 & year & rest & mon & Hs & Hn
           & Hne & _)].
    + destruct year as [|y year]; [done|]. injection Hs as <- _.
      apply Forall_app in Hdig as [Hdig _].
      apply Forall_cons in Hdig as [Hdig _]. congruence.
    + destruct name as [|x name]; [done|]. injection Hs as <- _.
      apply Forall_cons in Hn as [Hn _].
      apply ascii_letter_is_word in Hn. congruence.
Qed.

(** X13. A date string that starts with "20", two more digits, a hyphen,
    two digits, a hyphen and two digits is read alike by both stages: the
    year [year_of] gives the phase filter is the year of the sort key the
    merge gives the event. *)
Theorem iso_date_year_agrees c3 c4 m1 m2 d1 d2 rest :
  Forall (fun c => is_digit c = true) [c3; c4; m1; m2; d1; d2] ->
  is_word c4 = true ->
  exists sd y,
    _parse_date ([50; 48; c3; c4; 45; m1; m2; 45; d1; d2] ++ rest) = Some sd /\
    year_of ([50; 48; c3; c4; 45; m1; m2; 45; d1; d2] ++ rest) = Some y /\
    int_field sd "year" = Some y.
Proof.
  intros Hdig Hw.
  assert (Forall (fun c => is_digit c = true)
            [50; 48; c3; c4; m1; m2; d1; d2]) as Hall
    by (apply Forall_cons; split; [reflexivity|];
        apply Forall_cons; split; [reflexivity | exact Hdig]).
  pose proof (iso_date_match 50 48 c3 c4 m1 m2 d1 d2 rest Hall) as Hm.
  apply Forall_cons in Hdig as [H3 Hdig].
  apply Forall_cons in Hdig as [H4 _].
  destruct (proj1 (is_digit_decimal c3) H3) as [v3 E3].
  destruct (proj1 (is_digit_decimal c4) H4) as [v4 E4].
  eexists _, _. split; [|split].
  - by apply parse_date_iso.
  - unfold year_of, re_search. cbn [app truthy search_from].
    rewrite run_year_re. unfold year_here, at_boundary. cbn [passed ahead].
    rewrite H3, H4, Hw. cbn. by apply int_of_year.
  - change (group _ 1) with ([50; 48; c3; c4] : str).
    unfold int_field.
    assert (forall sd : dict,
               (if bool_decide (group [(3%nat, [d1; d2]); (2%nat, [m1; m2]);
                                       (1%nat, [50; 48; c3; c4])] 3 ≠ py "01")
                then <["day" := [d1; d2]]> sd else sd) !! "year"
               = sd !! "year") as ->
      by (intros sd; destruct (bool_decide _); [by rewrite lookup_insert_ne|done]).
    rewrite lookup_insert_eq. by apply int_of_year.
Qed.
End FilterAndParser.

(** " 2023-05-17", with a space in front. *)
Lemma leading_character_splits_stages_witness :
  @year_of ascii_only (py " 2023-05-17") = @year_of ascii_only (py "2023-05-17")
  /\ @_parse_date ascii_only (py " 2023-05-17") = None.
Proof.
  exact (@leading_character_splits_stages ascii_only 32 (py "2023-05-17")
           eq_refl eq_refl).
Defined.

(** "2023-05-17": phase 3, and year 2023 in the sort key. *)
Lemma iso_date_year_agrees_witness :
  exists sd y,
    @_parse_date ascii_only (py "2023-05-17") = Some sd /\
    @year_of ascii_only (py "2023-05-17") = Some y /\
    @int_field ascii_only sd "year" = Some y.
Proof.
  exact (@iso_date_year_agrees ascii_only 50 51 48 53 49 55 []
           ltac:(repeat constructor) eq_refl).
Defined.

(** ** The shape of a start date *)

Section DateShape.
Context {U : Unicode}.

(** X14. A start date made by [_parse_date] has a year of four digits and
    a month of two digits, has a day or not, the day being of two digits,
    and has no other field. *)
Theorem parse_date_shape s sd :
  _parse_date s = Some sd ->
  dom sd ⊆ {[ "year"; "month"; "day" ]} /\
  (exists year month,
      sd !! "year" = Some year /\ length year = 4%nat /\
      Forall (fun c => is_digit c = true) year /\
      sd !! "month" = Some month /\ length month = 2%nat /\
      Forall (fun c => is_digit c = true) month) /\
  (forall day, sd !! "day" = Some day ->
               length day = 2%nat /\ Forall (fun c => is_digit c = true) day).
Proof.
  intros [(year & month & day & rest & _ & Hdig & Hy & Hm & Hd & ->)
         |(name & gap1 & day & comma & gap2 & year & rest & mon & _ & _ & _ & _
           & _ & _ & Hdig & Hd & Hy & _ & Hmon & ->)]%parse_date_parts.
  - apply Forall_app in Hdig as [Hdy Hdig].
    apply Forall_app in Hdig as [Hdm Hdd].
    destruct (bool_decide (day ≠ py "01")).
    + split; [rewrite !dom_insert_L, dom_singleton_L; set_solver|].
      split; [exists year, month; by simplify_map_eq|].
      intros d Hday. by simplify_map_eq.
    + split; [rewrite !dom_insert_L, dom_singleton_L; set_solver|].
      split; [exists year, month; by simplify_map_eq|].
      intros d Hday. by simplify_map_eq.
  - apply Forall_app in Hdig as [Hdd Hdy].
    pose proof (month_map_two _ _ Hmon) as Hm2.
    apply month_map_digits in Hmon as [Hmd _].
    assert (day ≠ []) as Hne by (destruct day; [cbn in Hd; lia | done]).
    destruct (zfill_digits day Hdd Hne) as [Hzd _].
    pose proof (zfill_two day Hdd Hd) as Hz2.
    split; [rewrite !dom_insert_L, dom_singleton_L; set_solver|].
    split; [exists year, mon; by simplify_map_eq|].
    intros d Hday. by simplify_map_eq.
Qed.
End DateShape.

(** The start date of "May 7, 2023" has its day in two digits. *)
Lemma parse_date_shape_witness :
  length (zfill 2 (py "7")) = 2%nat /\
  Forall (fun c => @is_digit ascii_only c = true) (zfill 2 (py "7")).
Proof.
  assert (@_parse_date ascii_only (py "May 7, 2023")
          = Some {[ "year" := py "2023"; "month" := py "05";
                    "day" := zfill 2 (py "7") ]}) as Hp
    by (by rewrite (@parse_date_named ascii_only _
              [(3%nat, py "2023"); (2%nat, py "7"); (1%nat, py "May")]
              (py "05")) by (vm_compute; reflexivity)).
  destruct (@parse_date_shape ascii_only _ _ Hp) as (_ & _ & Hday).
  apply Hday. by simplify_map_eq.
Defined.

(** ** The phases as a partition of the years *)

Section PhasePartition.
Context {U : Unicode}.

(** X15. When the decimal value of every digit is at most 9, as it is in
    every Unicode table, [year_of] only gives years from 2000 to 2099.
    Then an article with a year from 2015 on is in the input set of exactly
    one phase, phase 4 taking every year from 2024 on, and an article with
    a year before 2015, or with no year, is in none. *)
Theorem phases_partition_years :
  (forall c d, decimal c = Some d -> d <= 9) ->
  (forall s y, year_of s = Some y -> (2000 <= y <= 2099)%Z) /\
  (forall art y,
      year_of (get art "date_str" []) = Some y -> (2015 <= y)%Z ->
      exists n year_from year_to,
        PHASE_RANGES !! n = Some (year_from, year_to) /\
        in_year_range year_from year_to art = true /\
        forall n' r, PHASE_RANGES !! n' = Some r ->
                     in_year_range (fst r) (snd r) art = true -> n' = n) /\
  (forall art,
      in_year_range 2024 9999 art = true <->
      exists y, year_of (get art "date_str" []) = Some y /\ (2024 <= y)%Z) /\
  (forall art,
      (forall y, year_of (get art "date_str" []) = Some y -> (y < 2015)%Z) ->
      forall n r, PHASE_RANGES !! n = Some r ->
                  in_year_range (fst r) (snd r) art = false).
Proof.
  intros Hdec.
  assert (forall s y, year_of s = Some y -> (2000 <= y <= 2099)%Z) as Hbound.
  { intros s y (i & (c3 & c4 & d3 & d4 & after & _ & H3 & H4 & _ & _ & ->) & _)
             %year_of_spec.
    apply Hdec in H3, H4. lia. }
  split; [exact Hbound|]. split; [|split].
  - intros art y Hy Hlo. pose proof (Hbound _ _ Hy) as Hb.
    assert (forall lo hi, in_year_range lo hi art
                          = negb (y =? 0)%Z && (lo <=? y)%Z && (y <=? hi)%Z)
      as Hin by (intros lo hi; unfold in_year_range; by rewrite Hy).
    assert (forall n' r, PHASE_RANGES !! n' = Some r ->
              in_year_range (fst r) (snd r) art = true ->
              (fst r <= y <= snd r)%Z) as Hin'.
    { intros n' r _. rewrite Hin, !andb_true_iff, !Z.leb_le. tauto. }
    assert (forall n lo hi, PHASE_RANGES !! n = Some (lo, hi) ->
              (lo <= y <= hi)%Z ->
              exists n year_from year_to,
                PHASE_RANGES !! n = Some (year_from, year_to) /\
                in_year_range year_from year_to art = true /\
                forall n' r, PHASE_RANGES !! n' = Some r ->
                  in_year_range (fst r) (snd r) art = true -> n' = n) as Hex.
    { intros n lo hi Hn Hr. exists n, lo, hi. split; [done|]. split.
      - rewrite Hin, !andb_true_iff, negb_true_iff, Z.eqb_neq, !Z.leb_le. lia.
      - intros n' r Hn' Ht. pose proof (Hin' _ _ Hn' Ht) as Hr'.
        apply PHASE_RANGES_lookup in Hn, Hn'.
        rewrite !elem_of_cons, elem_of_nil in Hn, Hn'.
        destruct Hn as [Hn|[Hn|[Hn|[Hn|[]]]]]; simplify_eq;
          destruct Hn' as [Hn'|[Hn'|[Hn'|[Hn'|[]]]]]; simplify_eq;
          cbn [fst snd] in *; lia. }
    destruct (Z_le_gt_dec y 2019); [apply (Hex 1%nat 2015 2019)%Z; [done|lia]|].
    destruct (Z_le_gt_dec y 2021); [apply (Hex 2%nat 2020 2021)%Z; [done|lia]|].
    destruct (Z_le_gt_dec y 2023); [apply (Hex 3%nat 2022 2023)%Z; [done|lia]|].
    apply (Hex 4%nat 2024 9999)%Z; [done|lia].
  - intros art. unfold in_year_range.
    destruct (year_of (get art "date_str" [])) as [y|] eqn:Hy.
    + pose proof (Hbound _ _ Hy) as Hb.
      rewrite !andb_true_iff, negb_true_iff, Z.eqb_neq, !Z.leb_le. split.
      * intros [[_ ?] _]. by exists y.
      * intros (y' & [= <-] & ?). lia.
    + split; [done | by intros (y & ? & _)].
  - intros art Hold n r Hn. unfold in_year_range.
    destruct (year_of (get art "date_str" [])) as [y|] eqn:Hy; [|done].
    specialize (Hold y eq_refl).
    apply PHASE_RANGES_lookup in Hn. rewrite !elem_of_cons, elem_of_nil in Hn.
    destruct Hn as [Hn|[Hn|[Hn|[Hn|[]]]]]; simplify_eq; cbn [fst snd];
      rewrite !andb_false_iff, !Z.leb_gt; lia.
Qed.
End PhasePartition.

Lemma ascii_only_decimal c d : @decimal ascii_only c = Some d -> d <= 9.
Proof.
  unfold decimal. destruct (is_ascii c); [|done].
  unfold ascii_digit. destruct (48 <=? c) eqn:E1, (c <=? 57) eqn:E2; try done.
  intros [= <-]. apply N.leb_le in E1, E2. lia.
Qed.

(** An article of 2012 is not in phase 1. *)
Lemma phases_partition_years_witness :
  @in_year_range ascii_only 2015 2019 {[ "date_str" := py "2012-06-01" ]}
  = false.
Proof.
  apply (proj2 (proj2 (proj2 (@phases_partition_years ascii_only
                                ascii_only_decimal)))
           {[ "date_str" := py "2012-06-01" ]}) with (n := 1%nat)
                                                     (r := (2015, 2019)%Z).
  - intros y Hy. vm_compute in Hy. injection Hy as <-. reflexivity.
  - reflexivity.
Defined.

(** ** The merge: reading order, repeated runs, counts *)

Lemma filter_agree {A} (P Q : A -> Prop)
    `{forall x, Decision (P x)} `{forall x, Decision (Q x)} (l : list A) :
  (forall x, x ∈ l -> P x <-> Q x) -> filter P l = filter Q l.
Proof.
  induction l as [|x l IH]; intros Hpq; [done|].
  rewrite !filter_cons.
  rewrite IH by (intros y Hy; apply Hpq; by right).
  pose proof (Hpq x ltac:(by left)) as Hx.
  destruct (decide (P x)), (decide (Q x)); tauto.
Qed.

Lemma filter_fmap_snd {A B} (P : B -> Prop) `{forall x, Decision (P x)}
    (l : list (A * B)) :
  filter P (snd <$> l) = snd <$> filter (fun x => P (snd x)) l.
Proof.
  induction l as [|x l IH]; [done|].
  cbn [fmap list_fmap]. rewrite !filter_cons. cbn [fmap list_fmap] in IH.
  destruct (decide (P (snd x))); cbn [fmap list_fmap]; by rewrite IH.
Qed.

Section SortStable.
Context {A : Type}.
Implicit Types (x : Z * Z * Z * A) (l : list (Z * Z * Z * A)).

(** An item goes in after every item of its own key. *)
Lemma insert_keyed_filter k x l :
  filter (fun y => fst y = k) (insert_keyed x l)
  = filter (fun y => fst y = k) (x :: l).
Proof.
  induction l as [|y l IH]; cbn [insert_keyed]; [done|].
  destruct (key_lt (fst y) (fst x)) eqn:Hlt; [|done].
  rewrite filter_cons, IH, !filter_cons.
  destruct (decide (fst y = k)) as [Hy|], (decide (fst x = k)) as [Hx|];
    try done.
  rewrite Hy, Hx in Hlt. pose proof (key_lt_asym _ _ Hlt). congruence.
Qed.

Lemma sort_keyed_filter k l :
  filter (fun y => fst y = k) (sort_keyed l) = filter (fun y => fst y = k) l.
Proof.
  induction l as [|x l IH]; cbn [sort_keyed foldr]; [done|].
  fold (sort_keyed l). by rewrite insert_keyed_filter, !filter_cons, IH.
Qed.
End SortStable.

Section MergeMore.
Context {U : Unicode}.
Variable __debug__ : bool.
Variable abspath : string -> string.

Lemma merge_output_stable k arts :
  filter (fun e => _sort_key e = Some k) (merge_output arts)
  = filter (fun e => _sort_key e = Some k) (omap article_event arts).
Proof.
  unfold merge_output.
  rewrite <- (keyed_events_snd (omap article_event arts)) at 2
    by apply article_events_keyed.
  rewrite !filter_fmap_snd. f_equal.
  rewrite (filter_agree (fun x => _sort_key (snd x) = Some k)
             (fun x => fst x = k) (sort_keyed _)).
  2:{ intros [k' e] Hin. cbn [fst snd].
      rewrite sort_keyed_perm in Hin. apply keyed_events_elem in Hin.
      rewrite Hin. split; congruence. }
  rewrite (filter_agree (fun x => _sort_key (snd x) = Some k)
             (fun x => fst x = k) (keyed_events _)).
  2:{ intros [k' e] Hin. cbn [fst snd]. apply keyed_events_elem in Hin.
      rewrite Hin. split; congruence. }
  by rewrite sort_keyed_filter.
Qed.

(** X16. The sort of the merge is stable: among the events written, those
    of one and the same date (year, month, day) stand in the order in which
    the merge read their articles, phase file 1 first and each file from
    its first article on. *)
Theorem merge_keeps_reading_order P w :
  abspath (OUTPUT_PATH P) ≠ abspath (ORIGINAL_PATH P) ->
  phase_files_ok P (files w) ->
  exists events w',
    cmd_merge __debug__ abspath P w = (Ok tt, w') /\
    files w' !! OUTPUT_PATH P
    = Some (JTimeline (Timeline timeline_title events)) /\
    forall k,
      filter (fun e => _sort_key e = Some k) events
      = filter (fun e => _sort_key e = Some k)
          (omap article_event (merged_articles P (files w))).
Proof.
  intros Hne Hok.
  destruct (cmd_merge_saved __debug__ abspath P w (fun _ => Hne) Hok)
    as (w' & Hrun & Hf).
  eexists _, w'. split; [exact Hrun|]. split.
  { rewrite Hf. apply lookup_insert_eq. }
  intros k. apply merge_output_stable.
Qed.

Lemma merged_articles_other P fs path data :
  (forall n, path ≠ phase_path P n) ->
  merged_articles P (<[path := data]> fs) = merged_articles P fs.
Proof.
  intros Hne. unfold merged_articles, phase_articles.
  by rewrite !lookup_insert_ne by apply Hne.
Qed.

(** X17. When the output path is the path of no phase file, the merge
    changes no file but its output, and a second merge right after the
    first writes the very same document: the files are left as the first
    merge left them. *)
Theorem merge_twice P w :
  abspath (OUTPUT_PATH P) ≠ abspath (ORIGINAL_PATH P) ->
  phase_files_ok P (files w) ->
  (forall n, OUTPUT_PATH P ≠ phase_path P n) ->
  exists w1 w2,
    cmd_merge __debug__ abspath P w = (Ok tt, w1) /\
    (forall path, path ≠ OUTPUT_PATH P -> files w1 !! path = files w !! path) /\
    cmd_merge __debug__ abspath P w1 = (Ok tt, w2) /\
    files w2 = files w1.
Proof.
  intros Hne Hok Hout.
  destruct (cmd_merge_saved __debug__ abspath P w (fun _ => Hne) Hok)
    as (w1 & Hrun1 & Hf1).
  assert (phase_files_ok P (files w1)) as Hok1.
  { intros n doc. rewrite Hf1, lookup_insert_ne by apply Hout. apply Hok. }
  destruct (cmd_merge_saved __debug__ abspath P w1 (fun _ => Hne) Hok1)
    as (w2 & Hrun2 & Hf2).
  exists w1, w2. split; [exact Hrun1|]. split.
  { intros path Hp. rewrite Hf1. by apply lookup_insert_ne. }
  split; [exact Hrun2|].
  rewrite Hf2, Hf1, merged_articles_other by exact Hout.
  apply insert_insert_eq.
Qed.

Lemma article_event_parsed art :
  is_Some (article_event art) <-> is_Some (_parse_date (get art "date_str" [])).
Proof.
  unfold article_event.
  destruct (_parse_date (get art "date_str" [])) as [sd|] eqn:Hsd; [|done].
  apply parse_date_keys in Hsd as [Hne _].
  rewrite (bool_decide_eq_false_2 _ Hne). split; by eexists.
Qed.

Lemma length_omap_filter {A B} (f : A -> option B) (l : list A) :
  length (omap f l) = length (filter (fun x => is_Some (f x)) l).
Proof.
  induction l as [|x l IH]; [done|].
  cbn [omap list_omap]. rewrite filter_cons.
  destruct (f x) as [y|] eqn:Hfx.
  - rewrite decide_True by (by eexists). cbn [length]. by rewrite IH.
  - rewrite decide_False by (by intros [? ?]). exact IH.
Qed.

(** X18. The merge writes one event for each article whose date parses and
    none for the others: the number of events is the number of articles
    read whose [date_str] parses, so never above the number of articles.
    With none of the four phase files on disk the merge still ends
    normally and writes a timeline that has its title and no event. *)
Theorem merge_event_count P w :
  abspath (OUTPUT_PATH P) ≠ abspath (ORIGINAL_PATH P) ->
  phase_files_ok P (files w) ->
  exists events w',
    cmd_merge __debug__ abspath P w = (Ok tt, w') /\
    files w' !! OUTPUT_PATH P
    = Some (JTimeline (Timeline timeline_title events)) /\
    length events
    = length (filter (fun art => is_Some (_parse_date (get art "date_str" [])))
                (merged_articles P (files w))) /\
    (length events <= length (merged_articles P (files w)))%nat /\
    (Forall (fun n => files w !! phase_path P n = None) [1; 2; 3; 4]%nat ->
     events = []).
Proof.
  intros Hne Hok.
  destruct (cmd_merge_saved __debug__ abspath P w (fun _ => Hne) Hok)
    as (w' & Hrun & Hf).
  eexists _, w'. split; [exact Hrun|]. split.
  { rewrite Hf. apply lookup_insert_eq. }
  assert (length (merge_output (merged_articles P (files w)))
          = length (filter
                      (fun art => is_Some (_parse_date (get art "date_str" [])))
                      (merged_articles P (files w)))) as Hlen.
  { rewrite merge_output_perm, length_omap_filter. f_equal.
    apply filter_agree. intros art _. apply article_event_parsed. }
  split; [exact Hlen|]. split; [rewrite Hlen; apply length_filter|].
  intros Hnone.
  assert (merged_articles P (files w) = []) as Hempty.
  { unfold merged_articles, phase_articles.
    apply Forall_cons in Hnone as [-> Hnone].
    apply Forall_cons in Hnone as [-> Hnone].
    apply Forall_cons in Hnone as [-> Hnone].
    apply Forall_cons in Hnone as [-> _]. done. }
  apply Permutation_nil_r. rewrite merge_output_perm, Hempty. done.
Qed.
End MergeMore.

(** On two phase files of one article each the merge ends normally and
    writes its events. *)
Lemma merge_keeps_reading_order_witness :
  exists events w',
    @cmd_merge ascii_only true (fun p => p)
      (script_paths "/repo/scripts" "/repo")
      two_phase_world = (Ok tt, w') /\
    files w' !! OUTPUT_PATH (script_paths "/repo/scripts" "/repo")
    = Some (JTimeline (Timeline timeline_title events)) /\
    forall k,
      filter (fun e => @_sort_key ascii_only e = Some k) events
      = filter (fun e => @_sort_key ascii_only e = Some k)
          (omap (@article_event ascii_only)
             (merged_articles (script_paths "/repo/scripts" "/repo")
                (files two_phase_world))).
Proof.
  exact (@merge_keeps_reading_order ascii_only true (fun p => p)
           (script_paths "/repo/scripts" "/repo") two_phase_world
           script_paths_distinct two_phase_world_ok).
Defined.

(** With no file on disk at all the merge writes a timeline of no event. *)
Lemma merge_event_count_witness :
  exists w',
    @cmd_merge ascii_only true (fun p => p)
      (script_paths "/repo/scripts" "/repo")
      (World ∅ ∅ [] [] []) = (Ok tt, w') /\
    files w' !! OUTPUT_PATH (script_paths "/repo/scripts" "/repo")
    = Some (JTimeline (Timeline timeline_title [])).
Proof.
  destruct (@merge_event_count ascii_only true (fun p => p)
              (script_paths "/repo/scripts" "/repo") (World ∅ ∅ [] [] [])
              script_paths_distinct)
    as (events & w' & Hrun & Hfile & _ & _ & Hnone).
  { intros n doc H. cbn [files] in H. by rewrite lookup_empty in H. }
  exists w'. split; [exact Hrun|].
  rewrite Hfile, Hnone; [reflexivity|].
  repeat constructor.
Defined.

(** ** The files of the pipeline *)

Lemma chars_app (a b : string) :
  list_ascii_of_string (a ++ b)
  = list_ascii_of_string a ++ list_ascii_of_string b.
Proof.
  induction a as [|c a IH]; [done|].
  change (list_ascii_of_string (String c a ++ b))
    with (c :: list_ascii_of_string (a ++ b)).
  by rewrite IH.
Qed.

Lemma chars_inj (a b : string) :
  list_ascii_of_string a = list_ascii_of_string b -> a = b.
Proof.
  intros H. rewrite <- (string_of_list_ascii_of_string a),
    <- (string_of_list_ascii_of_string b). by rewrite H.
Qed.

(** [os.path.join] puts the same prefix before every name. *)
Lemma path_join_prefix a :
  exists pre, forall b, path_join a b = (pre ++ b)%string.
Proof.
  unfold path_join. destruct (String.eqb a ""); [by exists ""|].
  destruct (String.eqb _ "/"); [by exists a|].
  exists (a ++ "/")%string. intros b. apply chars_inj.
  rewrite !chars_app. by rewrite <- app_assoc.
Qed.

Lemma path_join_inj a b1 b2 : path_join a b1 = path_join a b2 -> b1 = b2.
Proof.
  destruct (path_join_prefix a) as [pre Hpre]. rewrite !Hpre.
  intros H%(f_equal list_ascii_of_string). rewrite !chars_app in H.
  apply app_inv_head in H. by apply chars_inj.
Qed.

Lemma nat_of_digits_aux fuel n acc :
  (n < fuel)%nat ->
  nat_of_digits (digits_of_nat_aux fuel n acc) 0 = nat_of_digits acc n.
Proof.
  revert n acc. induction fuel as [|fuel IH]; intros n acc Hn; [lia|].
  cbn [digits_of_nat_aux].
  assert (n mod 10 < 10)%nat as Hmod by (apply Nat.mod_upper_bound; lia).
  assert (nat_of_ascii (ascii_of_nat (48 + n mod 10)) = 48 + n mod 10)%nat
    as Hd by (apply nat_ascii_embedding; lia).
  destruct (Nat.ltb_spec n 10) as [Hlt|Hge].
  - cbn [nat_of_digits]. rewrite Hd. f_equal.
    rewrite (Nat.mod_small n 10) by done. lia.
  - assert (n / 10 < fuel)%nat as Hdiv.
    { pose proof (Nat.div_mod_eq n 10). lia. }
    rewrite IH by done. cbn [nat_of_digits]. rewrite Hd. f_equal.
    pose proof (Nat.div_mod_eq n 10). lia.
Qed.

(** ["{}".format(n)] is read back as [n]. *)
Lemma nat_of_digits_format n : nat_of_digits (format_nat n) 0 = n.
Proof. unfold format_nat. by rewrite nat_of_digits_aux by lia. Qed.

Lemma format_nat_inj n m : format_nat n = format_nat m -> n = m.
Proof.
  intros H. by rewrite <- (nat_of_digits_format n), <- (nat_of_digits_format m), H.
Qed.

Lemma digits_of_nat_aux_app fuel n acc :
  exists pre, digits_of_nat_aux fuel n acc = (pre ++ acc)%string.
Proof.
  revert n acc. induction fuel as [|fuel IH]; intros n acc;
    cbn [digits_of_nat_aux]; [by exists ""|].
  destruct (n <? 10)%nat.
  - by exists (String (ascii_of_nat (48 + n mod 10)) "").
  - destruct (IH (n / 10)%nat (String (ascii_of_nat (48 + n mod 10)) acc))
      as [pre ->].
    exists (pre ++ String (ascii_of_nat (48 + n mod 10)) "")%string.
    apply chars_inj. rewrite !chars_app. by rewrite <- app_assoc.
Qed.

(** ["{}".format(n)] ends in a digit. *)
Lemma format_nat_last n :
  exists pre d,
    format_nat n = (pre ++ String d "")%string /\ d ≠ "a"%char.
Proof.
  assert (ascii_of_nat (48 + n mod 10) ≠ "a"%char) as Hd.
  { assert (n mod 10 < 10)%nat as Hmod by (apply Nat.mod_upper_bound; lia).
    destruct (n mod 10)%nat as [|k]; [done|].
    do 9 (destruct k as [|k]; [done|]). lia. }
  unfold format_nat. cbn [digits_of_nat_aux]. destruct (n <? 10)%nat.
  - by exists "", (ascii_of_nat (48 + n mod 10)).
  - destruct (digits_of_nat_aux_app n (n / 10)
                (String (ascii_of_nat (48 + n mod 10)) "")) as [pre ->].
    by exists pre, (ascii_of_nat (48 + n mod 10)).
Qed.

Lemma phase_path_inj SCRIPT_DIR PROJECT_ROOT n m :
  phase_path (script_paths SCRIPT_DIR PROJECT_ROOT) n
  = phase_path (script_paths SCRIPT_DIR PROJECT_ROOT) m -> n = m.
Proof.
  cbn [phase_path script_paths]. intros H%path_join_inj.
  apply (f_equal list_ascii_of_string) in H. rewrite !chars_app in H.
  apply app_inv_head, app_inv_tail in H. by apply format_nat_inj, chars_inj.
Qed.

Lemma phase_path_not_raw SCRIPT_DIR PROJECT_ROOT n :
  phase_path (script_paths SCRIPT_DIR PROJECT_ROOT) n
  ≠ RAW_PATH (script_paths SCRIPT_DIR PROJECT_ROOT).
Proof.
  cbn [phase_path RAW_PATH script_paths]. intros H%path_join_inj.
  cbn in H. discriminate H.
Qed.

Lemma output_not_phase_path SCRIPT_DIR PROJECT_ROOT n :
  OUTPUT_PATH (script_paths SCRIPT_DIR PROJECT_ROOT)
  ≠ phase_path (script_paths SCRIPT_DIR PROJECT_ROOT) n.
Proof.
  cbn [phase_path OUTPUT_PATH script_paths].
  destruct (path_join_prefix
              (path_join (path_join PROJECT_ROOT "contrib") "examples"))
    as [pre1 ->].
  destruct (path_join_prefix SCRIPT_DIR) as [pre2 ->].
  destruct (format_nat_last n) as (pre & d & -> & Hd).
  intros H%(f_equal list_ascii_of_string). rewrite !chars_app in H.
  change (list_ascii_of_string "new_openai_data.json")
    with (list_ascii_of_string "new_openai_dat"
          ++ list_ascii_of_string "a.json") in H.
  change (list_ascii_of_string (String d ""))
    with ([d] : list Ascii.ascii) in H.
  rewrite !app_assoc in H. rewrite <- (app_assoc _ [d]) in H.
  apply app_inj_2 in H as [_ H]; [|done].
  cbn in H. congruence.
Qed.

Lemma output_not_original SCRIPT_DIR PROJECT_ROOT :
  OUTPUT_PATH (script_paths SCRIPT_DIR PROJECT_ROOT)
  ≠ ORIGINAL_PATH (script_paths SCRIPT_DIR PROJECT_ROOT).
Proof.
  cbn [ORIGINAL_PATH OUTPUT_PATH script_paths]. intros H%path_join_inj.
  discriminate H.
Qed.

(** X19. Wherever the script lies, the files it works with are all
    different: two phases never share a phase file, no phase file is the
    raw-article cache, the merged document is no phase file, and the output
    path differs from the path of the original data set. *)
Theorem script_files_distinct SCRIPT_DIR PROJECT_ROOT :
  let P := script_paths SCRIPT_DIR PROJECT_ROOT in
  (forall n m, phase_path P n = phase_path P m -> n = m) /\
  (forall n, phase_path P n ≠ RAW_PATH P) /\
  (forall n, OUTPUT_PATH P ≠ phase_path P n) /\
  OUTPUT_PATH P ≠ ORIGINAL_PATH P.
Proof.
  intros P. split; [apply phase_path_inj|].
  split; [apply phase_path_not_raw|].
  split; [apply output_not_phase_path | apply output_not_original].
Qed.

(** A second merge of the two phase files changes nothing. *)
Lemma merge_twice_witness :
  exists w1 w2,
    @cmd_merge ascii_only true (fun p => p)
      (script_paths "/repo/scripts" "/repo")
      two_phase_world = (Ok tt, w1) /\
    @cmd_merge ascii_only true (fun p => p)
      (script_paths "/repo/scripts" "/repo")
      w1 = (Ok tt, w2) /\
    files w2 = files w1.
Proof.
  destruct (@merge_twice ascii_only true (fun p => p)
              (script_paths "/repo/scripts" "/repo") two_phase_world
              script_paths_distinct two_phase_world_ok
              (output_not_phase_path "/repo/scripts" "/repo"))
    as (w1 & w2 & Hrun1 & _ & Hrun2 & Hsame).
  by exists w1, w2.
Defined.

(** ** Where the records of the cache come from *)

Section FetchProvenance.
Context {U : Unicode}.
Variable _next_data_articles : str -> result (option (list dict)).
Variable _html_articles : str -> result (list dict).
Variable _next_page : str -> str -> result (option str).

(** What reading a page gives is what [page_records] says. *)
Lemma read_page_records html w :
  match page_records _next_data_articles _html_articles html with
  | Raise e =>
      read_page _next_data_articles _html_articles html w = (Raise e, w)
  | Ok [] => read_page _next_data_articles _html_articles html w = (Ok None, w)
  | Ok page_articles =>
      exists how,
        read_page _next_data_articles _html_articles html w
        = (Ok (Some (page_articles, how)), w)
  end.
Proof.
  unfold page_records, read_page, bind, call, ret.
  destruct (_next_data_articles html) as [[[|rec raw_list]|]|e];
    try destruct (_html_articles html) as [[|a l]|e'];
    cbn [fmap list_fmap]; eauto.
Qed.

Lemma fetch_pages_sub turns url page all keys w :
  keys = keys_of all ->
  exists r w',
    fetch_pages _next_data_articles _html_articles _next_page
      turns url page all keys w = (r, w') /\
    remote w' `suffix_of` remote w /\
    files w' = files w /\
    forall all',
      r = Ok all' ->
      exists added,
        all' = all ++ added /\
        added `sublist_of`
          concat (records_read _next_data_articles _html_articles
                    <$> answered (remote w)).
Proof.
  assert (forall (all : list dict) (l : list dict) all',
             Ok all = Ok all' ->
             exists added, all' = all ++ added /\ added `sublist_of` l)
    as Hsame.
  { intros a l a' [= <-]. exists []. rewrite app_nil_r.
    split; [done | apply sublist_nil_l]. }
  revert url page all keys w.
  induction turns as [|turns IH]; intros url page all keys w Hkeys;
    cbn [fetch_pages].
  { exists (Ok all), w. split; [done|]. split; [done|]. split; [done|].
    apply Hsame. }
  destruct (truthy url); cbn [negb].
  2:{ exists (Ok all), w. split; [done|]. split; [done|]. split; [done|].
      apply Hsame. }
  unfold bind at 1. cbn [print]. unfold bind at 1. unfold request at 1.
  cbn [remote].
  destruct (remote w) as [|[html|] rest];
    cbn [files environ remote console fs_log].
  - unfold bind, print, ret. cbn. eexists (Ok all), _.
    split; [reflexivity|]. split; [done|]. split; [done|]. apply Hsame.
  - unfold bind at 1. cbn [answered fmap list_fmap concat].
    match goal with
    | |- context [read_page _ _ html ?w0] =>
        pose proof (read_page_records html w0) as Hread
    end.
    unfold records_read at 1.
    destruct (page_records _next_data_articles _html_articles html)
      as [[|rec page_articles]|e].
    + rewrite Hread. unfold bind, print, ret. cbn. eexists (Ok all), _.
      split; [reflexivity|]. split; [by apply suffix_cons_r|].
      split; [done|]. apply Hsame.
    + destruct Hread as [how ->].
      unfold bind at 1. cbn [print].
      destruct (dedup_fold_growth (rec :: page_articles)
                  (FetchAcc all keys 0) Hkeys)
        as (Hkeys' & added1 & Hall & Hsub1 & _).
      fold (dedup_page (rec :: page_articles) all keys) in Hkeys', Hall.
      cbn [all_articles] in Hall.
      unfold bind at 1. cbn [print].
      assert (forall all',
                 Ok (all_articles (dedup_page (rec :: page_articles) all keys))
                 = Ok all' ->
                 exists added,
                   all' = all ++ added /\
                   added `sublist_of`
                     (rec :: page_articles)
                     ++ concat (records_read _next_data_articles
                                  _html_articles <$> answered rest))
        as Hstop.
      { intros all' [= <-]. exists added1. split; [done|].
        rewrite <- (app_nil_r added1). apply sublist_app; [done|].
        apply sublist_nil_l. }
      destruct (Nat.eqb _ 0).
      { eexists (Ok _), _. split; [reflexivity|].
        split; [by apply suffix_cons_r|]. split; [done|]. exact Hstop. }
      unfold bind at 1, call at 1.
      destruct (_next_page html url) as [[next_url|]|e].
      * destruct (_ || _).
        { eexists (Ok _), _. split; [reflexivity|].
          split; [by apply suffix_cons_r|]. split; [done|]. exact Hstop. }
        match goal with
        | |- context [fetch_pages _ _ _ turns ?u ?p ?a ?s ?w0] =>
            destruct (IH u p a s w0 Hkeys')
              as (r & w' & Hrun & Hsuf & Hf & Hsub2)
        end.
        cbn [remote files] in Hsuf, Hf, Hsub2.
        exists r, w'. rewrite Hrun. split; [done|].
        split; [by apply suffix_cons_r|]. split; [done|].
        intros all' Hr. destruct (Hsub2 all' Hr) as (added2 & -> & Hsub).
        exists (added1 ++ added2). rewrite Hall, <- app_assoc.
        split; [done | by apply sublist_app].
      * eexists (Ok _), _. split; [reflexivity|].
        split; [by apply suffix_cons_r|]. split; [done|]. exact Hstop.
      * eexists (Raise e), _. split; [reflexivity|].
        split; [by apply suffix_cons_r|]. split; [done|]. done.
    + rewrite Hread. eexists (Raise e), _. split; [reflexivity|].
      split; [by apply suffix_cons_r|]. split; [done|]. done.
  - unfold bind, print, ret. cbn. eexists (Ok all), _.
    split; [reflexivity|]. split; [by apply suffix_cons_r|].
    split; [done|]. apply Hsame.
Qed.

(** X20. The crawl invents no record and reads nothing behind a failure.
    [cmd_fetch] ends either normally or with the exception of a page
    reader. When it ends normally, the cache it writes is made of records
    of the pages answered before the first failing request, in page order
    and each taken at most once, a page giving the normalised records of
    its embedded payload when it has some and the records of its markup
    otherwise. When a reader raises, nothing is written. Either way the
    answers not yet used are a tail of the answers there were, and the
    crawl ends normally when the readers return. *)
Theorem fetch_saves_page_records P w :
  exists r w',
    cmd_fetch _next_data_articles _html_articles _next_page P w = (r, w') /\
    remote w' `suffix_of` remote w /\
    match r with
    | Ok _ =>
        exists saved,
          files w' = <[RAW_PATH P := JArticles saved]> (files w) /\
          saved `sublist_of`
            concat (records_read _next_data_articles _html_articles
                      <$> answered (remote w))
    | Raise _ => files w' = files w
    end /\
    (readers_return _next_data_articles _html_articles _next_page ->
     r = Ok tt).
Proof.
  assert (∅ = keys_of []) as Hkeys0 by done.
  destruct (cmd_fetch_saved _next_data_articles _html_articles _next_page P w)
    as (r0 & w0 & Hrun0 & _ & Hret).
  exists r0, w0. split; [exact Hrun0|].
  assert (remote w0 `suffix_of` remote w /\
          match r0 with
          | Ok _ =>
              exists saved,
                files w0 = <[RAW_PATH P := JArticles saved]> (files w) /\
                saved `sublist_of`
                  concat (records_read _next_data_articles _html_articles
                            <$> answered (remote w))
          | Raise _ => files w0 = files w
          end) as [Hsuffix Hfiles]; [|by repeat split].
  revert Hrun0. unfold cmd_fetch.
  do 3 (unfold bind at 1; cbn [print]).
  unfold bind at 1. cbn [path_exists log_fs files environ remote console fs_log].
  destruct (bool_decide (is_Some (files w !! RAW_PATH P)));
    unfold bind at 1; cbn [print ret files environ remote console fs_log];
    unfold bind at 1; cbn [files environ remote console fs_log];
    match goal with
    | |- context [fetch_pages _ _ _ ?t ?u ?p ?a ?s ?w0] =>
        destruct (fetch_pages_sub t u p a s w0 Hkeys0)
          as (r & w2 & Hrun & Hsuf & Hf2 & Hsub);
        rewrite Hrun
    end;
    cbn [app remote files] in Hsuf, Hf2, Hsub;
    (destruct r as [saved|e];
     [ destruct (Hsub saved eq_refl) as (added & -> & Hadded);
       unfold bind, save_json, print; cbn;
       intros [= <- <-]; cbn [remote files];
       split; [done | exists added; by rewrite Hf2]
     | intros [= <- <-]; by split ]).
Qed.
End FetchProvenance.

(** ** The link to the next page *)

Section NextPageFacts.
Context {U : Unicode}.

Lemma run_lit w cur g k :
  run (lit w) cur g k
  = if startswith w (ahead cur)
    then k (Cursor (reverse w ++ passed cur) (drop (length w) (ahead cur))) g
    else None.
Proof.
  revert cur. induction w as [|c w IH]; intros [sn rs].
  { done. }
  destruct w as [|c' w].
  - cbn [lit run ahead passed startswith]. destruct rs as [|c' rs]; [done|].
    destruct (N.eqb_spec c c') as [<-|]; done.
  - change (lit (c :: c' :: w)) with (RSeq (RChar c) (lit (c' :: w))).
    cbn [run ahead passed]. destruct rs as [|c'' rs]; [done|].
    cbn [startswith]. destruct (N.eqb_spec c c'') as [<-|]; [|done].
    rewrite IH. cbn [ahead passed andb length drop].
    rewrite (reverse_cons (c' :: w) c), <- app_assoc. done.
Qed.

Lemma rep_greedy p lo sn taken rest g k :
  Forall (fun c => p c = true) taken -> (lo <= length taken)%nat ->
  match rest with c :: _ => p c = false | [] => True end ->
  is_Some (k (Cursor (reverse taken ++ sn) rest) g) ->
  rep p lo None sn (taken ++ rest) g k
  = k (Cursor (reverse taken ++ sn) rest) g.
Proof.
  intros Htaken. revert lo sn.
  induction Htaken as [|c taken Hc _ IH]; intros lo sn Hlo Hrest [m Hk].
  - destruct lo; [|cbn in Hlo; lia]. cbn [app reverse].
    destruct rest as [|c rest]; cbn [rep Nat.eqb]; [done|].
    by rewrite Hrest, andb_false_r.
  - cbn [app rep]. rewrite Hc. cbn [hi_allows andb fmap option_fmap option_map].
    rewrite reverse_cons, <- app_assoc in Hk |- *. cbn [app] in Hk |- *.
    rewrite IH; [by rewrite Hk | cbn in Hlo; lia | done | by eexists].
Qed.

Lemma search_from_skip r sn pre rest :
  (forall p1 p2, pre = p1 ++ p2 -> p2 ≠ [] ->
                 run r (Cursor (reverse p1 ++ sn) (p2 ++ rest)) [] accept = None) ->
  search_from r sn (pre ++ rest) = search_from r (reverse pre ++ sn) rest.
Proof.
  revert sn. induction pre as [|c pre IH]; intros sn Hno; [done|].
  assert (run r (Cursor sn ((c :: pre) ++ rest)) [] accept = None) as H0
    by (by apply (Hno [] (c :: pre))).
  cbn [app search_from] in H0 |- *. rewrite H0.
  rewrite IH.
  - by rewrite reverse_cons, <- app_assoc.
  - intros p1 p2 -> Hp2.
    rewrite <- (Hno (c :: p1) p2) by done.
    by rewrite reverse_cons, <- app_assoc.
Qed.

Lemma sub_from_skip turns r repl sn pre rest :
  (forall p1 p2, pre = p1 ++ p2 -> p2 ≠ [] ->
                 match_end r (Cursor (reverse p1 ++ sn) (p2 ++ rest)) = None) ->
  sub_from (length pre + turns) r repl (Cursor sn (pre ++ rest))
  = pre ++ sub_from turns r repl (Cursor (reverse pre ++ sn) rest).
Proof.
  revert sn. induction pre as [|c pre IH]; intros sn Hno; [done|].
  assert (match_end r (Cursor sn ((c :: pre) ++ rest)) = None) as H0
    by (by apply (Hno [] (c :: pre))).
  cbn [length Nat.add sub_from app] in H0 |- *. rewrite H0.
  cbn [app ahead passed]. f_equal. rewrite IH.
  - by rewrite reverse_cons, <- app_assoc.
  - intros p1 p2 -> Hp2.
    rewrite <- (Hno (c :: p1) p2) by done.
    by rewrite reverse_cons, <- app_assoc.
Qed.

Lemma page_lit : py "page=" = [112; 97; 103; 101; 61].
Proof. reflexivity. Qed.

(** No match of a pattern that starts with [page=] starts where the text
    does not go on with [page=]. *)
Lemma run_page_fail r cur g k :
  startswith (py "page=") (ahead cur) = false ->
  run (RSeq (lit (py "page=")) r) cur g k = None.
Proof. intros H. cbn [run]. by rewrite run_lit, H. Qed.

Lemma occurs_suffix kw p1 p2 : occurs kw p2 -> occurs kw (p1 ++ p2).
Proof.
  intros (before & after & ->). exists (p1 ++ before), after.
  by rewrite <- app_assoc.
Qed.

(** [page=] has no border: behind a text without [page=], the first
    [page=] is the one that follows the text. *)
Lemma page_not_astride p2 rest :
  p2 ≠ [] -> ~ occurs (py "page=") p2 ->
  startswith (py "page=") (p2 ++ py "page=" ++ rest) = false.
Proof.
  intros Hne Hno. apply not_true_is_false. intros [t Ht]%startswith_spec.
  rewrite page_lit in *.
  destruct p2 as [|a1 [|a2 [|a3 [|a4 [|a5 p2]]]]]; try done;
    cbn [app] in Ht; simplify_eq.
  apply Hno. by exists [], p2.
Qed.

Lemma page_not_inside p1 p2 :
  ~ occurs (py "page=") (p1 ++ p2) -> startswith (py "page=") p2 = false.
Proof.
  intros Hno. apply not_true_is_false. intros [t ->]%startswith_spec.
  apply Hno. by exists p1, t.
Qed.
End NextPageFacts.

Section NextPageRun.
Context {U : Unicode}.
Variable next_href : str -> option str.

Lemma search_from_hit r sn rs m :
  run r (Cursor sn rs) [] accept = Some m -> search_from r sn rs = Some m.
Proof. intros H. destruct rs; cbn [search_from]; by rewrite H. Qed.




Lemma run_page ds post sn :
  Forall (fun c => is_digit c = true) ds -> ds ≠ [] ->
  match post with c :: _ => is_digit c = false | [] => True end ->
  run page_re (Cursor sn (py "page=" ++ ds ++ post)) [] accept
  = Some [(1%nat, ds)].
Proof.
  intros Hds Hne Hpost. unfold page_re. cbn [run]. rewrite run_lit.
  cbn [ahead passed].
  rewrite (proj2 (startswith_spec _ _)) by by eexists.
  rewrite drop_app_length. cbn [run passed ahead].
  rewrite rep_greedy; [by rewrite between_taken|..]; try done;
    try (by eexists); destruct ds; [done | cbn; lia].
Qed.

Lemma match_end_page ds post sn :
  Forall (fun c => is_digit c = true) ds -> ds ≠ [] ->
  match post with c :: _ => is_digit c = false | [] => True end ->
  match_end page_number_re (Cursor sn (py "page=" ++ ds ++ post))
  = Some (Cursor (reverse ds ++ reverse (py "page=") ++ sn) post).
Proof.
  intros Hds Hne Hpost. unfold match_end, page_number_re. cbn [run].
  rewrite run_lit. cbn [ahead passed].
  rewrite (proj2 (startswith_spec _ _)) by by eexists.
  rewrite drop_app_length. cbn [run passed ahead].
  rewrite rep_greedy; [done|..]; try done;
    try (by eexists); destruct ds; [done | cbn; lia].
Qed.

Lemma match_end_page_fail cur :
  startswith (py "page=") (ahead cur) = false ->
  match_end page_number_re cur = None.
Proof.
  intros H. unfold match_end, page_number_re. by rewrite run_page_fail.
Qed.

Lemma sub_from_none turns repl sn post :
  ~ occurs (py "page=") post -> (length post < turns)%nat ->
  sub_from turns page_number_re repl (Cursor sn post) = post.
Proof.
  revert turns sn. induction post as [|c post IH]; intros turns sn Hno Hlen.
  - destruct turns as [|turns]; [cbn in Hlen; lia|]. cbn [sub_from].
    by rewrite match_end_page_fail.
  - destruct turns as [|turns]; [cbn in Hlen; lia|]. cbn [sub_from].
    rewrite match_end_page_fail by (by apply (page_not_inside [])).
    cbn [ahead passed]. f_equal. apply IH; [|cbn in Hlen; lia].
    intros Ho. apply Hno. by apply (occurs_suffix _ [c]).
Qed.

Lemma search_page pre ds post :
  ~ occurs (py "page=") pre ->
  Forall (fun c => is_digit c = true) ds -> ds ≠ [] ->
  match post with c :: _ => is_digit c = false | [] => True end ->
  re_search page_re (pre ++ py "page=" ++ ds ++ post) = Some [(1%nat, ds)].
Proof.
  intros Hpre Hds Hne Hpost. unfold re_search.
  rewrite search_from_skip.
  - apply search_from_hit. by apply run_page.
  - intros p1 p2 -> Hp2. apply run_page_fail. cbn [ahead].
    apply page_not_astride; [done|].
    intros Ho. apply Hpre. by apply occurs_suffix.
Qed.

Lemma sub_page repl pre ds post :
  ~ occurs (py "page=") pre -> ~ occurs (py "page=") post ->
  Forall (fun c => is_digit c = true) ds -> ds ≠ [] ->
  match post with c :: _ => is_digit c = false | [] => True end ->
  re_sub page_number_re repl (pre ++ py "page=" ++ ds ++ post)
  = pre ++ repl ++ post.
Proof.
  intros Hpre Hno Hds Hne Hpost. unfold re_sub.
  rewrite length_app, <- Nat.add_succ_r, sub_from_skip.
  - f_equal. cbn [sub_from]. rewrite match_end_page by done. f_equal.
    apply sub_from_none; [done|]. rewrite !length_app. cbn. lia.
  - intros p1 p2 -> Hp2. apply match_end_page_fail. cbn [ahead].
    apply page_not_astride; [done|].
    intros Ho. apply Hpre. by apply occurs_suffix.
Qed.

(** *** [int] and [format] *)

Lemma py_cons c s : py (String c s) = N_of_ascii c :: py s.
Proof. reflexivity. Qed.

Lemma digit_char k :
  (k < 10)%nat ->
  decimal (N_of_ascii (ascii_of_nat (48 + k))) = Some (N.of_nat k).
Proof.
  intros Hk. do 10 (destruct k as [|k]; [reflexivity|]). lia.
Qed.

Lemma digits_value_format fuel n acc b :
  (n < fuel)%nat ->
  digits_value 0 b (py (digits_of_nat_aux fuel n acc))
  = digits_value (Z.of_nat n) true (py acc).
Proof.
  revert n acc b. induction fuel as [|fuel IH]; intros n acc b Hn; [lia|].
  cbn [digits_of_nat_aux].
  assert (n mod 10 < 10)%nat as Hmod by (apply Nat.mod_upper_bound; lia).
  pose proof (Nat.div_mod_eq n 10) as Hdm.
  destruct (Nat.ltb_spec n 10) as [Hlt|Hge].
  - rewrite py_cons. cbn [digits_value]. rewrite digit_char by done.
    f_equal. rewrite (Nat.mod_small n 10) by done. lia.
  - rewrite IH by lia. rewrite py_cons. cbn [digits_value].
    rewrite digit_char by done. f_equal. lia.
Qed.

(** Read as a literal, the digits of ["{}".format(n)] give [n]. *)
Lemma digits_value_format_nat k :
  digits_value 0 false (py (format_nat k)) = Some (Z.of_nat k).
Proof. unfold format_nat. by rewrite digits_value_format by lia. Qed.

Lemma digits_value_nonneg s acc b n :
  (0 <= acc)%Z -> digits_value acc b s = Some n -> (0 <= n)%Z.
Proof.
  revert acc b. induction s as [|c s IH]; intros acc b Hacc;
    cbn [digits_value].
  - destruct b; [|done]. by intros [= <-].
  - destruct (decimal c) as [d|]; [apply IH; lia|].
    destruct ((c =? 95) && b); [by apply IH | done].
Qed.

(** When [int] reads a run of digits, the run is within the limit and the
    number is the one its digits give. *)
Lemma int_of_run ds n :
  Forall (fun c => is_digit c = true) ds -> int_of_str ds = Some n ->
  N.of_nat (length ds) <= INT_MAX_STR_DIGITS /\
  digits_value 0 false ds = Some n /\ (0 <= n)%Z.
Proof.
  intros Hds Hn.
  destruct (N.le_gt_cases (N.of_nat (length ds)) INT_MAX_STR_DIGITS)
    as [Hle|Hgt].
  - split; [done|]. destruct ds as [|c ds]; [done|].
    rewrite int_of_digits in Hn by done. split; [done|].
    by eapply digits_value_nonneg.
  - by rewrite int_of_long in Hn.
Qed.

(** The decimal form of a number that is not negative and below the limit
    of the interpreter. *)
Lemma format_int_small z :
  (0 <= z < 10 ^ Z.of_N INT_MAX_STR_DIGITS)%Z ->
  format_int z = Some (py (format_nat (Z.to_nat z))).
Proof.
  intros Hz. unfold format_int.
  set (limit := (10 ^ Z.of_N INT_MAX_STR_DIGITS)%Z) in *.
  destruct (Z.leb_spec limit (Z.abs z)); [lia|].
  by destruct (Z.ltb_spec z 0); [lia|].
Qed.

Lemma format_int_large z :
  (10 ^ Z.of_N INT_MAX_STR_DIGITS <= z)%Z -> format_int z = None.
Proof.
  intros Hz. unfold format_int.
  set (limit := (10 ^ Z.of_N INT_MAX_STR_DIGITS)%Z) in *.
  by destruct (Z.leb_spec limit (Z.abs z)); [|lia].
Qed.



Lemma next_page_number_up pre ds post :
  ~ occurs (py "page=") pre -> ~ occurs (py "page=") post ->
  Forall (fun c => is_digit c = true) ds -> ds ≠ [] ->
  match post with c :: _ => is_digit c = false | [] => True end ->
  N.of_nat (length ds) <= INT_MAX_STR_DIGITS ->
  exists n,
    int_of_str ds = Some n /\ (0 <= n)%Z /\
    digits_value 0 false ds = Some n /\
    ((n + 1 < 10 ^ Z.of_N INT_MAX_STR_DIGITS)%Z ->
     next_page_number (pre ++ py "page=" ++ ds ++ post)
     = Ok (Some (pre ++ py "page=" ++ py (format_nat (Z.to_nat (n + 1)))
                   ++ post))) /\
    ((10 ^ Z.of_N INT_MAX_STR_DIGITS <= n + 1)%Z ->
     next_page_number (pre ++ py "page=" ++ ds ++ post) = Raise ValueError).
Proof.
  intros Hpre Hpost Hds Hne Hnext Hlen.
  destruct (int_of_str_digits ds Hds Hne Hlen) as [n Hn].
  destruct (int_of_run ds n Hds Hn) as (_ & Hv & Hpos).
  exists n. split; [done|]. split; [done|]. split; [done|].
  unfold next_page_number.
  rewrite (proj2 (contains_spec _ _)) by (by exists pre, (ds ++ post)).
  rewrite search_page by done. change (group [(1%nat, ds)] 1) with ds.
  rewrite Hn. split.
  - intros Hsmall. rewrite format_int_small by lia.
    rewrite sub_page by done. by rewrite <- app_assoc.
  - intros Hlarge. by rewrite format_int_large.
Qed.



(** X21. Without an anchor to follow, [_next_page] counts the page number
    of the address up. In an address with one [page=] and behind it a
    number of digits that [int] accepts (not more than the interpreter's
    limit of 4300), the number is replaced by the next number in decimal
    and the rest of the address is kept, and the address given is never
    the current one, so the crawl goes on; this as long as the next number
    has no more digits than the limit: when it has, [_next_page] raises
    [ValueError]. *)
Theorem next_page_counts_up html pre ds post :
  next_href html = None \/ next_href html = Some [] ->
  ~ occurs (py "page=") pre -> ~ occurs (py "page=") post ->
  Forall (fun c => is_digit c = true) ds -> ds ≠ [] ->
  match post with c :: _ => is_digit c = false | [] => True end ->
  N.of_nat (length ds) <= INT_MAX_STR_DIGITS ->
  exists n,
    int_of_str ds = Some n /\ (0 <= n)%Z /\
    ((n + 1 < 10 ^ Z.of_N INT_MAX_STR_DIGITS)%Z ->
     _next_page next_href html (pre ++ py "page=" ++ ds ++ post)
     = Ok (Some (pre ++ py "page=" ++ py (format_nat (Z.to_nat (n + 1)))
                   ++ post)) /\
     pre ++ py "page=" ++ py (format_nat (Z.to_nat (n + 1))) ++ post
     ≠ pre ++ py "page=" ++ ds ++ post) /\
    ((10 ^ Z.of_N INT_MAX_STR_DIGITS <= n + 1)%Z ->
     _next_page next_href html (pre ++ py "page=" ++ ds ++ post)
     = Raise ValueError).
Proof.
  intros Hhref Hpre Hpost Hds Hne Hnext Hlen.
  destruct (next_page_number_up pre ds post Hpre Hpost Hds Hne Hnext Hlen)
    as (n & Hn & Hpos & Hv & Hup & Hraise).
  assert (_next_page next_href html (pre ++ py "page=" ++ ds ++ post)
          = next_page_number (pre ++ py "page=" ++ ds ++ post)) as ->
    by (unfold _next_page; by destruct Hhref as [-> | ->]).
  exists n. split; [done|]. split; [done|]. split; [|done].
  intros Hsmall. split; [by apply Hup|].
  intros Heq. apply app_inv_head, app_inv_head, app_inv_tail in Heq.
  pose proof (digits_value_format_nat (Z.to_nat (n + 1))) as Hf.
  rewrite Heq, Hv in Hf. injection Hf. lia.
Qed.

End NextPageRun.

(** ** A crawl without a link to follow *)

Section FetchOnePage.
Context {U : Unicode}.
Variable _next_data_articles : str -> result (option (list dict)).
Variable _html_articles : str -> result (list dict).
Variable next_href : str -> option str.

Lemma next_page_number_start : next_page_number NEWS_URL = Ok None.
Proof.
  unfold next_page_number.
  assert (contains (py "page=") NEWS_URL = false) as -> by reflexivity.
  done.
Qed.

Lemma fetch_pages_one_page turns w :
  match remote w with
  | Some html :: _ =>
      (next_href html = None \/ next_href html = Some []) /\
      returns (page_records _next_data_articles _html_articles html)
  | _ => True
  end ->
  exists w',
    fetch_pages _next_data_articles _html_articles (_next_page next_href)
      (S turns) NEWS_URL 1 [] ∅ w
    = (Ok (match remote w with
           | Some html :: _ =>
               all_articles
                 (dedup_page
                    (records_read _next_data_articles _html_articles html)
                    [] ∅)
           | _ => []
           end), w') /\
    remote w' = drop 1 (remote w) /\
    files w' = files w.
Proof.
  intros Hfirst. cbn [fetch_pages].
  change (truthy NEWS_URL) with true. cbn [negb].
  unfold bind at 1. cbn [print]. unfold bind at 1. unfold request at 1.
  cbn [remote].
  destruct (remote w) as [|[html|] rest];
    cbn [files environ remote console fs_log].
  - unfold bind, print, ret. cbn. by eexists.
  - destruct Hfirst as [Hhref [page_articles Hpage]].
    assert (_next_page next_href html NEWS_URL = Ok None) as Hnext.
    { unfold _next_page.
      destruct Hhref as [-> | ->]; cbn [truthy];
        by rewrite next_page_number_start. }
    unfold bind at 1.
    match goal with
    | |- context [read_page _ _ html ?w0] =>
        pose proof (read_page_records _next_data_articles _html_articles
                      html w0) as Hread
    end.
    unfold records_read. rewrite Hpage in Hread |- *.
    destruct page_articles as [|rec page_articles].
    + rewrite Hread. unfold bind, print, ret. cbn. by eexists.
    + destruct Hread as [how ->].
      unfold bind at 1. cbn [print]. unfold bind at 1. cbn [print].
      destruct (Nat.eqb _ 0); [by eexists|].
      unfold bind at 1, call at 1. rewrite Hnext. by eexists.
  - unfold bind, print, ret. cbn. by eexists.
Qed.

(** X23. The start address has no page number, so only an anchor leads to
    a second page: when the readers return on the first page and it has no
    anchor with an [href] to the next page, the crawl makes one request and
    no more, and the cache it writes holds the records of that page,
    de-duplicated. *)
Theorem fetch_without_anchor_reads_one_page P w :
  match remote w with
  | Some html :: _ =>
      (next_href html = None \/ next_href html = Some []) /\
      returns (page_records _next_data_articles _html_articles html)
  | _ => True
  end ->
  exists w',
    cmd_fetch _next_data_articles _html_articles (_next_page next_href)
      P w = (Ok tt, w') /\
    remote w' = drop 1 (remote w) /\
    files w'
    = <[RAW_PATH P :=
          JArticles
            (match remote w with
             | Some html :: _ =>
                 all_articles
                   (dedup_page
                      (records_read _next_data_articles _html_articles html)
                      [] ∅)
             | _ => []
             end)]> (files w).
Proof.
  intros Hfirst. unfold cmd_fetch.
  do 3 (unfold bind at 1; cbn [print]).
  unfold bind at 1. cbn [path_exists log_fs files environ remote console fs_log].
  destruct (bool_decide (is_Some (files w !! RAW_PATH P)));
    unfold bind at 1; cbn [print ret files environ remote console fs_log];
    unfold bind at 1; cbn [files environ remote console fs_log];
    match goal with
    | |- context [fetch_pages _ _ _ (S ?t) NEWS_URL 1%nat [] ∅ ?w0] =>
        destruct (fetch_pages_one_page t w0 Hfirst)
          as (w2 & Hrun & Hr2 & Hf2);
        rewrite Hrun
    end;
    cbn [remote files] in Hr2, Hf2 |- *;
    eexists;
    (split; [unfold bind, save_json, print; cbn; reflexivity|]);
    cbn [remote files]; by rewrite Hr2, Hf2.
Qed.
End FetchOnePage.

(** From the address with [page=9] the next address is the one with
    [page=10]. *)
Lemma next_page_counts_up_witness :
  @_next_page ascii_only (fun _ => None) []
    (py "https://openai.com/news/?page=9")
  = Ok (Some (py "https://openai.com/news/?page=10")).
Proof.
  destruct (@next_page_counts_up ascii_only (fun _ => None) []
              (py "https://openai.com/news/?") (py "9") [])
    as (n & Hn & _ & Hrun & _).
  - by left.
  - intros H%contains_spec. vm_compute in H. discriminate H.
  - intros H%contains_spec. vm_compute in H. discriminate H.
  - repeat constructor.
  - done.
  - done.
  - by vm_compute.
  - vm_compute in Hn. injection Hn as <-.
    destruct Hrun as [Hrun _]; [by vm_compute | exact Hrun].
Defined.

(** A first page of one record and no anchor: one request is made of the
    two that would be answered. *)
Lemma fetch_without_anchor_reads_one_page_witness :
  exists w',
    @cmd_fetch (fun _ => Ok None)
      (fun _ => Ok [ {[ "title" := py "GPT-4";
                        "url" := py "https://openai.com/gpt-4";
                        "date_str" := py "2023-03-14" ]} ])
      (@_next_page ascii_only (fun _ => None))
      (script_paths "/repo/scripts" "/repo")
      (World ∅ ∅ [Some (py "<html>"); Some (py "<html>")] [] [])
    = (Ok tt, w') /\
    remote w' = [Some (py "<html>")].
Proof.
  destruct (@fetch_without_anchor_reads_one_page ascii_only
              (fun _ => Ok None)
              (fun _ => Ok [ {[ "title" := py "GPT-4";
                               "url" := py "https://openai.com/gpt-4";
                               "date_str" := py "2023-03-14" ]} ])
              (fun _ => None) (script_paths "/repo/scripts" "/repo")
              (World ∅ ∅ [Some (py "<html>"); Some (py "<html>")] [] []))
    as (w' & Hrun & Hr & _).
  - split; [by left | by eexists].
  - exists w'. split; [exact Hrun | exact Hr].
Defined.
